(** * gather_package_deps.py: a shallow embedding and its properties

    The development follows [sdk/cts/build/scripts/gather_package_deps.py].
    Strings are byte strings (UTF-8), the file system is a finite map from
    resolved locations to nodes, exceptions are error values, and the
    class [GatherPackageDeps] is a record with one function per method. *)

From Stdlib Require Import Ascii String List Arith Lia Permutation.
From stdpp Require Import base option list strings gmap fin_maps.

Set Default Proof Using "Type".
Local Set Warnings "-register-all".

(* ===================================================================== *)
(** * Python strings *)
(* ===================================================================== *)

Module PyStr.

Definition slash : ascii := "/"%char.
Definition newline : ascii := "010"%char.

(** [s.startswith(p)], returning what follows the prefix. *)
Fixpoint strip_prefix (p s : string) : option string :=
  match p with
  | EmptyString => Some s
  | String a p' =>
      match s with
      | EmptyString => None
      | String b s' => if Ascii.eqb a b then strip_prefix p' s' else None
      end
  end.

Definition startswith (s p : string) : bool :=
  match strip_prefix p s with Some _ => true | None => false end.

(** [s.endswith("/")]. *)
Fixpoint endswith_slash (s : string) : bool :=
  match s with
  | EmptyString => false
  | String a EmptyString => Ascii.eqb a slash
  | String _ s' => endswith_slash s'
  end.

(** [s.lstrip("/")]. *)
Fixpoint lstrip_slash (s : string) : string :=
  match s with
  | String a s' => if Ascii.eqb a slash then lstrip_slash s' else s
  | EmptyString => EmptyString
  end.

(** [s.split("/")]: never empty, [""] for the empty string. *)
Fixpoint split_slash (s : string) : list string :=
  match s with
  | EmptyString => [EmptyString]
  | String a s' =>
      if Ascii.eqb a slash then EmptyString :: split_slash s'
      else match split_slash s' with
           | c :: cs => String a c :: cs
           | [] => [String a EmptyString]
           end
  end.

(** [sep.join(l)]. *)
Fixpoint join (sep : string) (l : list string) : string :=
  match l with
  | [] => EmptyString
  | [x] => x
  | x :: l' => x +:+ sep +:+ join sep l'
  end.

(** The first [n] bytes of [s], [s[:n]]. *)
Fixpoint take (n : nat) (s : string) : string :=
  match n, s with
  | S n', String a s' => String a (take n' s')
  | _, _ => EmptyString
  end.

End PyStr.

(* ===================================================================== *)
(** * Regular expressions: a backtracking matcher in the manner of [re] *)
(* ===================================================================== *)

Module Re.

(** The fragment of the pattern language that [path_stripper] uses.
    Non-capturing groups are plain nesting; there is one capturing group. *)
Inductive regex : Type :=
| Lit (s : string)          (* literal text *)
| AnyChar                   (* [.]: any character but a newline *)
| Seq (r1 r2 : regex)       (* r1 r2 *)
| Opt (r : regex)           (* r?  greedy *)
| Plus (r : regex)          (* r+  greedy *)
| Group (r : regex).        (* (r) capturing group 1 *)

(** A matcher state: the input still to be read and group 1 so far. *)
Definition mstate : Type := string * option string.

(** What was read between two states of the same input. *)
Definition consumed (before after : string) : string :=
  PyStr.take (String.length before - String.length after) before.

(** Greedy repetition, one or more times.  The alternatives are listed in
    the order a backtracking matcher tries them: after one more
    iteration, first everything that goes on iterating, then stopping
    there.  An iteration that read nothing is not repeated.  [n] bounds
    the number of iterations and is the length of the input, which is
    never reached since every repeated iteration reads a character. *)
Fixpoint repeat_greedy (step : mstate -> list mstate) (n : nat)
    (st : mstate) : list mstate :=
  flat_map
    (fun st' =>
       match n with
       | S n' =>
           if String.length (fst st') <? String.length (fst st)
           then repeat_greedy step n' st' ++ [st']
           else [st']
       | O => [st']
       end)
    (step st).

(** All the ways [r] matches at the front of the input, in the order
    backtracking explores them. *)
Fixpoint rmatch (r : regex) (st : mstate) : list mstate :=
  match r with
  | Lit l =>
      match PyStr.strip_prefix l (fst st) with
      | Some rest => [(rest, snd st)]
      | None => []
      end
  | AnyChar =>
      match fst st with
      | String c rest =>
          if Ascii.eqb c PyStr.newline then [] else [(rest, snd st)]
      | EmptyString => []
      end
  | Seq r1 r2 => flat_map (rmatch r2) (rmatch r1 st)
  | Opt r' => rmatch r' st ++ [st]
  | Plus r' => repeat_greedy (rmatch r') (String.length (fst st)) st
  | Group r' =>
      map (fun st' => (fst st', Some (consumed (fst st) (fst st'))))
          (rmatch r' st)
  end.

(** [pattern.match(s)] followed by [.group(1)]: the first way to match
    at the start of [s]; [None] is Python's [None] match object. *)
Definition match_group1 (r : regex) (s : string) : option string :=
  match rmatch r (s, None) with
  | st :: _ => snd st
  | [] => None
  end.

End Re.

(* ===================================================================== *)
(** * Exceptions and results *)
(* ===================================================================== *)

(** The exceptions the script can meet.  [JSONDecodeError] and
    [UnicodeDecodeError] are subclasses of [ValueError] in Python;
    [RecursionError] is not. *)
Inductive exn : Type :=
| ValueError (msg : string)
| JSONDecodeError
| UnicodeDecodeError
| RecursionError
| KeyError (key : string)
| TypeError
| AttributeError
| FileNotFoundError
| NotADirectoryError
| IsADirectoryError
| FileExistsError
| SameFileError.

Definition is_ValueError (e : exn) : bool :=
  match e with
  | ValueError _ | JSONDecodeError | UnicodeDecodeError => true
  | _ => false
  end.

Inductive result (A : Type) : Type :=
| Ok (a : A)
| Raise (e : exn).
Arguments Ok {A} a.
Arguments Raise {A} e.

Global Instance result_ret : MRet result := fun A a => Ok a.
Global Instance result_bind : MBind result :=
  fun A B f m => match m with Ok a => f a | Raise e => Raise e end.

(** A [for] loop with an accumulator: the first exception leaves the loop. *)
Fixpoint foldM {A B : Type} (f : B -> A -> result B) (b : B) (l : list A)
    : result B :=
  match l with
  | [] => Ok b
  | a :: l' => b' ← f b a; foldM f b' l'
  end.

(* ===================================================================== *)
(** * JSON values as [json.load] returns them *)
(* ===================================================================== *)

Module Json.

Inductive json : Type :=
| JNull
| JBool (b : bool)
| JNumber (literal : string)
| JString (s : string)
| JArray (items : list json)
| JObject (members : list (string * json)).

Fixpoint assoc {V : Type} (k : string) (l : list (string * V)) : option V :=
  match l with
  | [] => None
  | (k', v) :: l' => if String.eqb k' k then Some v else assoc k l'
  end.

(** [v[k]] for a string [k]: only a dict can be indexed by a string. *)
Definition getitem (v : json) (k : string) : result json :=
  match v with
  | JObject members =>
      match assoc k members with
      | Some x => Ok x
      | None => Raise (KeyError k)
      end
  | _ => Raise TypeError
  end.

(** The characters of a string, each as a string. *)
Fixpoint chars (s : string) : list json :=
  match s with
  | EmptyString => []
  | String a s' => JString (String a EmptyString) :: chars s'
  end.

(** [for x in v]: a list gives its items, a dict its keys, a string its
    characters; nothing else can be iterated. *)
Definition iter (v : json) : result (list json) :=
  match v with
  | JArray items => Ok items
  | JObject members => Ok (map (fun kv => JString (fst kv)) members)
  | JString s => Ok (chars s)
  | _ => Raise TypeError
  end.

(** [v.startswith(p)]: only [str] has the method. *)
Definition startswith (v : json) (p : string) : result bool :=
  match v with
  | JString s => Ok (PyStr.startswith s p)
  | _ => Raise AttributeError
  end.

(** Where Python needs a [str] operand. *)
Definition as_str (v : json) : result string :=
  match v with
  | JString s => Ok s
  | _ => Raise TypeError
  end.

(** [sep.join(values)]: every value has to be a [str]. *)
Fixpoint str_join (sep : string) (l : list json) : result string :=
  match l with
  | [] => Ok EmptyString
  | [x] => as_str x
  | x :: l' => s ← as_str x; r ← str_join sep l'; Ok (s +:+ sep +:+ r)
  end.

End Json.
Export Json(json(..)).

(* ===================================================================== *)
(** * Python [dict]: insertion ordered, one entry per key *)
(* ===================================================================== *)

Module Dict.

Definition dict (V : Type) : Type := list (string * V).

(** [d[k] = v]: a present key keeps its place, a new one goes last. *)
Fixpoint set {V : Type} (k : string) (v : V) (d : dict V) : dict V :=
  match d with
  | [] => [(k, v)]
  | (k', v') :: d' =>
      if String.eqb k' k then (k', v) :: d' else (k', v') :: set k v d'
  end.

Definition get {V : Type} (k : string) (d : dict V) : option V :=
  Json.assoc k d.

Definition keys {V : Type} (d : dict V) : list string := map fst d.
Definition values {V : Type} (d : dict V) : list V := map snd d.
Definition items {V : Type} (d : dict V) : list (string * V) := d.

End Dict.

(* ===================================================================== *)
(** * [posixpath] *)
(* ===================================================================== *)

Module PosixPath.

(** [os.path.join(a, b)] *)
Definition join (a b : string) : string :=
  if PyStr.startswith b "/" then b
  else if String.eqb a "" || PyStr.endswith_slash a then a +:+ b
  else a +:+ "/" +:+ b.

Fixpoint has_slash (s : string) : bool :=
  match s with
  | EmptyString => false
  | String a s' => Ascii.eqb a PyStr.slash || has_slash s'
  end.

(** [p[:p.rfind('/') + 1]] *)
Fixpoint head_part (p : string) : string :=
  match p with
  | EmptyString => EmptyString
  | String a p' => if has_slash p then String a (head_part p') else EmptyString
  end.

Fixpoint all_slashes (s : string) : bool :=
  match s with
  | EmptyString => true
  | String a s' => Ascii.eqb a PyStr.slash && all_slashes s'
  end.

(** [s.rstrip('/')] *)
Fixpoint rstrip_slash (s : string) : string :=
  match s with
  | EmptyString => EmptyString
  | String a s' =>
      if all_slashes s then EmptyString else String a (rstrip_slash s')
  end.

(** [os.path.dirname(p)] *)
Definition dirname (p : string) : string :=
  let head := head_part p in
  if all_slashes head then head else rstrip_slash head.

End PosixPath.

(* ===================================================================== *)
(** * The file system and the effects of the script *)
(* ===================================================================== *)

Module FS.

(** A resolved location: the names from the root down. *)
Abbreviation loc := (list string).

(** One member of a tar archive as [tarfile] writes it in [GNU_FORMAT]:
    the name field of the header block holds at most 100 bytes; a longer
    name is written in full in a GNU long-name record ([././@LongLink],
    type [L]) that precedes the header. *)
Record tar_header : Type := TarHeader {
  th_name : string;
  th_gnu_longname : option string
}.

(** What a regular file holds: bytes, or the members of an archive. *)
Inductive data : Type :=
| Bytes (s : string)
| Archive (members : list (tar_header * data)).

Inductive node : Type :=
| File (d : data)
| Dir.

(** The changes made to the file system, most recent first, and what
    [main] printed. *)
Inductive event : Type :=
| EvCopyfile (src dst : string)
| EvMkdir (l : loc)
| EvOpenWrite (p : string)
| EvTarOpen (p : string)
| EvTarAdd (l : loc) (arcname : string)
| EvRemove (l : loc)
| EvPrint (e : exn).

Record world : Type := World {
  cwd : loc;
  files : gmap loc node;
  log : list event
}.

Definition set_files (f : gmap loc node -> gmap loc node) (w : world) : world :=
  World (cwd w) (f (files w)) (log w).
Definition emit (e : event) (w : world) : world :=
  World (cwd w) (files w) (e :: log w).

(** Effectful code: a result, or an exception, and the world as the
    statements run so far have left it. *)
Definition io (A : Type) : Type := world -> result A * world.

Global Instance io_ret : MRet io := fun A a w => (Ok a, w).
Global Instance io_bind : MBind io :=
  fun A B f m w =>
    match m w with
    | (Ok a, w') => f a w'
    | (Raise e, w') => (Raise e, w')
    end.

Definition lift {A : Type} (r : result A) : io A := fun w => (r, w).

Definition log_event (e : event) : io unit := fun w => (Ok tt, emit e w).

(** A [for] loop over [l]. *)
Fixpoint for_each {A : Type} (l : list A) (body : A -> io unit) : io unit :=
  match l with
  | [] => mret tt
  | a :: l' => body a;; for_each l' body
  end.

(** ** Path resolution *)

(** One component of a path, looked up in the directory reached so far:
    the directory has to exist; the new entry need not. *)
Definition step (fs : gmap loc node) (cur : result loc) (c : string)
    : result loc :=
  l ← cur;
  match fs !! l with
  | Some Dir =>
      Ok (if String.eqb c "" || String.eqb c "." then l
          else if String.eqb c ".." then removelast l
          else l ++ [c])
  | Some (File _) => Raise NotADirectoryError
  | None => Raise FileNotFoundError
  end.

Definition start_of (w : world) (p : string) : loc :=
  if PyStr.startswith p "/" then [] else cwd w.

(** The location a path names (no symbolic links). *)
Definition namei (w : world) (p : string) : result loc :=
  if String.eqb p "" then Raise FileNotFoundError
  else fold_left (step (files w)) (PyStr.split_slash p) (Ok (start_of w p)).

(** [os.path.exists(p)] *)
Definition path_exists (w : world) (p : string) : bool :=
  match namei w p with
  | Ok l => match files w !! l with Some _ => true | None => false end
  | Raise _ => false
  end.

(** [open(p).read()], [open(p, 'rb').read()] *)
Definition read_file (p : string) : io data := fun w =>
  match namei w p with
  | Ok l =>
      match files w !! l with
      | Some (File d) => (Ok d, w)
      | Some Dir => (Raise IsADirectoryError, w)
      | None => (Raise FileNotFoundError, w)
      end
  | Raise e => (Raise e, w)
  end.

(** Opening for writing creates the file or empties it; the handle is
    the location of the file. *)
Definition create (p : string) (d : data) : io loc := fun w =>
  match namei w p with
  | Ok l =>
      match files w !! l with
      | Some Dir => (Raise IsADirectoryError, w)
      | _ => (Ok l, set_files (insert l (File d)) w)
      end
  | Raise e => (Raise e, w)
  end.

(** [open(p, 'w')] *)
Definition open_write (p : string) : io loc :=
  h ← create p (Bytes ""); log_event (EvOpenWrite p);; mret h.

(** [f.write(text)] on a handle of [open_write] *)
Definition fwrite (h : loc) (text : string) : io unit := fun w =>
  (Ok tt,
   set_files (alter (fun n => match n with
                              | File (Bytes s) => File (Bytes (s +:+ text))
                              | _ => n
                              end) h) w).

(** [os.path.samefile] as [shutil._samefile] uses it: both exist and
    are the same file. *)
Definition samefile (w : world) (src dst : string) : bool :=
  match namei w src, namei w dst with
  | Ok a, Ok b =>
      match files w !! a, files w !! b with
      | Some _, Some _ => bool_decide (a = b)
      | _, _ => false
      end
  | _, _ => false
  end.

(** [shutil.copyfile(src, dst)] *)
Definition copyfile (src dst : string) : io unit := fun w =>
  if samefile w src dst then (Raise SameFileError, w)
  else (d ← read_file src; create dst d;; log_event (EvCopyfile src dst)) w.

(** [os.makedirs(p, exist_ok=True)], one component after the other from
    the directory [cur]: a missing directory is made, a directory is
    entered, a regular file in the way is an error. *)
Fixpoint mkdir_p (cur : loc) (comps : list string) : io unit :=
  match comps with
  | [] => mret tt
  | c :: cs =>
      if String.eqb c "" || String.eqb c "." then mkdir_p cur cs
      else if String.eqb c ".." then mkdir_p (removelast cur) cs
      else fun w =>
        match files w !! (cur ++ [c]) with
        | Some Dir => mkdir_p (cur ++ [c]) cs w
        | Some (File _) =>
            (Raise (if forallb (String.eqb "") cs then FileExistsError
                    else NotADirectoryError), w)
        | None =>
            mkdir_p (cur ++ [c]) cs
              (emit (EvMkdir (cur ++ [c]))
                 (set_files (insert (cur ++ [c]) Dir) w))
        end
  end.

Definition makedirs (p : string) : io unit := fun w =>
  if String.eqb p "" then (Raise FileNotFoundError, w)
  else mkdir_p (start_of w p) (PyStr.split_slash p) w.

(** [os.remove] of a listed file *)
Definition remove (l : loc) : io unit := fun w =>
  match files w !! l with
  | Some (File _) => (Ok tt, emit (EvRemove l) (set_files (delete l) w))
  | Some Dir => (Raise IsADirectoryError, w)
  | None => (Raise FileNotFoundError, w)
  end.

(** ** [os.walk] *)

(** [l] without the prefix [pre]. *)
Fixpoint strip_loc (pre l : loc) : option loc :=
  match pre with
  | [] => Some l
  | a :: pre' =>
      match l with
      | b :: l' => if String.eqb a b then strip_loc pre' l' else None
      | [] => None
      end
  end.

(** A regular file met by the walk: the directories from the top down to
    it, its name, and its location. *)
Record walk_entry : Type := WalkEntry {
  we_dirs : list string;
  we_name : string;
  we_loc : loc
}.

Definition entry_of (top : loc) (kn : loc * node) : option walk_entry :=
  match snd kn with
  | File _ =>
      match strip_loc top (fst kn) with
      | Some rel =>
          match rel with
          | [] => None
          | _ => Some (WalkEntry (removelast rel) (List.last rel "") (fst kn))
          end
      | None => None
      end
  | Dir => None
  end.

(** The [(root, files)] pairs of [os.walk(top)], one entry per regular
    file below [top].  The order in which a directory lists its entries
    is not specified; the walk here follows the order of the map.  A top
    that is not a directory gives no entry. *)
Definition walk (top : string) (w : world) : list walk_entry :=
  match namei w top with
  | Ok t =>
      match files w !! t with
      | Some Dir => omap (entry_of t) (map_to_list (files w))
      | _ => []
      end
  | Raise _ => []
  end.

(** The [root] string [os.walk] builds for the directory [dirs] below
    [top], by [os.path.join]. *)
Definition walk_root (top : string) (dirs : list string) : string :=
  fold_left PosixPath.join dirs top.

(** [os.path.relpath(root, top)] for a [root] of the walk of [top]:
    ["."] for the top itself, else the directories joined by ["/"]. *)
Definition relpath_of_walk (dirs : list string) : string :=
  match dirs with
  | [] => "."
  | _ => PyStr.join "/" dirs
  end.

(** ** [tarfile] *)

Definition LENGTH_NAME : nat := 100.

(** [TarInfo.create_gnu_header]: the header block, and before it a
    long-name record when the name does not fit the name field. *)
Definition create_gnu_header (name : string) : tar_header :=
  TarHeader (PyStr.take LENGTH_NAME name)
    (if LENGTH_NAME <? String.length name then Some name else None).

(** The name of a member as a reader sees it. *)
Definition member_name (h : tar_header) : string :=
  match th_gnu_longname h with
  | Some n => n
  | None => th_name h
  end.

(** [tarfile.open(p, 'w', format=tarfile.GNU_FORMAT)] *)
Definition tar_open (p : string) : io loc :=
  h ← create p (Archive []); log_event (EvTarOpen p);; mret h.

(** [tar.add(name, arcname=arcname)] for the regular file at [l]:
    [gettarinfo] strips leading slashes from [arcname]. *)
Definition tar_add (tar : loc) (l : loc) (arcname : string) : io unit := fun w =>
  match files w !! l with
  | Some (File d) =>
      let m := (create_gnu_header (PyStr.lstrip_slash arcname), d) in
      (Ok tt,
       emit (EvTarAdd l arcname)
         (set_files (alter (fun n => match n with
                                     | File (Archive ms) => File (Archive (ms ++ [m]))
                                     | _ => n
                                     end) tar) w))
  | Some Dir => (Raise IsADirectoryError, w)
  | None => (Raise FileNotFoundError, w)
  end.

End FS.
Export FS(data(..), node(..), event(..), world(..), io, tar_header(..)).
Abbreviation loc := (list string).

(* ===================================================================== *)
(** * class GatherPackageDeps *)
(* ===================================================================== *)

Module GatherPackageDeps.

Import FS.

Definition nl : string := String PyStr.newline EmptyString.

(** The attributes of an instance. *)
Record t : Type := Self {
  package_json_path : string;
  meta_far_path : string;
  output_dir : string;
  depfile : string
}.

(** [manifest_dict]: archive path to source path. *)
Definition manifest : Type := Dict.dict json.

(** [path_stripper = re.compile(r'(?:(?:\.\.\/)+)?\/?(.+)')] *)
Definition path_stripper : Re.regex :=
  Re.Seq (Re.Opt (Re.Plus (Re.Lit "../")))
    (Re.Seq (Re.Opt (Re.Lit "/"))
       (Re.Group (Re.Plus Re.AnyChar))).

(** [__init__]; the empty string is the only string that is false. *)
Definition init (package_json_path meta_far_path output_dir depfile : string)
    : io t := fun w =>
  if negb (String.eqb package_json_path "") && path_exists w package_json_path
  then
    if negb (String.eqb meta_far_path "") && path_exists w meta_far_path
    then
      if negb (String.eqb output_dir "")
      then
        if negb (String.eqb depfile "")
        then (Ok (Self package_json_path meta_far_path output_dir depfile), w)
        else (Raise (ValueError "depfile cannot be empty"), w)
      else (Raise (ValueError "output_dir cannot be empty"), w)
    else (Raise (ValueError "meta_far_path must be to a valid file"), w)
  else (Raise (ValueError "package_json_path must be to a valid file"), w).

(** The body of the loop of [parse_package_json]. *)
Definition parse_blob (manifest_dict : manifest) (file : json) : result manifest :=
  path ← Json.getitem file "path";
  is_meta ← Json.startswith path "meta/";
  if is_meta : bool then Ok manifest_dict
  else
    source_path ← Json.getitem file "source_path";
    key ← Json.as_str path;
    Ok (Dict.set key source_path manifest_dict).

(** [parse_package_json] once the file is decoded. *)
Definition parse_blobs (data : json) : result manifest :=
  blobs ← Json.getitem data "blobs";
  files ← Json.iter blobs;
  foldM parse_blob [] files.

(** The decoder of the standard library, on what a file holds: the
    decoded value, or the exception that [json.load] raises, which is
    [JSONDecodeError] for a text that is not JSON, [UnicodeDecodeError]
    for bytes that are not UTF-8 and [RecursionError] for a nesting that
    is too deep. *)
Definition decoder : Type := data -> result json.

Section WithDecoder.

Variable json_loads : decoder.

(** [json.load(f)] *)
Definition json_load (f : data) : result json := json_loads f.

Definition parse_package_json (self : t) : io manifest :=
  f ← read_file (package_json_path self);
  data ← lift (json_load f);
  lift (parse_blobs data).

Definition copy_meta_far (self : t) : io unit :=
  copyfile (meta_far_path self) (PosixPath.join (output_dir self) "meta.far").

(** The body of the loop of [copy_to_output_dir]. *)
Definition copy_entry (self : t) (manifest_dict : manifest)
    (item : string * json) : io manifest :=
  let archive_path := fst item in
  source_path ← lift (Json.as_str (snd item));
  group1 ← lift (match Re.match_group1 path_stripper source_path with
                 | Some g => Ok g
                 | None => Raise AttributeError
                 end);
  let out_path := PosixPath.join (output_dir self) group1 in
  makedirs (PosixPath.dirname out_path);;
  copyfile source_path out_path;;
  mret (Dict.set archive_path (JString group1) manifest_dict).

(** The loop over [manifest_dict.items()]: the dict keeps its keys
    while the loop assigns to the key just read, so that the items
    read are those the dict had when the loop began. *)
Fixpoint copy_loop (self : t) (items : list (string * json))
    (manifest_dict : manifest) : io manifest :=
  match items with
  | [] => mret manifest_dict
  | item :: rest =>
      d ← copy_entry self manifest_dict item;
      copy_loop self rest d
  end.

Definition copy_to_output_dir (self : t) (manifest_dict : manifest)
    : io manifest :=
  copy_loop self (Dict.items manifest_dict) manifest_dict.

Definition write_new_manifest (self : t) (manifest_dict : manifest)
    : io unit :=
  f ← open_write (PosixPath.join (output_dir self) "package.manifest");
  for_each (Dict.items manifest_dict)
    (fun item =>
       source_path ← lift (Json.as_str (snd item));
       fwrite f (fst item +:+ "=" +:+ source_path +:+ nl));;
  fwrite f ("meta/package=meta.far" +:+ nl).

(** The body of the loops of [archive_output] for one listed file. *)
Definition archive_entry (self : t) (tar_path : string) (tar : loc)
    (e : walk_entry) : io unit :=
  let root := walk_root (output_dir self) (we_dirs e) in
  let name := we_name e in
  let relative_dir := relpath_of_walk (we_dirs e) in
  let input_path := PosixPath.join root name in
  let relative_path := PosixPath.join relative_dir name in
  if String.eqb input_path tar_path then mret tt
  else
    tar_add tar (we_loc e) relative_path;;
    remove (we_loc e).

Definition archive_output (self : t) (tar_path : string) : io unit :=
  tar ← tar_open tar_path;
  entries ← (fun w => (Ok (walk (output_dir self) w), w));
  for_each entries (archive_entry self tar_path tar).

Definition depfile_text (tar_path deps : string) : string :=
  tar_path +:+ ": " +:+ deps +:+ nl.

Definition run (self : t) : io unit :=
  manifest_dict ← parse_package_json self;
  deps ← lift (Json.str_join " " (Dict.values manifest_dict));
  copy_meta_far self;;
  manifest_dict' ← copy_to_output_dir self manifest_dict;
  write_new_manifest self manifest_dict';;
  let tar_path := PosixPath.join (output_dir self) "package.tar" in
  archive_output self tar_path;;
  f ← open_write (depfile self);
  fwrite f (depfile_text tar_path deps).

(** The parsed command line: the four required arguments. *)
Record args : Type := Args {
  arg_package_json_path : string;
  arg_meta_far_path : string;
  arg_output_dir : string;
  arg_depfile : string
}.

(** [main]: the exit status, and the world it leaves. *)
Definition main (a : args) (w : world) : nat * world :=
  match (self ← init (arg_package_json_path a) (arg_meta_far_path a)
                  (arg_output_dir a) (arg_depfile a);
         run self) w with
  | (Ok _, w') => (0, w')
  | (Raise e, w') => (1, emit (EvPrint e) w')
  end.

End WithDecoder.

End GatherPackageDeps.

(* ===================================================================== *)
(** * The vocabulary of the statements *)
(* ===================================================================== *)

Module Spec.

Import FS GatherPackageDeps.

(** A blob entry of the package manifest. *)
Record blob : Type := Blob {
  virtual_path : string;
  source_path : string
}.

(** The decoded form of an entry: an object with a string at ["path"]
    and a string at ["source_path"], and whatever else. *)
Definition is_blob (j : json) (b : blob) : Prop :=
  exists members,
    j = JObject members /\
    Json.assoc "path" members = Some (JString (virtual_path b)) /\
    Json.assoc "source_path" members = Some (JString (source_path b)).

(** A valid manifest: an object whose ["blobs"] is a list of entries. *)
Definition manifest_of (data : json) (blobs : list blob) : Prop :=
  exists members items,
    data = JObject members /\
    Json.assoc "blobs" members = Some (JArray items) /\
    Forall2 is_blob items blobs.

(** Under the metadata namespace. *)
Definition is_meta (b : blob) : bool :=
  PyStr.startswith (virtual_path b) "meta/".

Definition same_path (b b' : blob) : bool :=
  String.eqb (virtual_path b') (virtual_path b).

(** The retained entries: all the entries outside the metadata
    namespace. *)
Definition retained (blobs : list blob) : list blob :=
  filter (fun b => is_meta b = false) blobs.

(** The entries that the mapping ends with: outside the metadata
    namespace, and not followed by another such entry for the same
    virtual path, whose source path would replace theirs. *)
Fixpoint effective (blobs : list blob) : list blob :=
  match blobs with
  | [] => []
  | b :: rest =>
      if is_meta b then effective rest
      else if existsb (fun b' => negb (is_meta b') && same_path b b') rest
           then effective rest
           else b :: effective rest
  end.

(** What the loading loop does with a valid entry. *)
Definition keep (d : manifest) (b : blob) : manifest :=
  if is_meta b then d
  else Dict.set (virtual_path b) (JString (source_path b)) d.

(** A plain name: not empty, not [.] nor [..], without a slash. *)
Definition clean_comp (c : string) : Prop :=
  c <> "" /\ c <> "." /\ c <> ".." /\ PosixPath.has_slash c = false.

(** A canonical path made of plain names, and not the archive itself. *)
Definition clean_canonical (c : string) : Prop :=
  exists cs, c = PyStr.join "/" cs /\ cs <> [] /\ Forall clean_comp cs /\
             cs <> ["package.tar"].

(** [a] with the separator that [os.path.join] puts after it. *)
Definition slashed (a : string) : string :=
  if String.eqb a "" || PyStr.endswith_slash a then a else a +:+ "/".

(** Strictly below the directory [top]. *)
Definition below (top k : loc) : Prop :=
  exists rel, rel <> [] /\ k = top ++ rel.

Definition is_file (fs : gmap loc node) (k : loc) : Prop :=
  exists d, fs !! k = Some (File d).

(** The path of the file that a member name denotes: a leading [./] does
    not count. *)
Definition strip_dot_slash (n : string) : string :=
  match PyStr.strip_prefix "./" n with
  | Some r => r
  | None => n
  end.

Definition member_path (m : tar_header * data) : string :=
  strip_dot_slash (member_name (fst m)).

(** From [w] to [w']: the working directory is the same, directories and
    regular files stay, and a regular file of [w'] was one in [w] or is at
    a location in [T]. *)
Definition grows (T : loc -> Prop) (w w' : world) : Prop :=
  cwd w' = cwd w /\
  (forall k, files w !! k = Some Dir -> files w' !! k = Some Dir) /\
  (forall k, is_file (files w) k -> is_file (files w') k) /\
  (forall k, is_file (files w') k -> is_file (files w) k \/ T k).

(** The location below [top] of an entry of the output manifest. *)
Definition listed (top : loc) (kcs : list (string * string)) (k : loc) : Prop :=
  exists kc cs,
    kc ∈ kcs /\ snd kc = PyStr.join "/" cs /\ cs <> [] /\
    Forall clean_comp cs /\ k = top ++ cs.

(** The name [archive_output] gives to the file at [rel] below the
    output directory. *)
Definition arcname_of (rel : list string) : string :=
  PosixPath.join (relpath_of_walk (removelast rel)) (List.last rel "").

(** The archive member for a listed file, as [tar.add] writes it. *)
Definition member_of (fs : gmap loc node) (e : walk_entry)
    : option (tar_header * data) :=
  match fs !! we_loc e with
  | Some (File d) =>
      Some (create_gnu_header
              (PyStr.lstrip_slash
                 (PosixPath.join (relpath_of_walk (we_dirs e)) (we_name e))), d)
  | _ => None
  end.

(** The test [input_path == tar_path] of [archive_output]. *)
Definition skipped (self : t) (tar_path : string) (e : walk_entry) : bool :=
  String.eqb (PosixPath.join (walk_root (output_dir self) (we_dirs e)) (we_name e))
    tar_path.

(** Every directory of [fs] is a directory of [fs']. *)
Definition dirs_le (fs fs' : gmap loc node) : Prop :=
  forall l, fs !! l = Some Dir -> fs' !! l = Some Dir.

(** ** The stages of a run: Load, Collect, Archive, WriteDepfile *)

Definition tar_path_of (self : t) : string :=
  PosixPath.join (output_dir self) "package.tar".

Definition manifest_path_of (self : t) : string :=
  PosixPath.join (output_dir self) "package.manifest".

(** Load: the manifest is read and the deps are recorded. *)
Definition load (json_loads : decoder) (self : t)
    : io (manifest * string) :=
  manifest_dict ← parse_package_json json_loads self;
  deps ← lift (Json.str_join " " (Dict.values manifest_dict));
  mret (manifest_dict, deps).

(** Collect: the copies are made and the manifest file is written. *)
Definition collect (self : t) (manifest_dict : manifest) : io manifest :=
  copy_meta_far self;;
  manifest_dict' ← copy_to_output_dir self manifest_dict;
  write_new_manifest self manifest_dict';;
  mret manifest_dict'.

(** WriteDepfile *)
Definition write_depfile (self : t) (deps : string) : io unit :=
  f ← open_write (depfile self);
  fwrite f (depfile_text (tar_path_of self) deps).

(** The stages before the depfile is written; the result is the loaded
    mapping, the deps and the mapping as collected. *)
Definition stages (json_loads : decoder) (self : t)
    : io (manifest * string * manifest) :=
  ld ← load json_loads self;
  d1 ← collect self (fst ld);
  archive_output self (tar_path_of self);;
  mret (fst ld, snd ld, d1).

(** The events of [w'] are those of [w] and, before them, new ones that
    all satisfy [P]. *)
Definition log_ext (P : event -> Prop) (w w' : world) : Prop :=
  exists new, log w' = new ++ log w /\ Forall P new.

(** Whatever its outcome, [m] only adds events that satisfy [P]. *)
Definition io_ext {A : Type} (P : event -> Prop) (m : io A) : Prop :=
  forall w r w', m w = (r, w') -> log_ext P w w'.

(** No text file is opened for writing, except at [p]. *)
Definition writes_text_only_at (p : string) (e : event) : Prop :=
  match e with
  | EvOpenWrite q => q = p
  | EvPrint _ => False
  | _ => True
  end.

(** The virtual paths in the order they are first met. *)
Fixpoint first_occurrences (seen l : list string) : list string :=
  match l with
  | [] => []
  | k :: l' =>
      if bool_decide (k ∈ seen) then first_occurrences seen l'
      else k :: first_occurrences (seen ++ [k]) l'
  end.

(** The entry [kc] of the output manifest comes from the item [item] of
    the loaded mapping: same key, and the value is what the path stripper
    selects in the source path. *)
Definition stripped (item : string * json) (kc : string * string) : Prop :=
  fst kc = fst item /\
  exists s, snd item = JString s /\
            Re.match_group1 path_stripper s = Some (snd kc).

(** The assignment of the copy loop for the entry [kc]. *)
Definition set_canonical (d : manifest) (kc : string * string) : manifest :=
  Dict.set (fst kc) (JString (snd kc)) d.

(** The text of the manifest file for a mapping given in order. *)
Definition manifest_line (kv : string * string) : string :=
  fst kv +:+ "=" +:+ snd kv +:+ nl.

Definition manifest_text (d : list (string * string)) : string :=
  fold_right String.append ("meta/package=meta.far" +:+ nl)
    (map manifest_line d).

(** A mapping whose values are strings, as a [manifest_dict]. *)
Definition as_manifest (d : list (string * string)) : manifest :=
  map (fun kv => (fst kv, JString (snd kv))) d.

(** The members of the archive at [l], if there is one. *)
Definition archive_at (w : world) (l : loc) : option (list (tar_header * data)) :=
  match files w !! l with
  | Some (File (Archive ms)) => Some ms
  | _ => None
  end.

(** The bytes of the regular file that [p] names. *)
Definition text_at (w : world) (p : string) : option string :=
  match namei w p with
  | Ok l =>
      match files w !! l with
      | Some (File (Bytes s)) => Some s
      | _ => None
      end
  | Raise _ => None
  end.

(** A member of an archive, as a reader sees it: name and content. *)
Definition member_view (m : tar_header * data) : string * data :=
  (member_name (fst m), snd m).

(** The whole run from the command line: [GatherPackageDeps(...).run()]. *)
Definition start (json_loads : decoder) (a : args) : io unit :=
  self ← init (arg_package_json_path a) (arg_meta_far_path a)
           (arg_output_dir a) (arg_depfile a);
  run json_loads self.

End Spec.

(* ===================================================================== *)
(** * The scenario of the specification *)
(* ===================================================================== *)

Module Scenario.

Import FS GatherPackageDeps.

(** The build directory is [/b/out/default]; the manifest and the
    metadata archive are in [gen], the output directory is [pkg]. *)
Definition tree (manifest_text : string) (far app : data) : gmap loc node :=
  list_to_map
    [([], Dir); (["b"], Dir); (["b"; "out"], Dir);
     (["b"; "out"; "default"], Dir);
     (["b"; "out"; "default"; "gen"], Dir);
     (["b"; "out"; "default"; "pkg"], Dir);
     (["b"; "out"; "obj"], Dir);
     (["b"; "out"; "obj"; "app"], File app);
     (["b"; "out"; "default"; "gen"; "package_manifest.json"],
      File (Bytes manifest_text));
     (["b"; "out"; "default"; "gen"; "meta.far"], File far)].

Definition initial (manifest_text : string) (far app : data) : world :=
  World ["b"; "out"; "default"] (tree manifest_text far app) [].

Definition argv : args :=
  Args "gen/package_manifest.json" "gen/meta.far" "pkg" "gen/pkg.d".

(** [{"blobs": [{"path": "bin/app", "source_path": "../../out/obj/app"},
                {"path": "meta/contents", "source_path": "ignored"}]}] *)
Definition manifest_json : json :=
  JObject
    [("blobs",
      JArray
        [JObject [("path", JString "bin/app");
                  ("source_path", JString "../../out/obj/app")];
         JObject [("path", JString "meta/contents");
                  ("source_path", JString "ignored")]])].

Definition tar_loc : loc := ["b"; "out"; "default"; "pkg"; "package.tar"].

(** The same build directory without the metadata archive. *)
Definition initial_without_far (manifest_text : string) (app : data) : world :=
  World ["b"; "out"; "default"]
    (delete ["b"; "out"; "default"; "gen"; "meta.far"]
       (tree manifest_text (Bytes "") app)) [].

(** [{"blobs": [{"path": "meta/contents"}]}]: an entry without a source
    path. *)
Definition meta_without_source_json : json :=
  JObject [("blobs", JArray [JObject [("path", JString "meta/contents")]])].

(** [{}]: no list of blobs. *)
Definition no_blobs_json : json := JObject [].

(** *** A path of more than 100 bytes *)

Fixpoint repeat_x (n : nat) : string :=
  match n with
  | O => EmptyString
  | S n' => String "x" (repeat_x n')
  end.

(** A file name of 100 bytes, and with it a canonical path of 108. *)
Definition long_leaf : string := repeat_x 100.
Definition long_canonical : string := "out/obj/" +:+ long_leaf.
Definition long_source : string := "../../out/obj/" +:+ long_leaf.

Definition long_initial : world :=
  World ["b"; "out"; "default"]
    (<[ ["b"; "out"; "obj"; long_leaf] := File (Bytes "LONG") ]>
       (tree "{}" (Bytes "FAR") (Bytes "APP"))) [].

Definition long_manifest_json : json :=
  JObject
    [("blobs",
      JArray [JObject [("path", JString "bin/long");
                       ("source_path", JString long_source)]])].

(** *** Two source paths with one canonical path *)

(** [out/obj/app] below the build directory is another file than
    [../../out/obj/app]; the path stripper sends both to [out/obj/app]. *)
Definition collision_initial : world :=
  World ["b"; "out"; "default"]
    (<[ ["b"; "out"; "default"; "out"; "obj"; "app"] := File (Bytes "OTHER") ]>
       (<[ ["b"; "out"; "default"; "out"; "obj"] := Dir ]>
          (<[ ["b"; "out"; "default"; "out"] := Dir ]>
             (tree "{}" (Bytes "FAR") (Bytes "APP"))))) [].

Definition collision_manifest_json : json :=
  JObject
    [("blobs",
      JArray [JObject [("path", JString "bin/app");
                       ("source_path", JString "../../out/obj/app")];
              JObject [("path", JString "bin/other");
                       ("source_path", JString "out/obj/app")]])].

(** *** The scenario, stage by stage *)

Definition self0 : t :=
  Self "gen/package_manifest.json" "gen/meta.far" "pkg" "gen/pkg.d".

Definition output_loc : loc := ["b"; "out"; "default"; "pkg"].

Definition start0 : world := initial "{}" (Bytes "FAR") (Bytes "APP").

Definition loaded0 : manifest := [("bin/app", JString "../../out/obj/app")].

Definition collected0 : manifest := [("bin/app", JString "out/obj/app")].

Definition after_collect : world := snd (Spec.collect self0 loaded0 start0).

Definition after_archive : world :=
  snd (archive_output self0 (Spec.tar_path_of self0) after_collect).

Definition after_depfile : world :=
  snd (Spec.write_depfile self0 "../../out/obj/app" after_archive).

End Scenario.

(* ===================================================================== *)
(** * The shape of a source path *)
(* ===================================================================== *)

Module Shape.

Import FS GatherPackageDeps Spec.

(** [k] times [../]. *)
Fixpoint dotdots (k : nat) : string :=
  match k with
  | O => EmptyString
  | S k' => "../" +:+ dotdots k'
  end.

(** The text up to the first newline, which is what [.+] can read. *)
Fixpoint first_line (s : string) : string :=
  match s with
  | EmptyString => EmptyString
  | String c s' =>
      if Ascii.eqb c PyStr.newline then EmptyString else String c (first_line s')
  end.

(** What follows the first line: empty, or from the first newline on. *)
Fixpoint after_line (s : string) : string :=
  match s with
  | EmptyString => EmptyString
  | String c s' => if Ascii.eqb c PyStr.newline then s else after_line s'
  end.

(** [s] begins with a character that [.] reads. *)
Definition starts_line (s : string) : bool :=
  match s with
  | EmptyString => false
  | String c _ => negb (Ascii.eqb c PyStr.newline)
  end.

(** Without a line end. *)
Fixpoint one_line (s : string) : bool :=
  match s with
  | EmptyString => true
  | String c s' => negb (Ascii.eqb c PyStr.newline) && one_line s'
  end.

(** [\/?(.+)], the end of the pattern of the path stripper. *)
Definition stripper_tail : Re.regex :=
  Re.Seq (Re.Opt (Re.Lit "/")) (Re.Group (Re.Plus Re.AnyChar)).

(** What [\/?(.+)] selects at the front of [r]: the first line of [r]
    without one leading slash, or the slash itself when no character that
    [.] reads follows it. *)
Definition tail_group (r : string) : option string :=
  if starts_line r then
    match PyStr.strip_prefix "/" r with
    | Some u => if starts_line u then Some (first_line u) else Some "/"
    | None => Some (first_line r)
    end
  else None.

(** What the path stripper selects in [k] times [../] followed by [r],
    when [r] does not begin with [../]. *)
Definition selected (k : nat) (r : string) : option string :=
  match tail_group r with
  | Some g => Some g
  | None => match k with O => None | S _ => Some "../" end
  end.

(** The exceptions of the file system: [OSError] and its subclasses
    ([shutil.SameFileError] is one). *)
Definition is_OSError (e : exn) : bool :=
  match e with
  | FileNotFoundError | NotADirectoryError | IsADirectoryError
  | FileExistsError | SameFileError => true
  | _ => false
  end.

(** A build directory with a manifest and a metadata archive, and no
    output directory. *)
Definition bare : world :=
  World []
    (list_to_map [([], Dir);
                  (["manifest.json"], File (Bytes "{}"));
                  (["meta.far"], File (Bytes "FAR"))]) [].

Definition bare_self : t := Self "manifest.json" "meta.far" "out" "out.d".

(** [{"blobs": []}] *)
Definition empty_manifest_json : json := JObject [("blobs", JArray [])].

(** The name of the archive member for the file at [rel] below the
    output directory: [./name] at the top, the names joined by slashes
    further down. *)
Definition arcname (rel : list string) : string :=
  match rel with
  | [name] => "./" +:+ name
  | _ => PyStr.join "/" rel
  end.

(** An output directory that is not empty: a file and a directory with a
    file from before, and an archive from before. *)
Definition stale : world :=
  World []
    (list_to_map [([], Dir);
                  (["out"], Dir);
                  (["out"; "old"], Dir);
                  (["out"; "old"; "lib.so"], File (Bytes "OLD"));
                  (["out"; "package.tar"], File (Bytes "PREVIOUS"));
                  (["out"; "readme"], File (Bytes "README"));
                  (["keep"], File (Bytes "KEEP"))]) [].

(** Whatever its outcome, [m] deletes nothing: in a world whose working
    directory satisfies [Q], it keeps the working directory, every
    directory and every regular file, and makes new regular files at
    locations in [T] only. *)
Definition io_grows {A : Type} (Q T : loc -> Prop) (m : io A) : Prop :=
  forall w r w', Q (cwd w) -> m w = (r, w') -> grows T w w'.

(** From [w] to [w']: the working directory is the same, directories
    stay, and so do the regular files that are not below [top]. *)
Definition keeps_outside (top : loc) (w w' : world) : Prop :=
  cwd w' = cwd w /\
  (forall k, files w !! k = Some Dir -> files w' !! k = Some Dir) /\
  (forall k, ~ below top k -> is_file (files w) k -> is_file (files w') k).

(** A build directory before a run: the manifest, the metadata archive
    and an output directory with a file from before; a library in a
    source directory beside the build directory. *)
Definition ready : world :=
  World ["build"]
    (list_to_map [([], Dir);
                  (["build"], Dir);
                  (["build"; "manifest.json"], File (Bytes "{}"));
                  (["build"; "meta.far"], File (Bytes "FAR"));
                  (["src"], Dir);
                  (["src"; "lib.so"], File (Bytes "LIB"));
                  (["build"; "out"], Dir);
                  (["build"; "out"; "readme"], File (Bytes "README"))]) [].

(** [{"blobs": [{"path": "lib/lib.so", "source_path": "../src/lib.so"}]}] *)
Definition ready_manifest_json : json :=
  JObject
    [("blobs",
      JArray [JObject [("path", JString "lib/lib.so");
                       ("source_path", JString "../src/lib.so")]])].

(** What [main] prints. *)
Definition is_print (e : event) : bool :=
  match e with
  | EvPrint _ => true
  | _ => false
  end.

End Shape.

(* ===================================================================== *)
(** * A run and what it is given *)
(* ===================================================================== *)

Module Plan.

Import FS GatherPackageDeps Spec.

(** The names that the script itself uses at the top of the output
    directory. *)
Definition reserved : list string :=
  ["meta.far"; "package.manifest"; "package.tar"].

(** An entry of the loaded mapping, with what the run finds for it: the
    key, the source path, the plain names of the canonical path, and what
    the source file holds. *)
Record copy : Type := Copy {
  c_key : string;
  c_source : string;
  c_path : list string;
  c_data : data
}.

(** The loaded mapping, and the mapping after the copy loop. *)
Definition loaded (plan : list copy) : manifest :=
  map (fun p => (c_key p, JString (c_source p))) plan.

Definition collected (plan : list copy) : list (string * string) :=
  map (fun p => (c_key p, PyStr.join "/" (c_path p))) plan.

(** [a] is the beginning of [b], and not all of it. *)
Definition proper_prefix (a b : list string) : Prop :=
  exists rest, rest <> [] /\ b = a ++ rest.

(** The entry [p] can be copied: the stripper selects the path of plain
    names [c_path p], which does not begin with a name the script uses
    itself, and the source path names a regular file that holds
    [c_data p] and is not below the output directory. *)
Definition copy_ok (w : world) (R : loc) (p : copy) : Prop :=
  Re.match_group1 path_stripper (c_source p) = Some (PyStr.join "/" (c_path p)) /\
  c_path p <> [] /\ Forall clean_comp (c_path p) /\ (hd "" (c_path p) ∉ reserved) /\
  exists l, namei w (c_source p) = Ok l /\
            files w !! l = Some (File (c_data p)) /\ ~ below R l.

(** What the last entry with the canonical path [cs] holds. *)
Fixpoint last_data (plan : list copy) (cs : list string) : option data :=
  match plan with
  | [] => None
  | p :: rest =>
      match last_data rest cs with
      | Some d => Some d
      | None => if decide (c_path p = cs) then Some (c_data p) else None
      end
  end.

(** The world is prepared for the run of [plan]: the output directory is
    there and empty, the metadata archive can be read, every entry can be
    copied, no canonical path is the beginning of another, and the
    depfile can be written outside the output directory. *)
Definition prepared (self : t) (w : world) (R : loc) (plan : list copy)
    (far : data) : Prop :=
  namei w (output_dir self) = Ok R /\ files w !! R = Some Dir /\
  (forall k, below R k -> files w !! k = None) /\
  read_file (meta_far_path self) w = (Ok far, w) /\
  Forall (copy_ok w R) plan /\
  (forall p q, p ∈ plan -> q ∈ plan -> ~ proper_prefix (c_path p) (c_path q)) /\
  exists fl, namei w (depfile self) = Ok fl /\
             files w !! fl <> Some Dir /\ ~ below R fl.

(** The output directory while the entries [done] have been copied: the
    rest of the file system is as it was, [meta.far] holds the metadata,
    the regular files below the output directory are [meta.far] and the
    copies, each with what its last entry holds, and the directories are
    those that lead to a copy. *)
Definition copied (w0 : world) (R : loc) (far : data) (done : list copy)
    (w : world) : Prop :=
  cwd w = cwd w0 /\
  (forall k, ~ below R k -> files w !! k = files w0 !! k) /\
  (forall rel d, rel <> [] ->
     (files w !! (R ++ rel) = Some (File d) <->
      (rel = ["meta.far"] /\ d = far) \/ last_data done rel = Some d)) /\
  (forall rel, rel <> [] ->
     (files w !! (R ++ rel) = Some Dir <->
      exists q, q ∈ done /\ proper_prefix rel (c_path q))).

(** *** The plans of the scenarios *)

Definition scenario_plan : list copy :=
  [Copy "bin/app" "../../out/obj/app" ["out"; "obj"; "app"] (Bytes "APP")].

Definition collision_plan : list copy :=
  [Copy "bin/app" "../../out/obj/app" ["out"; "obj"; "app"] (Bytes "APP");
   Copy "bin/other" "out/obj/app" ["out"; "obj"; "app"] (Bytes "OTHER")].

Definition long_plan : list copy :=
  [Copy "bin/long" Scenario.long_source ["out"; "obj"; Scenario.long_leaf]
     (Bytes "LONG")].

(** A file name of 99 bytes in the parent of the build directory: its
    canonical path is the name itself, and fits the name field. *)
Definition top_leaf : string := Scenario.repeat_x 99.
Definition top_source : string := "../" +:+ top_leaf.

Definition top_initial : world :=
  World ["b"; "out"; "default"]
    (<[ ["b"; "out"; top_leaf] := File (Bytes "TOP") ]>
       (Scenario.tree "{}" (Bytes "FAR") (Bytes "APP"))) [].

Definition top_manifest_json : json :=
  JObject
    [("blobs",
      JArray [JObject [("path", JString "bin/top");
                       ("source_path", JString top_source)]])].

Definition top_plan : list copy :=
  [Copy "bin/top" top_source [top_leaf] (Bytes "TOP")].

End Plan.

(* ===================================================================== *)
(** * What the loader reads of a manifest *)
(* ===================================================================== *)

Module Loading.

Import FS GatherPackageDeps Spec.

(** The exception that the body of the loading loop raises on the entry
    [j], if any: the entry has to be an object with a member ["path"]
    that is a string, and with a member ["source_path"] unless the path
    begins with [meta/]. *)
Definition entry_error (j : json) : option exn :=
  match j with
  | JObject members =>
      match Json.assoc "path" members with
      | None => Some (KeyError "path")
      | Some (JString p) =>
          if PyStr.startswith p "meta/" then None
          else match Json.assoc "source_path" members with
               | None => Some (KeyError "source_path")
               | Some _ => None
               end
      | Some _ => Some AttributeError
      end
  | _ => Some TypeError
  end.

(** The exception of the first entry that has one. *)
Fixpoint first_error (items : list json) : option exn :=
  match items with
  | [] => None
  | j :: rest =>
      match entry_error j with
      | Some e => Some e
      | None => first_error rest
      end
  end.

(** The exception that the loader raises on the decoded manifest
    [data], if any: [data] has to be an object with a member ["blobs"],
    which has to be a list of entries without an exception, or an empty
    object or an empty string, which have nothing to loop over. *)
Definition manifest_error (data : json) : option exn :=
  match data with
  | JObject members =>
      match Json.assoc "blobs" members with
      | None => Some (KeyError "blobs")
      | Some (JArray items) => first_error items
      | Some (JObject []) => None
      | Some (JString EmptyString) => None
      | Some _ => Some TypeError
      end
  | _ => Some TypeError
  end.

(** *** A virtual path that is read twice *)

(** [{"blobs": [{"path": "bin/app", "source_path": "../../out/obj/app"},
                {"path": "bin/app", "source_path": "gen/meta.far"}]}] *)
Definition twice_blobs : list blob :=
  [Blob "bin/app" "../../out/obj/app"; Blob "bin/app" "gen/meta.far"].

Definition twice_manifest_json : json :=
  JObject
    [("blobs",
      JArray
        [JObject [("path", JString "bin/app");
                  ("source_path", JString "../../out/obj/app")];
         JObject [("path", JString "bin/app");
                  ("source_path", JString "gen/meta.far")]])].

(** [{"blobs": [{"path": "bin/app", "source_path": 5}]}]: a source path
    that is not a string. *)
Definition number_source_json : json :=
  JObject
    [("blobs",
      JArray [JObject [("path", JString "bin/app");
                       ("source_path", JNumber "5")]])].

(** [{"blobs": [{"source_path": "../../out/obj/app"}]}]: an entry
    without a path. *)
Definition no_path_json : json :=
  JObject
    [("blobs",
      JArray [JObject [("source_path", JString "../../out/obj/app")]])].

(** [{"blobs": [{"path": "bin/app"}]}]: an entry outside [meta/] without
    a source path. *)
Definition no_source_json : json :=
  JObject [("blobs", JArray [JObject [("path", JString "bin/app")]])].

End Loading.

(* ===================================================================== *)
(** * Properties *)
(* ===================================================================== *)

Import FS GatherPackageDeps Spec.

(** ** The monads *)

Lemma io_bind_unfold {A B : Type} (m : io A) (k : A -> io B) (w : world) :
  (m ≫= k) w =
  match m w with
  | (Ok a, w') => k a w'
  | (Raise e, w') => (Raise e, w')
  end.
Proof. reflexivity. Qed.

Lemma io_bind_ok {A B : Type} (m : io A) (k : A -> io B) w b w' :
  (m ≫= k) w = (Ok b, w') ->
  exists a w1, m w = (Ok a, w1) /\ k a w1 = (Ok b, w').
Proof.
  rewrite io_bind_unfold. destruct (m w) as [[a|e] w1]; [eauto | discriminate].
Qed.

Lemma io_bind_raise {A B : Type} (m : io A) (k : A -> io B) w e w' :
  (m ≫= k) w = (Raise e, w') ->
  m w = (Raise e, w') \/
  exists a w1, m w = (Ok a, w1) /\ k a w1 = (Raise e, w').
Proof.
  rewrite io_bind_unfold. destruct (m w) as [[a|e1] w1]; [eauto | left; congruence].
Qed.

Lemma io_bind_step {A B : Type} (m : io A) (k : A -> io B) w a w1 :
  m w = (Ok a, w1) -> (m ≫= k) w = k a w1.
Proof. intros H. rewrite io_bind_unfold, H. reflexivity. Qed.

Lemma main_start json_loads a w :
  main json_loads a w =
  match start json_loads a w with
  | (Ok _, w') => (0, w')
  | (Raise e, w') => (1, emit (EvPrint e) w')
  end.
Proof. reflexivity. Qed.

(** The decoder matters only at the text of the manifest file. *)
Lemma run_decoder json_loads self w text j :
  read_file (package_json_path self) w = (Ok (Bytes text), w) ->
  json_loads (Bytes text) = Ok j ->
  run json_loads self w = run (fun _ => Ok j) self w.
Proof.
  intros Hread Hj. unfold run, parse_package_json.
  rewrite !io_bind_unfold, Hread. unfold lift at 1 3, json_load.
  rewrite Hj. reflexivity.
Qed.

(** ** The path stripper on the inputs of the comment in the source *)

Example path_stripper_relative :
  Re.match_group1 path_stripper "../../prebuilt/third_party/clang/libc++.so.2"
  = Some "prebuilt/third_party/clang/libc++.so.2".
Proof. reflexivity. Qed.

Example path_stripper_absolute :
  Re.match_group1 path_stripper "/root/to/fuchsia/out/blobs/2ae9"
  = Some "root/to/fuchsia/out/blobs/2ae9".
Proof. reflexivity. Qed.

(** C1.  The claim is that the path the stripper returns never begins
    with [../] nor with [/].  The pattern strips the [../] segments first
    and then one [/]: on [/../foo] it returns [../foo], on [//foo] it
    returns [/foo], and on [../], where nothing is left for the group
    after the segment, the matcher backtracks and returns [../] whole.
    On [../..] it returns [..]. *)
Theorem C1_path_stripper_keeps_parent_or_root :
  Re.match_group1 path_stripper "/../foo" = Some "../foo" /\
  Re.match_group1 path_stripper "//foo" = Some "/foo" /\
  Re.match_group1 path_stripper "../" = Some "../" /\
  Re.match_group1 path_stripper "../.." = Some "..".
Proof. repeat split; reflexivity. Qed.

(** ** The scenario *)

(** C2.  For the manifest with the blobs [bin/app] (source
    [../../out/obj/app]) and [meta/contents], and a metadata archive that
    is present, the run exits with 0; the archive holds exactly the
    output manifest, whose text is the line [bin/app=out/obj/app] followed
    by the line [meta/package=meta.far] (nothing for [meta/contents]),
    the metadata copy [meta.far] and the blob [out/obj/app] (the two files
    at the top of the output directory are stored as [./package.manifest]
    and [./meta.far]); and the depfile holds the line
    [pkg/package.tar: ../../out/obj/app]. *)
Theorem C2_scenario (json_loads : decoder) (text : string)
    (far app : data) :
  json_loads (Bytes text) = Ok Scenario.manifest_json ->
  let r := main json_loads Scenario.argv (Scenario.initial text far app) in
  fst r = 0 /\
  (exists ms,
      archive_at (snd r) Scenario.tar_loc = Some ms /\
      Permutation (map member_view ms)
        [("./package.manifest",
          Bytes ("bin/app=out/obj/app" +:+ nl +:+ "meta/package=meta.far" +:+ nl));
         ("./meta.far", far);
         ("out/obj/app", app)]) /\
  text_at (snd r) "gen/pkg.d"
  = Some ("pkg/package.tar: ../../out/obj/app" +:+ nl).
Proof.
  intros Hj r. subst r. rewrite main_start. unfold start.
  assert (Hinit : init "gen/package_manifest.json" "gen/meta.far" "pkg" "gen/pkg.d"
                    (Scenario.initial text far app)
                  = (Ok (Self "gen/package_manifest.json" "gen/meta.far" "pkg" "gen/pkg.d"),
                     Scenario.initial text far app)) by (vm_compute; reflexivity).
  cbn [Scenario.argv arg_package_json_path arg_meta_far_path arg_output_dir arg_depfile].
  rewrite (io_bind_step _ _ _ _ _ Hinit).
  rewrite (run_decoder json_loads _ _ text Scenario.manifest_json);
    [| vm_compute; reflexivity | exact Hj].
  vm_compute. split; [reflexivity|]. split; [|reflexivity].
  eexists. split; [reflexivity|]. apply Permutation_refl.
Qed.

Lemma C2_scenario_witness :
  let r := main (fun _ => Ok Scenario.manifest_json) Scenario.argv
             (Scenario.initial "{}" (Bytes "FAR") (Bytes "APP")) in
  fst r = 0 /\
  (exists ms,
      archive_at (snd r) Scenario.tar_loc = Some ms /\
      Permutation (map member_view ms)
        [("./package.manifest",
          Bytes ("bin/app=out/obj/app" +:+ nl +:+ "meta/package=meta.far" +:+ nl));
         ("./meta.far", Bytes "FAR");
         ("out/obj/app", Bytes "APP")]) /\
  text_at (snd r) "gen/pkg.d"
  = Some ("pkg/package.tar: ../../out/obj/app" +:+ nl).
Proof.
  apply (C2_scenario (fun _ => Ok Scenario.manifest_json) "{}" (Bytes "FAR") (Bytes "APP")).
  reflexivity.
Defined.

(** ** Lists *)

Lemma elem_of_map {A B : Type} (f : A -> B) (l : list A) (y : B) :
  y ∈ map f l <-> exists x, y = f x /\ x ∈ l.
Proof.
  rewrite list_elem_of_In, in_map_iff. split.
  - intros (x & <- & Hx). exists x. split; [reflexivity|]. apply list_elem_of_In, Hx.
  - intros (x & -> & Hx). exists x. split; [reflexivity|]. apply list_elem_of_In, Hx.
Qed.

Lemma elem_of_map_2 {A B : Type} (f : A -> B) (l : list A) (x : A) :
  x ∈ l -> f x ∈ map f l.
Proof. intros H. apply elem_of_map. eauto. Qed.

(** ** The ordered dict *)

Lemma dict_get_set_eq {V : Type} k (v : V) d :
  Dict.get k (Dict.set k v d) = Some v.
Proof.
  induction d as [|[k' v'] d IH]; simpl.
  - unfold Dict.get. simpl. rewrite String.eqb_refl. reflexivity.
  - destruct (String.eqb_spec k' k) as [->|Hne]; unfold Dict.get; simpl.
    + rewrite String.eqb_refl. reflexivity.
    + apply String.eqb_neq in Hne. rewrite Hne. exact IH.
Qed.

Lemma dict_get_set_ne {V : Type} k k' (v : V) d :
  k <> k' -> Dict.get k' (Dict.set k v d) = Dict.get k' d.
Proof.
  intros Hne. induction d as [|[k1 v1] d IH]; unfold Dict.get; simpl.
  - apply String.eqb_neq in Hne. rewrite Hne. reflexivity.
  - destruct (String.eqb_spec k1 k) as [->|Hne1]; simpl.
    + apply String.eqb_neq in Hne. rewrite Hne. reflexivity.
    + destruct (String.eqb k1 k'); [reflexivity | exact IH].
Qed.

Lemma dict_keys_set_in {V : Type} k (v : V) d :
  k ∈ Dict.keys d -> Dict.keys (Dict.set k v d) = Dict.keys d.
Proof.
  induction d as [|[k' v'] d IH]; simpl; intros Hin.
  - inversion Hin.
  - destruct (String.eqb_spec k' k) as [->|Hne]; simpl; [reflexivity|].
    f_equal. apply IH. apply elem_of_cons in Hin as [->|Hin]; [congruence | exact Hin].
Qed.

Lemma dict_keys_set_notin {V : Type} k (v : V) d :
  k ∉ Dict.keys d -> Dict.keys (Dict.set k v d) = Dict.keys d ++ [k].
Proof.
  induction d as [|[k' v'] d IH]; simpl; intros Hin; [reflexivity|].
  apply not_elem_of_cons in Hin as [Hne Hin].
  destruct (String.eqb_spec k' k) as [->|_]; [congruence|].
  simpl. f_equal. apply IH, Hin.
Qed.

Lemma dict_keys_set_elem {V : Type} k k' (v : V) d :
  k' ∈ Dict.keys (Dict.set k v d) <-> k' = k \/ k' ∈ Dict.keys d.
Proof.
  destruct (decide (k ∈ Dict.keys d)) as [Hin|Hin].
  - rewrite dict_keys_set_in by exact Hin. split; [auto|]. intros [->|H]; auto.
  - rewrite dict_keys_set_notin by exact Hin. rewrite elem_of_app, list_elem_of_singleton.
    tauto.
Qed.

Lemma dict_keys_set_NoDup {V : Type} k (v : V) d :
  NoDup (Dict.keys d) -> NoDup (Dict.keys (Dict.set k v d)).
Proof.
  intros Hnd. destruct (decide (k ∈ Dict.keys d)) as [Hin|Hin].
  - rewrite dict_keys_set_in by exact Hin. exact Hnd.
  - rewrite dict_keys_set_notin by exact Hin. apply NoDup_app. split; [exact Hnd|].
    split; [|apply NoDup_singleton].
    intros x Hx Hx'. apply list_elem_of_singleton in Hx'. subst. contradiction.
Qed.

Lemma dict_get_elem {V : Type} k (v : V) d :
  Dict.get k d = Some v -> (k, v) ∈ d.
Proof.
  induction d as [|[k' v'] d IH]; unfold Dict.get; simpl; [discriminate|].
  destruct (String.eqb_spec k' k) as [->|_].
  - intros [= ->]. apply list_elem_of_here.
  - intros H. apply list_elem_of_further, IH, H.
Qed.

Lemma dict_elem_get {V : Type} k (v : V) d :
  NoDup (Dict.keys d) -> (k, v) ∈ d -> Dict.get k d = Some v.
Proof.
  induction d as [|[k' v'] d IH]; simpl; intros Hnd Hin; [inversion Hin|].
  apply NoDup_cons in Hnd as [Hk' Hnd]. unfold Dict.get. simpl.
  apply elem_of_cons in Hin as [[= -> ->]|Hin].
  - rewrite String.eqb_refl. reflexivity.
  - destruct (String.eqb_spec k' k) as [->|_]; [|apply IH; assumption].
    exfalso. apply Hk'. unfold Dict.keys.
    change k with (fst (k, v)). apply elem_of_map_2, Hin.
Qed.

Lemma dict_get_keys {V : Type} k (d : Dict.dict V) :
  k ∈ Dict.keys d <-> exists v, Dict.get k d = Some v.
Proof.
  induction d as [|[k' v'] d IH]; unfold Dict.get; simpl.
  - split; [intros H; inversion H | intros [v H]; discriminate].
  - rewrite elem_of_cons. destruct (String.eqb_spec k' k) as [->|Hne].
    + split; eauto.
    + rewrite IH. unfold Dict.get. split; [intros [->|H]; [congruence|exact H] | auto].
Qed.

(** ** Loading the manifest *)

Lemma parse_blob_valid d j b :
  is_blob j b -> parse_blob d j = Ok (keep d b).
Proof.
  intros (members & -> & Hp & Hs). unfold parse_blob, keep, is_meta. simpl.
  rewrite Hp. simpl. destruct (PyStr.startswith (virtual_path b) "meta/"); [reflexivity|].
  rewrite Hs. reflexivity.
Qed.

Lemma foldM_valid items blobs d :
  Forall2 is_blob items blobs ->
  foldM parse_blob d items = Ok (fold_left keep blobs d).
Proof.
  intros H. revert d. induction H as [|j b items blobs Hb _ IH]; intros d; simpl.
  - reflexivity.
  - rewrite (parse_blob_valid d j b Hb). simpl. apply IH.
Qed.

Lemma parse_blobs_valid data blobs :
  manifest_of data blobs -> parse_blobs data = Ok (fold_left keep blobs []).
Proof.
  intros (members & items & -> & Hb & Hitems). unfold parse_blobs. simpl.
  rewrite Hb. simpl. apply foldM_valid, Hitems.
Qed.

Lemma keep_keys_elem d b k :
  k ∈ Dict.keys (keep d b) <->
  k ∈ Dict.keys d \/ (is_meta b = false /\ virtual_path b = k).
Proof.
  unfold keep. destruct (is_meta b).
  - split; [auto | intros [H|[H _]]; [exact H | discriminate]].
  - rewrite dict_keys_set_elem. split.
    + intros [->|H]; auto.
    + intros [H|[_ <-]]; auto.
Qed.

Lemma loaded_keys_elem blobs d k :
  k ∈ Dict.keys (fold_left keep blobs d) <->
  k ∈ Dict.keys d \/ exists b, b ∈ blobs /\ is_meta b = false /\ virtual_path b = k.
Proof.
  revert d. induction blobs as [|b0 blobs IH]; intros d; simpl.
  - split; [auto | intros [H|(b & Hb & _)]; [exact H | inversion Hb]].
  - rewrite IH, keep_keys_elem. split.
    + intros [[H|[Hm Hk]]|(b & Hb & Hm & Hk)]; [auto | right | right].
      * exists b0. split; [apply list_elem_of_here | auto].
      * exists b. split; [apply list_elem_of_further, Hb | auto].
    + intros [H|(b & Hb & Hm & Hk)]; [auto|].
      apply elem_of_cons in Hb as [->|Hb]; [auto | right; eauto].
Qed.

Lemma keep_keys_NoDup d b :
  NoDup (Dict.keys d) -> NoDup (Dict.keys (keep d b)).
Proof.
  unfold keep. destruct (is_meta b); [auto | apply dict_keys_set_NoDup].
Qed.

Lemma loaded_keys_NoDup blobs d :
  NoDup (Dict.keys d) -> NoDup (Dict.keys (fold_left keep blobs d)).
Proof.
  revert d. induction blobs as [|b blobs IH]; intros d Hd; simpl; [exact Hd|].
  apply IH, keep_keys_NoDup, Hd.
Qed.

(** An entry that no later kept entry overrides keeps its value. *)
Lemma loaded_get_unshadowed blobs d k :
  existsb (fun b' => negb (is_meta b') && String.eqb (virtual_path b') k) blobs = false ->
  Dict.get k (fold_left keep blobs d) = Dict.get k d.
Proof.
  revert d. induction blobs as [|b blobs IH]; intros d; simpl; [reflexivity|].
  intros H. apply orb_false_iff in H as [Hb Hrest]. rewrite IH by exact Hrest.
  unfold keep. destruct (is_meta b); [reflexivity|]. simpl in Hb.
  apply dict_get_set_ne. apply String.eqb_neq, Hb.
Qed.

Lemma effective_elem blobs b :
  b ∈ effective blobs -> b ∈ blobs /\ is_meta b = false.
Proof.
  induction blobs as [|b0 blobs IH]; simpl; [intros H; inversion H|].
  destruct (is_meta b0) eqn:Hm0.
  - intros H. split; [apply list_elem_of_further|]; apply IH, H.
  - destruct (existsb _ blobs).
    + intros H. split; [apply list_elem_of_further|]; apply IH, H.
    + intros H. apply elem_of_cons in H as [->|H].
      * split; [apply list_elem_of_here | exact Hm0].
      * split; [apply list_elem_of_further|]; apply IH, H.
Qed.

Lemma loaded_get_effective blobs d b :
  b ∈ effective blobs ->
  Dict.get (virtual_path b) (fold_left keep blobs d) = Some (JString (source_path b)).
Proof.
  revert d. induction blobs as [|b0 blobs IH]; intros d; simpl; [intros H; inversion H|].
  destruct (is_meta b0) eqn:Hm0; [apply IH|].
  destruct (existsb _ blobs) eqn:Hex; [apply IH|].
  intros H. apply elem_of_cons in H as [->|H]; [|apply IH, H].
  rewrite loaded_get_unshadowed by exact Hex.
  unfold keep. rewrite Hm0. apply dict_get_set_eq.
Qed.

(** Every kept virtual path has its effective entry. *)
Lemma effective_covers blobs b :
  b ∈ blobs -> is_meta b = false ->
  exists b', b' ∈ effective blobs /\ virtual_path b' = virtual_path b.
Proof.
  revert b. induction blobs as [|b0 blobs IH]; cbn [effective];
    [intros b H; inversion H|].
  intros b Hin Hm.
  assert (Hrest : forall b1, b1 ∈ blobs -> is_meta b1 = false ->
            exists b', b' ∈ effective (b0 :: blobs) /\ virtual_path b' = virtual_path b1).
  { intros b1 Hb Hm1. destruct (IH b1 Hb Hm1) as (b' & Hb' & Hk). exists b'.
    split; [|exact Hk]. cbn [effective]. destruct (is_meta b0); [exact Hb'|].
    destruct (existsb _ blobs); [exact Hb' | apply list_elem_of_further, Hb']. }
  apply elem_of_cons in Hin as [->|Hin]; [|apply Hrest; assumption].
  destruct (existsb (fun b' => negb (is_meta b') && same_path b0 b') blobs) eqn:Hex.
  - pose proof Hex as Hex'. apply existsb_exists in Hex' as (b1 & Hb1 & Hc).
    apply andb_true_iff in Hc as [Hm1 Hk1]. apply negb_true_iff in Hm1.
    apply String.eqb_eq in Hk1. apply list_elem_of_In in Hb1.
    destruct (Hrest b1 Hb1 Hm1) as (b' & Hb' & Hk). exists b'.
    cbn [effective] in Hb'. rewrite Hm, Hex in Hb'. rewrite Hm.
    split; [exact Hb' | congruence].
  - exists b0. split; [|reflexivity]. rewrite Hm. apply list_elem_of_here.
Qed.

Lemma effective_paths_NoDup blobs :
  NoDup (map virtual_path (effective blobs)).
Proof.
  induction blobs as [|b0 blobs IH]; simpl; [apply NoDup_nil; exact I|].
  destruct (is_meta b0) eqn:Hm0; [exact IH|].
  destruct (existsb _ blobs) eqn:Hex; [exact IH|].
  simpl. apply NoDup_cons. split; [|exact IH].
  intros Hin. apply elem_of_map in Hin as (b & Hk & Hb).
  apply effective_elem in Hb as [Hb Hm].
  assert (Ht : existsb (fun b' => negb (is_meta b') && same_path b0 b') blobs = true).
  { apply existsb_exists. exists b. split; [apply list_elem_of_In, Hb|].
    rewrite Hm. simpl. unfold same_path. apply String.eqb_eq. congruence. }
  congruence.
Qed.

(** With one entry per virtual path, the effective entries are those
    outside the metadata namespace. *)
Lemma effective_distinct blobs :
  NoDup (map virtual_path blobs) ->
  effective blobs = filter (fun b => is_meta b = false) blobs.
Proof.
  induction blobs as [|b0 blobs IH]; simpl; [reflexivity|].
  intros Hnd. apply NoDup_cons in Hnd as [Hb0 Hnd]. rewrite filter_cons.
  destruct (is_meta b0) eqn:Hm0.
  - rewrite decide_False by discriminate. apply IH, Hnd.
  - rewrite decide_True by reflexivity.
    destruct (existsb _ blobs) eqn:Hex.
    + exfalso. apply existsb_exists in Hex as (b1 & Hb1 & Hc).
      apply andb_true_iff in Hc as [_ Hk1]. apply String.eqb_eq in Hk1.
      apply Hb0. rewrite <- Hk1. apply elem_of_map_2, list_elem_of_In, Hb1.
    + f_equal. apply IH, Hnd.
Qed.

(** The loaded mapping holds the effective entries, in some order. *)
Lemma loaded_items_effective blobs :
  Permutation (fold_left keep blobs [])
    (map (fun b => (virtual_path b, JString (source_path b))) (effective blobs)).
Proof.
  set (pair_of := fun b => (virtual_path b, JString (source_path b))).
  assert (Hnd : NoDup (Dict.keys (fold_left keep blobs []))).
  { apply loaded_keys_NoDup. apply NoDup_nil. exact I. }
  apply NoDup_Permutation.
  - clear -Hnd. revert Hnd. generalize (fold_left keep blobs []). intros d.
    induction d as [|[k v] d IH]; simpl; intros Hnd; [apply NoDup_nil; exact I|].
    apply NoDup_cons in Hnd as [Hk Hnd]. apply NoDup_cons. split; [|apply IH, Hnd].
    intros Hin. apply Hk. change k with (fst (k, v)). apply elem_of_map_2, Hin.
  - pose proof (effective_paths_NoDup blobs) as Hr. revert Hr.
    generalize (effective blobs). intros l. induction l as [|b l IH]; simpl; intros Hl;
      [apply NoDup_nil; exact I|].
    apply NoDup_cons in Hl as [Hb Hl]. apply NoDup_cons. split; [|apply IH, Hl].
    intros Hin. apply Hb. apply elem_of_map in Hin as (b' & Heq & Hb').
    unfold pair_of in Heq. injection Heq as Hk _. rewrite Hk. apply elem_of_map_2, Hb'.
  - intros [k v]. split.
    + intros Hin.
      assert (Hk : k ∈ Dict.keys (fold_left keep blobs [])).
      { change k with (fst (k, v)). apply elem_of_map_2, Hin. }
      apply loaded_keys_elem in Hk as [Hk|(b & Hb & Hm & Hbk)]; [inversion Hk|].
      destruct (effective_covers blobs b Hb Hm) as (b' & Hb' & Hk').
      pose proof (loaded_get_effective blobs [] b' Hb') as Hget.
      pose proof (dict_elem_get k v _ Hnd Hin) as Hget'.
      apply elem_of_map. exists b'. split; [|exact Hb'].
      unfold pair_of. rewrite Hk', Hbk in *. congruence.
    + intros Hin. apply elem_of_map in Hin as (b & Heq & Hb).
      unfold pair_of in Heq. injection Heq as -> ->.
      apply dict_get_elem, loaded_get_effective, Hb.
Qed.

(** ** The events of the operations *)

Lemma log_ext_refl P w : log_ext P w w.
Proof. exists []. split; [reflexivity | constructor]. Qed.

Lemma log_ext_trans P w1 w2 w3 :
  log_ext P w1 w2 -> log_ext P w2 w3 -> log_ext P w1 w3.
Proof.
  intros (n1 & H1 & F1) (n2 & H2 & F2). exists (n2 ++ n1). split.
  - rewrite H2, H1, app_assoc. reflexivity.
  - apply Forall_app. split; assumption.
Qed.

Lemma log_ext_emit P e w : P e -> log_ext P w (emit e w).
Proof. intros H. exists [e]. split; [reflexivity | repeat constructor; exact H]. Qed.

Lemma log_ext_set_files P f w : log_ext P w (set_files f w).
Proof. exists []. split; [reflexivity | constructor]. Qed.

Lemma io_ext_ret {A : Type} P (a : A) : io_ext P (mret a).
Proof. intros w r w' [= <- <-]. apply log_ext_refl. Qed.

Lemma io_ext_lift {A : Type} P (r : result A) : io_ext P (lift r).
Proof. intros w r' w' [= <- <-]. apply log_ext_refl. Qed.

Lemma io_ext_bind {A B : Type} P (m : io A) (k : A -> io B) :
  io_ext P m -> (forall a, io_ext P (k a)) -> io_ext P (m ≫= k).
Proof.
  intros Hm Hk w r w'. rewrite io_bind_unfold.
  destruct (m w) as [[a|e] w1] eqn:E.
  - intros H. eapply log_ext_trans; [eapply Hm, E | eapply Hk, H].
  - intros [= <- <-]. eapply Hm, E.
Qed.

Lemma io_ext_for_each {A : Type} P (l : list A) (body : A -> io unit) :
  (forall a, io_ext P (body a)) -> io_ext P (for_each l body).
Proof.
  intros Hb. induction l as [|a l IH]; simpl.
  - apply io_ext_ret.
  - apply io_ext_bind; [apply Hb | intros _; exact IH].
Qed.

Lemma io_ext_log_event P e : P e -> io_ext P (log_event e).
Proof. intros H w r w' [= <- <-]. apply log_ext_emit, H. Qed.

Lemma io_ext_read_file P p : io_ext P (read_file p).
Proof.
  intros w r w'. unfold read_file.
  destruct (namei w p) as [l|e]; [|intros [= <- <-]; apply log_ext_refl].
  destruct (files w !! l) as [[d|]|]; intros [= <- <-]; apply log_ext_refl.
Qed.

Lemma io_ext_create P p d : io_ext P (create p d).
Proof.
  intros w r w'. unfold create.
  destruct (namei w p) as [l|e]; [|intros [= <- <-]; apply log_ext_refl].
  destruct (files w !! l) as [[d'|]|]; intros [= <- <-];
    first [apply log_ext_refl | apply log_ext_set_files].
Qed.

Lemma io_ext_open_write P p : P (EvOpenWrite p) -> io_ext P (open_write p).
Proof.
  intros H. unfold open_write. apply io_ext_bind; [apply io_ext_create|].
  intros h. apply io_ext_bind; [apply io_ext_log_event, H|]. intros _. apply io_ext_ret.
Qed.

Lemma io_ext_fwrite P h text : io_ext P (fwrite h text).
Proof. intros w r w' [= <- <-]. apply log_ext_set_files. Qed.

Lemma io_ext_copyfile P src dst : P (EvCopyfile src dst) -> io_ext P (copyfile src dst).
Proof.
  intros H w r w'. unfold copyfile. destruct (samefile w src dst).
  - intros [= <- <-]. apply log_ext_refl.
  - revert w r w'. apply io_ext_bind; [apply io_ext_read_file|]. intros d.
    apply io_ext_bind; [apply io_ext_create|]. intros _. apply io_ext_log_event, H.
Qed.

Lemma io_ext_mkdir_p P cur comps :
  (forall l, P (EvMkdir l)) -> io_ext P (mkdir_p cur comps).
Proof.
  intros H. revert cur. induction comps as [|c cs IH]; intros cur; simpl.
  - apply io_ext_ret.
  - destruct (String.eqb c "" || String.eqb c "."); [apply IH|].
    destruct (String.eqb c ".."); [apply IH|].
    intros w r w'. destruct (files w !! (cur ++ [c])) as [[d|]|].
    + intros [= <- <-]. apply log_ext_refl.
    + apply IH.
    + intros Hm. eapply log_ext_trans; [|eapply IH, Hm].
      eapply log_ext_trans; [apply log_ext_set_files | apply log_ext_emit, H].
Qed.

Lemma io_ext_makedirs P p : (forall l, P (EvMkdir l)) -> io_ext P (makedirs p).
Proof.
  intros H w r w'. unfold makedirs. destruct (String.eqb p "").
  - intros [= <- <-]. apply log_ext_refl.
  - apply io_ext_mkdir_p, H.
Qed.

Lemma io_ext_remove P l : P (EvRemove l) -> io_ext P (remove l).
Proof.
  intros H w r w'. unfold remove. destruct (files w !! l) as [[d|]|]; intros [= <- <-].
  - eapply log_ext_trans; [apply log_ext_set_files | apply log_ext_emit, H].
  - apply log_ext_refl.
  - apply log_ext_refl.
Qed.

Lemma io_ext_tar_open P p : P (EvTarOpen p) -> io_ext P (tar_open p).
Proof.
  intros H. unfold tar_open. apply io_ext_bind; [apply io_ext_create|].
  intros h. apply io_ext_bind; [apply io_ext_log_event, H|]. intros _. apply io_ext_ret.
Qed.

Lemma io_ext_tar_add P tar l arcname :
  P (EvTarAdd l arcname) -> io_ext P (tar_add tar l arcname).
Proof.
  intros H w r w'. unfold tar_add. destruct (files w !! l) as [[d|]|]; intros [= <- <-].
  - eapply log_ext_trans; [apply log_ext_set_files | apply log_ext_emit, H].
  - apply log_ext_refl.
  - apply log_ext_refl.
Qed.

(** ** The stages of a run *)

Lemma load_collect_run json_loads self w :
  run json_loads self w =
  (td ← stages json_loads self; write_depfile self (snd (fst td))) w.
Proof.
  unfold run, stages, load, collect, write_depfile, tar_path_of.
  unfold mbind, io_bind, mret, io_ret, lift.
  destruct (parse_package_json json_loads self w) as [[d0|e] w1]; [|reflexivity].
  destruct (Json.str_join " " (Dict.values d0)) as [deps|e]; [|reflexivity].
  cbn [fst snd].
  destruct (copy_meta_far self w1) as [[[]|e] w2]; [|reflexivity].
  destruct (copy_to_output_dir self d0 w2) as [[d1|e] w3]; [|reflexivity].
  destruct (write_new_manifest self d1 w3) as [[[]|e] w4]; [|reflexivity].
  destruct (archive_output self _ w4) as [[[]|e] w5]; reflexivity.
Qed.

(** Reading and decoding leave the world as it is. *)
Lemma parse_package_json_world json_loads self w r w' :
  parse_package_json json_loads self w = (r, w') -> w' = w.
Proof.
  unfold parse_package_json, read_file. rewrite !io_bind_unfold.
  destruct (namei w (package_json_path self)) as [l|e]; [|congruence].
  destruct (files w !! l) as [[d|]|]; [|congruence|congruence].
  unfold lift. rewrite !io_bind_unfold.
  destruct (json_load json_loads d); congruence.
Qed.

Lemma load_world json_loads self w r w' :
  load json_loads self w = (r, w') -> w' = w.
Proof.
  unfold load. rewrite io_bind_unfold.
  destruct (parse_package_json json_loads self w) as [[d0|e] w1] eqn:E;
    apply parse_package_json_world in E; subst w1; [|congruence].
  unfold lift. rewrite io_bind_unfold.
  destruct (Json.str_join " " (Dict.values d0)); unfold mret, io_ret; congruence.
Qed.

Lemma init_world pj mf od df w r w' :
  init pj mf od df w = (r, w') -> w' = w.
Proof.
  unfold init.
  repeat match goal with |- context [if ?b then _ else _] => destruct b end;
    congruence.
Qed.

Lemma start_init json_loads a w self :
  init (arg_package_json_path a) (arg_meta_far_path a) (arg_output_dir a)
    (arg_depfile a) w = (Ok self, w) ->
  start json_loads a w = run json_loads self w.
Proof. intros H. unfold start. apply io_bind_step, H. Qed.

Lemma init_ok pj mf od df w self w' :
  init pj mf od df w = (Ok self, w') ->
  self = Self pj mf od df /\ w' = w /\
  pj <> "" /\ path_exists w pj = true /\ mf <> "" /\ path_exists w mf = true /\
  od <> "" /\ df <> "".
Proof.
  unfold init.
  destruct (String.eqb_spec pj "") as [->|Hpj]; simpl; [discriminate|].
  destruct (path_exists w pj); [|discriminate].
  destruct (String.eqb_spec mf "") as [->|Hmf]; simpl; [discriminate|].
  destruct (path_exists w mf); [|discriminate].
  destruct (String.eqb_spec od "") as [->|Hod]; simpl; [discriminate|].
  destruct (String.eqb_spec df "") as [->|Hdf]; simpl; [discriminate|].
  intros [= <- <-]. repeat split; assumption.
Qed.

Lemma run_load_raise json_loads self w e w' :
  load json_loads self w = (Raise e, w') ->
  run json_loads self w = (Raise e, w).
Proof.
  intros H. pose proof (load_world _ _ _ _ _ H) as ->.
  rewrite load_collect_run. unfold stages. rewrite !io_bind_unfold, H. reflexivity.
Qed.

(** The exceptions of the loader. *)
Lemma parse_blob_raise d file e :
  parse_blob d file = Raise e ->
  e = TypeError \/ e = AttributeError \/ exists k, e = KeyError k.
Proof.
  unfold parse_blob, Json.getitem. destruct file; simpl; try (intros [= <-]; auto).
  destruct (Json.assoc "path" members) as [path|]; simpl; [|intros [= <-]; eauto].
  destruct path; simpl; try (intros [= <-]; auto).
  destruct (PyStr.startswith s "meta/"); [discriminate|].
  destruct (Json.assoc "source_path" members); simpl; [discriminate|].
  intros [= <-]. eauto.
Qed.

Lemma foldM_parse_blob_raise items d e :
  foldM parse_blob d items = Raise e ->
  e = TypeError \/ e = AttributeError \/ exists k, e = KeyError k.
Proof.
  revert d. induction items as [|file items IH]; intros d; simpl; [discriminate|].
  destruct (parse_blob d file) as [d'|e'] eqn:E; simpl.
  - apply IH.
  - intros [= <-]. eapply parse_blob_raise, E.
Qed.

Lemma parse_blobs_raise data e :
  parse_blobs data = Raise e ->
  e = TypeError \/ e = AttributeError \/ exists k, e = KeyError k.
Proof.
  unfold parse_blobs, Json.getitem. destruct data; simpl; try (intros [= <-]; auto).
  destruct (Json.assoc "blobs" members) as [blobs|]; simpl; [|intros [= <-]; eauto].
  destruct (Json.iter blobs) as [files|e'] eqn:E; simpl.
  - apply foldM_parse_blob_raise.
  - intros [= <-]. destruct blobs; simpl in E; try discriminate; injection E as <-; auto.
Qed.

Lemma str_join_raise sep l e : Json.str_join sep l = Raise e -> e = TypeError.
Proof.
  induction l as [|x l IH]; [discriminate|].
  destruct l as [|y l].
  - destruct x; simpl; congruence.
  - change (Json.str_join sep (x :: y :: l))
      with (s ← Json.as_str x; r ← Json.str_join sep (y :: l); Ok (s +:+ sep +:+ r)).
    destruct x; try (intros [= <-]; reflexivity).
    cbn [Json.as_str mbind result_bind].
    destruct (Json.str_join sep (y :: l)); [discriminate|].
    intros [= <-]. apply IH. reflexivity.
Qed.

(** ** The events of the stages *)

Section StageEvents.

Variable self : t.

(** The stages before the depfile write no text file but the manifest. *)
Let P : event -> Prop := writes_text_only_at (manifest_path_of self).

Lemma io_ext_load json_loads : io_ext P (load json_loads self).
Proof. intros w r w' H. apply load_world in H as ->. apply log_ext_refl. Qed.

Lemma io_ext_copy_entry d item : io_ext P (copy_entry self d item).
Proof.
  unfold copy_entry. cbv zeta.
  apply io_ext_bind; [apply io_ext_lift|]. intros s.
  apply io_ext_bind; [apply io_ext_lift|]. intros g.
  apply io_ext_bind; [apply io_ext_makedirs; intros l; exact I|]. intros _.
  apply io_ext_bind; [apply io_ext_copyfile; exact I|]. intros _.
  apply io_ext_ret.
Qed.

Lemma io_ext_copy_loop items d : io_ext P (copy_loop self items d).
Proof.
  revert d. induction items as [|item items IH]; intros d; simpl.
  - apply io_ext_ret.
  - apply io_ext_bind; [apply io_ext_copy_entry | intros d'; apply IH].
Qed.

Lemma io_ext_write_new_manifest d : io_ext P (write_new_manifest self d).
Proof.
  unfold write_new_manifest.
  apply io_ext_bind; [apply io_ext_open_write; reflexivity|]. intros f.
  apply io_ext_bind; [|intros _; apply io_ext_fwrite].
  apply io_ext_for_each. intros item.
  apply io_ext_bind; [apply io_ext_lift | intros s; apply io_ext_fwrite].
Qed.

Lemma io_ext_collect d : io_ext P (collect self d).
Proof.
  unfold collect.
  apply io_ext_bind; [apply io_ext_copyfile; exact I|]. intros _.
  apply io_ext_bind; [apply io_ext_copy_loop|]. intros d'.
  apply io_ext_bind; [apply io_ext_write_new_manifest | intros _; apply io_ext_ret].
Qed.

Lemma io_ext_archive_entry tar_path tar e : io_ext P (archive_entry self tar_path tar e).
Proof.
  unfold archive_entry. cbv zeta. destruct (String.eqb _ tar_path).
  - apply io_ext_ret.
  - apply io_ext_bind; [apply io_ext_tar_add; exact I|]. intros _.
    apply io_ext_remove. exact I.
Qed.

Lemma io_ext_archive_output tar_path : io_ext P (archive_output self tar_path).
Proof.
  unfold archive_output.
  apply io_ext_bind; [apply io_ext_tar_open; exact I|]. intros tar.
  apply io_ext_bind.
  - intros w r w' [= <- <-]. apply log_ext_refl.
  - intros entries. apply io_ext_for_each. intros e. apply io_ext_archive_entry.
Qed.

Lemma io_ext_stages json_loads : io_ext P (stages json_loads self).
Proof.
  unfold stages.
  apply io_ext_bind; [apply io_ext_load|]. intros ld.
  apply io_ext_bind; [apply io_ext_collect|]. intros d1.
  apply io_ext_bind; [apply io_ext_archive_output | intros _; apply io_ext_ret].
Qed.

(** A run that fails has not opened the depfile. *)
Lemma run_raise_log json_loads w e w' :
  run json_loads self w = (Raise e, w') -> log_ext P w w'.
Proof.
  rewrite load_collect_run. intros H.
  apply io_bind_raise in H as [H|(td & w1 & H & Hd)].
  - eapply io_ext_stages, H.
  - unfold write_depfile in Hd.
    apply io_bind_raise in Hd as [Hd|(f & w2 & _ & Hd)]; [|discriminate].
    assert (w' = w1) as ->.
    { unfold open_write in Hd.
      apply io_bind_raise in Hd as [Hd|(h & w2 & _ & Hd)]; [|discriminate].
      unfold create in Hd. destruct (namei w1 (depfile self)) as [l|e1]; [|congruence].
      destruct (files w1 !! l) as [[d|]|]; congruence. }
    eapply io_ext_stages, H.
Qed.

(** A run that succeeds has opened the depfile last. *)
Lemma run_ok_log json_loads w w' :
  run json_loads self w = (Ok tt, w') ->
  exists older, log w' = EvOpenWrite (depfile self) :: older.
Proof.
  rewrite load_collect_run. intros H.
  apply io_bind_ok in H as (td & w1 & _ & Hd). unfold write_depfile in Hd.
  apply io_bind_ok in Hd as (f & w2 & Ho & Hw). unfold open_write in Ho.
  apply io_bind_ok in Ho as (h & w3 & _ & Ho).
  apply io_bind_ok in Ho as ([] & w4 & Hl & Hr).
  injection Hl as <-. injection Hr as <- <-. injection Hw as <-.
  eexists. reflexivity.
Qed.

End StageEvents.

(** ** Exit status *)

(** C9.  The exit status is 0 when the run succeeds and 1 when any stage
    raises.  When the run succeeds, opening the depfile is the last thing
    it did.  When it fails, the only text file it can have opened for
    writing is [package.manifest] in the output directory: the depfile
    has not been written. *)
Theorem C9_exit_status_and_depfile (json_loads : decoder)
    (a : args) (w : world) :
  (fst (main json_loads a w) = 0 \/ fst (main json_loads a w) = 1) /\
  (forall w', start json_loads a w = (Ok tt, w') ->
      main json_loads a w = (0, w') /\
      exists older, log w' = EvOpenWrite (arg_depfile a) :: older) /\
  (forall e w', start json_loads a w = (Raise e, w') ->
      main json_loads a w = (1, emit (EvPrint e) w') /\
      exists new,
        log w' = new ++ log w /\
        forall p, EvOpenWrite p ∈ new ->
                  p = PosixPath.join (arg_output_dir a) "package.manifest").
Proof.
  split; [|split].
  - rewrite main_start. destruct (start json_loads a w) as [[u|e] w']; auto.
  - intros w' H. rewrite main_start, H. split; [reflexivity|].
    unfold start in H. apply io_bind_ok in H as (self & w1 & Hi & Hr).
    apply init_ok in Hi as (-> & -> & _). apply run_ok_log in Hr. exact Hr.
  - intros e w' H. rewrite main_start, H. split; [reflexivity|].
    unfold start in H. apply io_bind_raise in H as [H|(self & w1 & Hi & Hr)].
    + apply init_world in H as ->. exists []. split; [reflexivity|].
      intros p Hp. inversion Hp.
    + apply init_ok in Hi as (-> & -> & _). apply run_raise_log in Hr.
      destruct Hr as (new & Hlog & Hall). exists new. split; [exact Hlog|].
      intros p Hp. rewrite Forall_forall in Hall. apply (Hall _ Hp).
Qed.

Lemma C9_exit_status_and_depfile_witness :
  fst (main (fun _ => Ok Scenario.manifest_json) Scenario.argv
         (Scenario.initial "{}" (Bytes "FAR") (Bytes "APP"))) = 0 /\
  fst (main (fun _ => Ok Scenario.manifest_json) Scenario.argv
         (Scenario.initial_without_far "{}" (Bytes "APP"))) = 1.
Proof.
  split.
  - pose proof (C9_exit_status_and_depfile (fun _ => Ok Scenario.manifest_json)
                  Scenario.argv (Scenario.initial "{}" (Bytes "FAR") (Bytes "APP")))
      as (_ & H & _).
    destruct (start (fun _ => Ok Scenario.manifest_json) Scenario.argv
                (Scenario.initial "{}" (Bytes "FAR") (Bytes "APP")))
      as [[[]|e] w'] eqn:E.
    + destruct (H w' eq_refl) as [-> _]. reflexivity.
    + vm_compute in E. discriminate.
  - pose proof (C9_exit_status_and_depfile (fun _ => Ok Scenario.manifest_json)
                  Scenario.argv (Scenario.initial_without_far "{}" (Bytes "APP")))
      as (_ & _ & H).
    destruct (start (fun _ => Ok Scenario.manifest_json) Scenario.argv
                (Scenario.initial_without_far "{}" (Bytes "APP")))
      as [[[]|e] w'] eqn:E.
    + vm_compute in E. discriminate.
    + destruct (H e w' eq_refl) as [-> _]. reflexivity.
Defined.

(** ** Strings *)

Lemma append_nil_r s : s +:+ "" = s.
Proof.
  induction s as [|a s IH]; [reflexivity|].
  change (String a (s +:+ "") = String a s). f_equal. exact IH.
Qed.

Lemma append_assoc s1 s2 s3 : (s1 +:+ s2) +:+ s3 = s1 +:+ (s2 +:+ s3).
Proof.
  induction s1 as [|a s1 IH]; [reflexivity|].
  change (String a ((s1 +:+ s2) +:+ s3) = String a (s1 +:+ (s2 +:+ s3))).
  f_equal. exact IH.
Qed.

(** ** Path resolution *)

Lemma fold_step_raise fs comps e :
  fold_left (step fs) comps (Raise e) = Raise e.
Proof. induction comps as [|c comps IH]; simpl; [reflexivity | exact IH]. Qed.

Lemma step_mono fs fs' r c l :
  dirs_le fs fs' -> step fs r c = Ok l -> step fs' r c = Ok l.
Proof.
  intros Hle. destruct r as [l0|e]; simpl; [|discriminate].
  destruct (fs !! l0) as [[d|]|] eqn:E; simpl; try discriminate.
  rewrite (Hle _ E). auto.
Qed.

Lemma step_ok_inv fs r c l :
  step fs r c = Ok l -> exists l0, r = Ok l0 /\ fs !! l0 = Some Dir.
Proof.
  destruct r as [l0|e]; simpl; [|discriminate].
  destruct (fs !! l0) as [[d|]|] eqn:E; simpl; try discriminate. eauto.
Qed.

Lemma fold_step_mono fs fs' comps r l :
  dirs_le fs fs' ->
  fold_left (step fs) comps r = Ok l -> fold_left (step fs') comps r = Ok l.
Proof.
  intros Hle. revert r. induction comps as [|c comps IH]; intros r; simpl; [auto|].
  intros H. destruct (step fs r c) as [l1|e] eqn:E.
  - rewrite (step_mono _ _ _ _ _ Hle E). apply IH, H.
  - rewrite fold_step_raise in H. discriminate.
Qed.

Lemma namei_mono w w' p l :
  cwd w' = cwd w -> dirs_le (files w) (files w') ->
  namei w p = Ok l -> namei w' p = Ok l.
Proof.
  intros Hc Hle. unfold namei, start_of. rewrite Hc.
  destruct (String.eqb p ""); [discriminate|]. apply fold_step_mono, Hle.
Qed.

Lemma dirs_le_refl fs : dirs_le fs fs.
Proof. intros l H. exact H. Qed.

Lemma dirs_le_trans fs1 fs2 fs3 :
  dirs_le fs1 fs2 -> dirs_le fs2 fs3 -> dirs_le fs1 fs3.
Proof. intros H1 H2 l H. apply H2, H1, H. Qed.

Lemma dirs_le_insert_file fs l d :
  fs !! l <> Some Dir -> dirs_le fs (<[l := File d]> fs).
Proof.
  intros Hl k Hk. destruct (decide (l = k)) as [->|Hne]; [contradiction|].
  rewrite lookup_insert_ne by exact Hne. exact Hk.
Qed.

Lemma dirs_le_insert_dir fs l : dirs_le fs (<[l := Dir]> fs).
Proof.
  intros k Hk. destruct (decide (l = k)) as [->|Hne].
  - apply lookup_insert_eq.
  - rewrite lookup_insert_ne by exact Hne. exact Hk.
Qed.

Lemma dirs_le_delete_file fs l d :
  fs !! l = Some (File d) -> dirs_le fs (delete l fs).
Proof.
  intros Hl k Hk. destruct (decide (l = k)) as [->|Hne]; [congruence|].
  rewrite lookup_delete_ne by exact Hne. exact Hk.
Qed.

(** ** Writing files *)

Lemma alter_lookup_insert (fs : gmap loc node) g l n :
  fs !! l = Some n -> alter g l fs = <[l := g n]> fs.
Proof.
  intros H. apply map_eq. intros k. destruct (decide (l = k)) as [->|Hne].
  - rewrite lookup_alter_eq, lookup_insert_eq, H. reflexivity.
  - rewrite lookup_alter_ne, lookup_insert_ne by exact Hne. reflexivity.
Qed.

Lemma create_ok p d w l w' :
  create p d w = (Ok l, w') ->
  namei w p = Ok l /\ files w !! l <> Some Dir /\
  w' = set_files (insert l (File d)) w.
Proof.
  unfold create. destruct (namei w p) as [l0|e]; [|discriminate].
  destruct (files w !! l0) as [[d0|]|] eqn:E; [|discriminate|];
    intros [= <- <-]; repeat split; congruence.
Qed.

Lemma create_raise p d w e w' : create p d w = (Raise e, w') -> w' = w.
Proof.
  unfold create. destruct (namei w p) as [l0|e0]; [|congruence].
  destruct (files w !! l0) as [[d0|]|]; congruence.
Qed.

Lemma open_write_ok p w l w' :
  open_write p w = (Ok l, w') ->
  namei w p = Ok l /\ files w !! l <> Some Dir /\
  w' = emit (EvOpenWrite p) (set_files (insert l (File (Bytes ""))) w).
Proof.
  unfold open_write. intros H. apply io_bind_ok in H as (h & w1 & Hc & H).
  apply io_bind_ok in H as ([] & w2 & Hl & Hr).
  injection Hl as <-. injection Hr as <- <-.
  apply create_ok in Hc as (Hn & Hd & ->). auto.
Qed.

Lemma open_write_raise p w e w' : open_write p w = (Raise e, w') -> w' = w.
Proof.
  unfold open_write. intros H. apply io_bind_raise in H as [H|(h & w1 & _ & H)].
  - eapply create_raise, H.
  - apply io_bind_raise in H as [H|(u & w2 & _ & H)]; discriminate.
Qed.

Lemma fwrite_bytes f text w s0 :
  files w !! f = Some (File (Bytes s0)) ->
  fwrite f text w = (Ok tt, set_files (insert f (File (Bytes (s0 +:+ text)))) w).
Proof.
  intros H. unfold fwrite, set_files. rewrite (alter_lookup_insert _ _ _ _ H).
  reflexivity.
Qed.

Lemma set_files_insert_twice l n1 n2 w :
  set_files (insert l n2) (set_files (insert l n1) w) = set_files (insert l n2) w.
Proof. unfold set_files. simpl. rewrite insert_insert_eq. reflexivity. Qed.

(** The lines of the manifest loop, appended to what the file holds. *)
Lemma write_lines f (d : list (string * string)) w s0 :
  files w !! f = Some (File (Bytes s0)) ->
  for_each (Dict.items (as_manifest d))
    (fun item =>
       source_path ← lift (Json.as_str (snd item));
       fwrite f (fst item +:+ "=" +:+ source_path +:+ nl)) w
  = (Ok tt,
     set_files
       (insert f (File (Bytes (s0 +:+ fold_right String.append "" (map manifest_line d)))))
       w).
Proof.
  revert w s0. induction d as [|[k c] d IH]; intros w s0 H; simpl.
  - rewrite append_nil_r. unfold set_files. rewrite insert_id by exact H.
    destruct w; reflexivity.
  - rewrite io_bind_unfold. unfold lift at 1. rewrite io_bind_unfold. cbn [Json.as_str].
    rewrite (fwrite_bytes _ _ _ _ H).
    rewrite (IH _ (s0 +:+ (k +:+ "=" +:+ c +:+ nl))).
    + rewrite set_files_insert_twice. unfold manifest_line at 2. simpl.
      rewrite append_assoc. reflexivity.
    + unfold set_files. simpl. apply lookup_insert_eq.
Qed.

Lemma text_at_written w w' p l t :
  namei w p = Ok l -> files w !! l <> Some Dir ->
  cwd w' = cwd w -> files w' = <[l := File (Bytes t)]> (files w) ->
  text_at w' p = Some t.
Proof.
  intros Hn Hd Hc Hf. unfold text_at.
  rewrite (namei_mono w w' p l Hc); [|rewrite Hf; apply dirs_le_insert_file, Hd|exact Hn].
  rewrite Hf, lookup_insert_eq. reflexivity.
Qed.

Lemma write_new_manifest_run self (d : list (string * string)) w f w1 :
  open_write (manifest_path_of self) w = (Ok f, w1) ->
  write_new_manifest self (as_manifest d) w
  = (Ok tt, set_files (insert f (File (Bytes (manifest_text d)))) w1).
Proof.
  intros Ho. unfold write_new_manifest. fold (manifest_path_of self).
  rewrite (io_bind_step _ _ _ _ _ Ho).
  pose proof (open_write_ok _ _ _ _ Ho) as (_ & _ & Hw1).
  assert (Hf : files w1 !! f = Some (File (Bytes ""))).
  { rewrite Hw1. simpl. apply lookup_insert_eq. }
  rewrite io_bind_unfold, (write_lines f d w1 "" Hf).
  erewrite fwrite_bytes by (simpl; apply lookup_insert_eq).
  rewrite set_files_insert_twice. unfold manifest_text.
  replace ("" +:+ fold_right String.append "" (map manifest_line d))
    with (fold_right String.append "" (map manifest_line d)) by reflexivity.
  f_equal. f_equal. f_equal. f_equal. f_equal.
  generalize (map manifest_line d). intros ls.
  induction ls as [|x ls IH]; [reflexivity|]. simpl. rewrite append_assoc, IH. reflexivity.
Qed.

Lemma write_new_manifest_raise self (d : list (string * string)) w e w' :
  write_new_manifest self (as_manifest d) w = (Raise e, w') ->
  open_write (manifest_path_of self) w = (Raise e, w') /\ w' = w.
Proof.
  intros H. destruct (open_write (manifest_path_of self) w) as [[f|e1] w1] eqn:Ho.
  - rewrite (write_new_manifest_run _ _ _ _ _ Ho) in H. discriminate.
  - unfold write_new_manifest in H. fold (manifest_path_of self) in H.
    rewrite io_bind_unfold, Ho in H. injection H as <- <-.
    split; [reflexivity | eapply open_write_raise, Ho].
Qed.

(** ** The copy loop and the mapping *)

Lemma copy_entry_ok self d item w d' w' :
  copy_entry self d item w = (Ok d', w') ->
  exists s g w1,
    snd item = JString s /\
    Re.match_group1 path_stripper s = Some g /\
    makedirs (PosixPath.dirname (PosixPath.join (output_dir self) g)) w = (Ok tt, w1) /\
    copyfile s (PosixPath.join (output_dir self) g) w1 = (Ok tt, w') /\
    d' = Dict.set (fst item) (JString g) d.
Proof.
  unfold copy_entry. cbv zeta. intros H.
  apply io_bind_ok in H as (s & w0 & Hs & H). unfold lift in Hs. injection Hs as Hs <-.
  apply io_bind_ok in H as (g & w0 & Hg & H). unfold lift in Hg. injection Hg as Hg <-.
  apply io_bind_ok in H as ([] & w1 & Hm & H).
  apply io_bind_ok in H as ([] & w2 & Hc & H). injection H as <- <-.
  exists s, g, w1. repeat split; try assumption.
  - destruct (snd item); simpl in Hs; congruence.
  - destruct (Re.match_group1 path_stripper s); congruence.
Qed.

Lemma copy_loop_ok self items d w d' w' :
  copy_loop self items d w = (Ok d', w') ->
  exists kcs, Forall2 stripped items kcs /\ d' = fold_left set_canonical kcs d.
Proof.
  revert d w. induction items as [|item items IH]; intros d w; simpl.
  - intros [= <- <-]. exists []. split; [constructor | reflexivity].
  - intros H. apply io_bind_ok in H as (d1 & w1 & He & H).
    apply copy_entry_ok in He as (s & g & w0 & Hs & Hg & _ & _ & ->).
    apply IH in H as (kcs & Hkcs & ->).
    exists ((fst item, g) :: kcs). split; [|reflexivity].
    constructor; [|exact Hkcs]. split; [reflexivity|]. exists s. auto.
Qed.

Lemma dict_set_middle {V : Type} k (v v0 : V) pre rest :
  k ∉ Dict.keys pre ->
  Dict.set k v (pre ++ (k, v0) :: rest) = pre ++ (k, v) :: rest.
Proof.
  induction pre as [|[k1 v1] pre IH]; simpl; intros Hk.
  - rewrite String.eqb_refl. reflexivity.
  - apply not_elem_of_cons in Hk as [Hne Hk].
    destruct (String.eqb_spec k1 k) as [->|_]; [congruence|]. rewrite IH by exact Hk.
    reflexivity.
Qed.

Lemma set_canonical_all pre items kcs :
  NoDup (Dict.keys (pre ++ items)) -> Forall2 stripped items kcs ->
  fold_left set_canonical kcs (pre ++ items) = pre ++ as_manifest kcs.
Proof.
  intros Hnd H. revert pre Hnd.
  induction H as [|[k v] [k' c] items kcs [Hk _] _ IH]; intros pre Hnd; simpl.
  - reflexivity.
  - simpl in Hk. subst k'. unfold set_canonical at 2. simpl.
    assert (Hpre : k ∉ Dict.keys pre).
    { unfold Dict.keys in Hnd. rewrite map_app in Hnd. apply NoDup_app in Hnd as (_ & Hd & _).
      intros Hin. apply (Hd k Hin). simpl. apply list_elem_of_here. }
    rewrite dict_set_middle by exact Hpre.
    change (pre ++ (k, JString c) :: items) with (pre ++ [(k, JString c)] ++ items).
    rewrite app_assoc, IH.
    + rewrite <- app_assoc. reflexivity.
    + unfold Dict.keys in *. rewrite <- app_assoc. rewrite !map_app in *. exact Hnd.
Qed.

Lemma stripped_keys items kcs :
  Forall2 stripped items kcs -> map fst kcs = Dict.keys items.
Proof.
  induction 1 as [|item kc items kcs [Hk _] _ IH]; simpl; [reflexivity|].
  rewrite Hk. f_equal. exact IH.
Qed.

Lemma copy_to_output_dir_ok self d w d' w' :
  NoDup (Dict.keys d) ->
  copy_to_output_dir self d w = (Ok d', w') ->
  exists kcs, Forall2 stripped d kcs /\ d' = as_manifest kcs.
Proof.
  intros Hnd H. unfold copy_to_output_dir, Dict.items in H.
  apply copy_loop_ok in H as (kcs & Hkcs & ->). exists kcs. split; [exact Hkcs|].
  apply (set_canonical_all [] d kcs Hnd Hkcs).
Qed.

(** ** What loading returns *)

Lemma parse_blob_NoDup d file d' :
  parse_blob d file = Ok d' -> NoDup (Dict.keys d) -> NoDup (Dict.keys d').
Proof.
  unfold parse_blob. destruct (Json.getitem file "path") as [path|]; simpl; [|discriminate].
  destruct (Json.startswith path "meta/") as [[]|]; simpl; [congruence| |discriminate].
  destruct (Json.getitem file "source_path") as [sp|]; simpl; [|discriminate].
  destruct (Json.as_str path) as [k|]; simpl; [|discriminate].
  intros [= <-]. apply dict_keys_set_NoDup.
Qed.

Lemma foldM_parse_blob_NoDup items d d' :
  foldM parse_blob d items = Ok d' -> NoDup (Dict.keys d) -> NoDup (Dict.keys d').
Proof.
  revert d. induction items as [|file items IH]; intros d; simpl; [congruence|].
  destruct (parse_blob d file) as [d1|] eqn:E; simpl; [|discriminate].
  intros H Hd. eapply IH; [exact H|]. eapply parse_blob_NoDup; eassumption.
Qed.

Lemma parse_blobs_NoDup data d :
  parse_blobs data = Ok d -> NoDup (Dict.keys d).
Proof.
  unfold parse_blobs. destruct (Json.getitem data "blobs") as [blobs|]; simpl; [|discriminate].
  destruct (Json.iter blobs) as [files|]; simpl; [|discriminate].
  intros H. eapply foldM_parse_blob_NoDup; [exact H|]. apply NoDup_nil. exact I.
Qed.

Lemma str_join_ok sep l s :
  Json.str_join sep l = Ok s ->
  exists srcs, l = map JString srcs /\ s = PyStr.join sep srcs.
Proof.
  revert s. induction l as [|x l IH]; intros s.
  - intros [= <-]. exists []. split; reflexivity.
  - destruct l as [|y l].
    + destruct x; simpl; try discriminate. intros [= <-]. exists [s0]. split; reflexivity.
    + change (Json.str_join sep (x :: y :: l))
        with (s1 ← Json.as_str x; r ← Json.str_join sep (y :: l); Ok (s1 +:+ sep +:+ r)).
      destruct x; try discriminate. cbn [Json.as_str mbind result_bind].
      destruct (Json.str_join sep (y :: l)) as [r|]; [|discriminate].
      intros [= <-]. destruct (IH r eq_refl) as (srcs & Hl & ->).
      exists (s0 :: srcs). split; [rewrite Hl; reflexivity|].
      destruct srcs as [|s1 srcs]; [discriminate|]. reflexivity.
Qed.

Lemma load_ok json_loads self w d0 deps w' :
  load json_loads self w = (Ok (d0, deps), w') ->
  w' = w /\
  Json.str_join " " (Dict.values d0) = Ok deps /\
  exists f data,
    read_file (package_json_path self) w = (Ok f, w) /\
    json_loads f = Ok data /\ parse_blobs data = Ok d0.
Proof.
  intros H. assert (w' = w) by (eapply load_world, H). subst w'.
  split; [reflexivity|].
  unfold load in H. apply io_bind_ok in H as (d & w1 & Hp & H).
  apply io_bind_ok in H as (s & w2 & Hj & H). injection H as <- <- <-.
  unfold lift in Hj. injection Hj as Hj <-. split; [exact Hj|].
  unfold parse_package_json in Hp.
  apply io_bind_ok in Hp as (f & w3 & Hr & Hp).
  apply io_bind_ok in Hp as (data & w4 & Hl & Hp).
  unfold lift in Hl, Hp. injection Hl as Hl <-. injection Hp as Hp <-.
  unfold json_load in Hl. exists f, data. auto.
Qed.

Lemma first_occurrences_fresh seen l :
  NoDup l -> (forall k, k ∈ l -> k ∉ seen) -> first_occurrences seen l = l.
Proof.
  revert seen. induction l as [|k l IH]; intros seen Hnd Hs; simpl; [reflexivity|].
  apply NoDup_cons in Hnd as [Hk Hnd].
  rewrite bool_decide_eq_false_2 by (apply Hs, list_elem_of_here).
  f_equal. apply IH; [exact Hnd|]. intros k' Hk' Hin.
  apply elem_of_app in Hin as [Hin|Hin].
  - apply (Hs k'); [apply list_elem_of_further, Hk' | exact Hin].
  - apply list_elem_of_singleton in Hin as ->. contradiction.
Qed.

(** The keys of the loaded mapping are the virtual paths outside the
    metadata namespace, in the order they are first read. *)
Lemma loaded_keys_order blobs d :
  Dict.keys (fold_left keep blobs d)
  = Dict.keys d ++
    first_occurrences (Dict.keys d)
      (map virtual_path (filter (fun b => is_meta b = false) blobs)).
Proof.
  revert d. induction blobs as [|b blobs IH]; intros d; simpl.
  - rewrite app_nil_r. reflexivity.
  - rewrite IH, filter_cons. unfold keep. destruct (is_meta b) eqn:Hm.
    + rewrite decide_False by discriminate. reflexivity.
    + rewrite decide_True by reflexivity. simpl.
      destruct (decide (virtual_path b ∈ Dict.keys d)) as [Hin|Hin].
      * rewrite dict_keys_set_in by exact Hin.
        rewrite bool_decide_eq_true_2 by exact Hin. reflexivity.
      * rewrite dict_keys_set_notin by exact Hin.
        rewrite bool_decide_eq_false_2 by exact Hin. rewrite <- app_assoc.
        reflexivity.
Qed.

(** ** The stages, one after the other *)

Lemma collect_ok self d0 w d1 w3 :
  collect self d0 w = (Ok d1, w3) ->
  exists w1 w2,
    copy_meta_far self w = (Ok tt, w1) /\
    copy_to_output_dir self d0 w1 = (Ok d1, w2) /\
    write_new_manifest self d1 w2 = (Ok tt, w3).
Proof.
  unfold collect. intros H.
  apply io_bind_ok in H as ([] & w1 & H1 & H).
  apply io_bind_ok in H as (d & w2 & H2 & H).
  apply io_bind_ok in H as ([] & w3' & H3 & H). injection H as <- <-.
  exists w1, w2. auto.
Qed.

Lemma stages_ok json_loads self w td w4 :
  stages json_loads self w = (Ok td, w4) ->
  exists d0 deps d1 w3,
    td = (d0, deps, d1) /\
    load json_loads self w = (Ok (d0, deps), w) /\
    collect self d0 w = (Ok d1, w3) /\
    archive_output self (tar_path_of self) w3 = (Ok tt, w4).
Proof.
  unfold stages. intros H.
  apply io_bind_ok in H as ([d0 deps] & w1 & Hl & H).
  assert (w1 = w) by (eapply load_world, Hl). subst w1.
  apply io_bind_ok in H as (d1 & w3 & Hc & H).
  apply io_bind_ok in H as ([] & w4' & Ha & H). injection H as <- <-.
  exists d0, deps, d1, w3. auto.
Qed.

Lemma run_ok json_loads self w w' :
  run json_loads self w = (Ok tt, w') ->
  exists d0 deps d1 w3 w4,
    load json_loads self w = (Ok (d0, deps), w) /\
    collect self d0 w = (Ok d1, w3) /\
    archive_output self (tar_path_of self) w3 = (Ok tt, w4) /\
    write_depfile self deps w4 = (Ok tt, w').
Proof.
  rewrite load_collect_run. intros H.
  apply io_bind_ok in H as (td & w4 & Hs & Hd).
  apply stages_ok in Hs as (d0 & deps & d1 & w3 & -> & Hl & Hc & Ha).
  exists d0, deps, d1, w3, w4. auto.
Qed.

Lemma write_depfile_ok self deps w w' :
  write_depfile self deps w = (Ok tt, w') ->
  text_at w' (depfile self) = Some (depfile_text (tar_path_of self) deps).
Proof.
  unfold write_depfile. intros H. apply io_bind_ok in H as (f & w1 & Ho & Hw).
  apply open_write_ok in Ho as (Hn & Hd & ->).
  erewrite fwrite_bytes in Hw by (simpl; apply lookup_insert_eq).
  injection Hw as <-. eapply text_at_written; [exact Hn | exact Hd | reflexivity|].
  simpl. apply insert_insert_eq.
Qed.

Lemma map_JString_inj l1 l2 : map JString l1 = map JString l2 -> l1 = l2.
Proof.
  revert l2. induction l1 as [|x l1 IH]; intros [|y l2]; simpl; try discriminate.
  - reflexivity.
  - intros [= -> H]. f_equal. apply IH, H.
Qed.

(** ** The manifest file *)



(** ** Directories and copies *)

Lemma read_file_world p w r w' : read_file p w = (r, w') -> w' = w.
Proof.
  unfold read_file. destruct (namei w p) as [l|e]; [|congruence].
  destruct (files w !! l) as [[d|]|]; congruence.
Qed.

Lemma mkdir_p_dirs_le cur comps w r w' :
  mkdir_p cur comps w = (r, w') ->
  dirs_le (files w) (files w') /\ cwd w' = cwd w.
Proof.
  revert cur w. induction comps as [|c cs IH]; intros cur w; simpl.
  - intros [= <- <-]. split; [apply dirs_le_refl | reflexivity].
  - destruct (String.eqb c "" || String.eqb c "."); [apply IH|].
    destruct (String.eqb c ".."); [apply IH|].
    destruct (files w !! (cur ++ [c])) as [[d|]|] eqn:E.
    + intros [= <- <-]. split; [apply dirs_le_refl | reflexivity].
    + apply IH.
    + intros H. apply IH in H as [Hle Hc]. simpl in *. split; [|exact Hc].
      eapply dirs_le_trans; [apply dirs_le_insert_dir | exact Hle].
Qed.

(** Directories that [makedirs] has made are there the next time. *)
Lemma mkdir_p_again cur comps w w1 :
  mkdir_p cur comps w = (Ok tt, w1) ->
  forall w2, dirs_le (files w1) (files w2) -> mkdir_p cur comps w2 = (Ok tt, w2).
Proof.
  revert cur w. induction comps as [|c cs IH]; intros cur w; simpl.
  - reflexivity.
  - destruct (String.eqb c "" || String.eqb c "."); [apply IH|].
    destruct (String.eqb c ".."); [apply IH|].
    destruct (files w !! (cur ++ [c])) as [[d|]|] eqn:E.
    + discriminate.
    + intros H w2 Hle. pose proof (mkdir_p_dirs_le _ _ _ _ _ H) as [Hle1 _].
      rewrite (Hle _ (Hle1 _ E)). eapply IH; eassumption.
    + intros H w2 Hle. pose proof (mkdir_p_dirs_le _ _ _ _ _ H) as [Hle1 _].
      rewrite (Hle (cur ++ [c])); [eapply IH; eassumption|].
      apply Hle1. simpl. apply lookup_insert_eq.
Qed.

Lemma makedirs_dirs_le p w r w' :
  makedirs p w = (r, w') -> dirs_le (files w) (files w') /\ cwd w' = cwd w.
Proof.
  unfold makedirs. destruct (String.eqb p "").
  - intros [= <- <-]. split; [apply dirs_le_refl | reflexivity].
  - apply mkdir_p_dirs_le.
Qed.

Lemma makedirs_again p w w1 w2 :
  makedirs p w = (Ok tt, w1) -> cwd w2 = cwd w ->
  dirs_le (files w1) (files w2) -> makedirs p w2 = (Ok tt, w2).
Proof.
  unfold makedirs, start_of. intros H Hc Hle. rewrite Hc.
  destruct (String.eqb p ""); [discriminate|]. eapply mkdir_p_again; eassumption.
Qed.

Lemma copyfile_ok src dst w w' :
  copyfile src dst w = (Ok tt, w') ->
  exists d l,
    samefile w src dst = false /\
    read_file src w = (Ok d, w) /\
    namei w dst = Ok l /\ files w !! l <> Some Dir /\
    w' = emit (EvCopyfile src dst) (set_files (insert l (File d)) w).
Proof.
  unfold copyfile. destruct (samefile w src dst); [discriminate|]. intros H.
  apply io_bind_ok in H as (d & w1 & Hr & H).
  assert (w1 = w) by (eapply read_file_world, Hr). subst w1.
  apply io_bind_ok in H as (l & w2 & Hc & H). injection H as <-.
  apply create_ok in Hc as (Hn & Hd & ->). exists d, l. auto.
Qed.

Lemma copyfile_run src dst w d l :
  samefile w src dst = false ->
  read_file src w = (Ok d, w) ->
  namei w dst = Ok l -> files w !! l <> Some Dir ->
  copyfile src dst w
  = (Ok tt, emit (EvCopyfile src dst) (set_files (insert l (File d)) w)).
Proof.
  intros Hs Hr Hn Hd. unfold copyfile. rewrite Hs.
  rewrite (io_bind_step _ _ _ _ _ Hr).
  assert (Hc : create dst d w = (Ok l, set_files (insert l (File d)) w)).
  { unfold create. rewrite Hn. destruct (files w !! l) as [[d0|]|]; congruence. }
  rewrite (io_bind_step _ _ _ _ _ Hc). reflexivity.
Qed.

Lemma copy_entry_run self d k s g w w1 w2 :
  Re.match_group1 path_stripper s = Some g ->
  makedirs (PosixPath.dirname (PosixPath.join (output_dir self) g)) w = (Ok tt, w1) ->
  copyfile s (PosixPath.join (output_dir self) g) w1 = (Ok tt, w2) ->
  copy_entry self d (k, JString s) w = (Ok (Dict.set k (JString g) d), w2).
Proof.
  intros Hg Hm Hc. unfold copy_entry, lift. cbv zeta. cbn [fst snd Json.as_str].
  rewrite io_bind_unfold. cbv beta iota. rewrite io_bind_unfold, Hg. cbv beta iota.
  rewrite (io_bind_step _ _ _ _ _ Hm), (io_bind_step _ _ _ _ _ Hc). reflexivity.
Qed.

(** ** Two source paths with one canonical path *)

(** The whole run on two colliding entries: it exits with 0, the manifest
    has a line for each virtual path with the same canonical path, and
    the archive holds the file copied last. *)
Example collision_run :
  let r := main (fun _ => Ok Scenario.collision_manifest_json) Scenario.argv
             Scenario.collision_initial in
  fst r = 0 /\
  exists ms,
    archive_at (snd r) Scenario.tar_loc = Some ms /\
    Permutation (map member_view ms)
      [("./package.manifest",
        Bytes ("bin/app=out/obj/app" +:+ nl +:+ "bin/other=out/obj/app" +:+ nl
               +:+ "meta/package=meta.far" +:+ nl));
       ("./meta.far", Bytes "FAR");
       ("out/obj/app", Bytes "OTHER")].
Proof.
  vm_compute. split; [reflexivity|]. eexists. split; [reflexivity|].
  apply Permutation_refl.
Qed.

(** ** Names of more than 100 bytes *)

Lemma take_length n s : String.length (PyStr.take n s) <= n.
Proof.
  revert s. induction n as [|n IH]; intros [|a s]; simpl; try lia.
  specialize (IH s). lia.
Qed.

Lemma take_all n s : String.length s <= n -> PyStr.take n s = s.
Proof.
  revert s. induction n as [|n IH]; intros [|a s]; simpl; try reflexivity; try lia.
  intros H. f_equal. apply IH. lia.
Qed.

(** ** Strings and paths *)

Lemma split_slash_cons s : exists c cs, PyStr.split_slash s = c :: cs.
Proof.
  induction s as [|a s (c & cs & IH)]; simpl; [eauto|].
  destruct (Ascii.eqb a PyStr.slash); [eauto|]. rewrite IH. eauto.
Qed.

Lemma split_app_slash a b :
  PyStr.split_slash (a +:+ "/" +:+ b) = PyStr.split_slash a ++ PyStr.split_slash b.
Proof.
  induction a as [|x a IH].
  - reflexivity.
  - change (String x a +:+ "/" +:+ b) with (String x (a +:+ "/" +:+ b)).
    cbn [PyStr.split_slash]. rewrite IH.
    destruct (Ascii.eqb x PyStr.slash); [reflexivity|].
    destruct (split_slash_cons a) as (c & cs & ->). reflexivity.
Qed.

Lemma has_slash_app a b :
  PosixPath.has_slash (a +:+ b) = PosixPath.has_slash a || PosixPath.has_slash b.
Proof.
  induction a as [|x a IH]; [reflexivity|].
  change (String x a +:+ b) with (String x (a +:+ b)). cbn [PosixPath.has_slash].
  rewrite IH, orb_assoc. reflexivity.
Qed.

Lemma split_slash_no_slash s :
  Forall (fun c => PosixPath.has_slash c = false) (PyStr.split_slash s).
Proof.
  induction s as [|a s IH]; simpl; [repeat constructor|].
  destruct (Ascii.eqb a PyStr.slash) eqn:E; [constructor; [reflexivity | exact IH]|].
  destruct (split_slash_cons s) as (c & cs & Hs). rewrite Hs in *.
  inversion IH as [|? ? Hc Hcs]; subst. constructor; [|exact Hcs].
  simpl. rewrite E, Hc. reflexivity.
Qed.

Lemma split_no_slash c :
  PosixPath.has_slash c = false -> PyStr.split_slash c = [c].
Proof.
  induction c as [|a c IH]; simpl; [reflexivity|].
  destruct (Ascii.eqb a PyStr.slash); [discriminate|]. simpl. intros H.
  rewrite (IH H). reflexivity.
Qed.

Lemma split_join_clean cs :
  cs <> [] -> Forall clean_comp cs -> PyStr.split_slash (PyStr.join "/" cs) = cs.
Proof.
  induction cs as [|c cs IH]; [congruence|]. intros _ Hall.
  inversion Hall as [|? ? (_ & _ & _ & Hc) Hcs]; subst.
  destruct cs as [|c' cs]; [apply split_no_slash, Hc|].
  change (PyStr.join "/" (c :: c' :: cs)) with (c +:+ "/" +:+ PyStr.join "/" (c' :: cs)).
  rewrite split_app_slash, (split_no_slash _ Hc), IH; [reflexivity | discriminate | exact Hcs].
Qed.

Lemma endswith_slash_inv a :
  PyStr.endswith_slash a = true -> exists a', a = a' +:+ "/".
Proof.
  induction a as [|x a IH]; simpl; [discriminate|].
  destruct a as [|y a].
  - intros H. apply Ascii.eqb_eq in H. subst x. exists "". reflexivity.
  - intros H. destruct (IH H) as (a' & Ha). exists (String x a'). rewrite Ha. reflexivity.
Qed.

Lemma startswith_app a x p :
  a <> "" -> String.length p = 1 ->
  PyStr.startswith (a +:+ x) p = PyStr.startswith a p.
Proof.
  intros Ha Hp. destruct p as [|q [|? ?]]; try discriminate.
  destruct a as [|y a]; [congruence|].
  unfold PyStr.startswith.
  change (String y a +:+ x) with (String y (a +:+ x)). cbn [PyStr.strip_prefix].
  destruct (Ascii.eqb q y); reflexivity.
Qed.

Lemma startswith_slash_head b :
  PyStr.startswith b "/" = false ->
  b = "" \/ exists x b', b = String x b' /\ Ascii.eqb PyStr.slash x = false.
Proof.
  destruct b as [|x b]; [auto|]. unfold PyStr.startswith. cbn [PyStr.strip_prefix].
  change "/"%char with PyStr.slash.
  destruct (Ascii.eqb PyStr.slash x) eqn:E; [discriminate|]. intros _. right; eauto.
Qed.

Lemma join_slashed a b :
  PyStr.startswith b "/" = false -> PosixPath.join a b = slashed a +:+ b.
Proof.
  intros Hb. unfold PosixPath.join, slashed. rewrite Hb.
  destruct (String.eqb a "" || PyStr.endswith_slash a); [reflexivity|].
  rewrite append_assoc. reflexivity.
Qed.

Lemma append_inj_l a x y : a +:+ x = a +:+ y -> x = y.
Proof.
  induction a as [|c a IH]; [auto|].
  change (String c a +:+ x) with (String c (a +:+ x)).
  change (String c a +:+ y) with (String c (a +:+ y)). intros [= H]. apply IH, H.
Qed.

Lemma clean_comp_startswith c : clean_comp c -> PyStr.startswith c "/" = false.
Proof.
  intros (Hne & _ & _ & Hs). destruct c as [|x c]; [congruence|].
  unfold PyStr.startswith. cbn [PyStr.strip_prefix]. simpl in Hs.
  apply orb_false_iff in Hs as [Hx _]. change "/"%char with PyStr.slash.
  rewrite Ascii.eqb_sym, Hx. reflexivity.
Qed.

Lemma endswith_slash_app_clean a c :
  clean_comp c -> PyStr.endswith_slash (a +:+ c) = false.
Proof.
  intros (Hne & _ & _ & Hs). induction a as [|x a IH].
  - change ("" +:+ c) with c. clear Hne. induction c as [|y c IHc]; [reflexivity|].
    simpl in Hs. apply orb_false_iff in Hs as [Hy Hc]. simpl.
    destruct c; [exact Hy | apply IHc, Hc].
  - change (String x a +:+ c) with (String x (a +:+ c)). simpl.
    destruct (a +:+ c) eqn:E; [|exact IH].
    destruct a; [|discriminate]. change ("" +:+ c) with c in E. congruence.
Qed.

(** ** Resolving a joined path *)

Lemma namei_nonempty w p l : namei w p = Ok l -> p <> "".
Proof. unfold namei. intros H ->. simpl in H. discriminate. Qed.

Lemma app_nonempty a b : a <> "" -> a +:+ b <> "".
Proof. destruct a; [congruence | discriminate]. Qed.

Lemma namei_fold w p :
  p <> "" ->
  namei w p = fold_left (step (files w)) (PyStr.split_slash p) (Ok (start_of w p)).
Proof.
  intros Hp. unfold namei. destruct (String.eqb_spec p ""); [contradiction | reflexivity].
Qed.

Lemma step_empty fs r l :
  step fs r "" = Ok l -> r = Ok l /\ fs !! l = Some Dir.
Proof.
  destruct r as [l0|e]; simpl; [|discriminate].
  destruct (fs !! l0) as [[d|]|] eqn:E; simpl; try discriminate.
  intros [= <-]. auto.
Qed.

Lemma namei_join w a b R :
  namei w a = Ok R ->
  PyStr.startswith b "/" = false ->
  namei w (PosixPath.join a b)
  = fold_left (step (files w)) (PyStr.split_slash b) (Ok R).
Proof.
  intros Ha Hb. pose proof (namei_nonempty _ _ _ Ha) as Hne.
  rewrite (namei_fold _ _ Hne) in Ha.
  unfold PosixPath.join. rewrite Hb.
  destruct (String.eqb_spec a "") as [->|_]; [congruence|]. simpl.
  destruct (PyStr.endswith_slash a) eqn:Es.
  - destruct (endswith_slash_inv _ Es) as (a' & ->).
    rewrite namei_fold by (apply app_nonempty, Hne).
    assert (Hst : start_of w ((a' +:+ "/") +:+ b) = start_of w (a' +:+ "/")).
    { unfold start_of. rewrite startswith_app; [reflexivity | exact Hne | reflexivity]. }
    rewrite Hst, append_assoc, split_app_slash, fold_left_app.
    assert (Hsplit : PyStr.split_slash (a' +:+ "/") = PyStr.split_slash a' ++ [""])
      by apply (split_app_slash a' "").
    rewrite Hsplit, fold_left_app in Ha. cbn [fold_left] in Ha.
    apply step_empty in Ha as [-> _]. reflexivity.
  - rewrite namei_fold by (apply app_nonempty, Hne).
    assert (Hst : start_of w (a +:+ "/" +:+ b) = start_of w a).
    { unfold start_of. rewrite startswith_app; [reflexivity | exact Hne | reflexivity]. }
    rewrite Hst, split_app_slash, fold_left_app, Ha. reflexivity.
Qed.

Lemma clean_comp_step fs l c :
  clean_comp c -> fs !! l = Some Dir -> step fs (Ok l) c = Ok (l ++ [c]).
Proof.
  intros (H1 & H2 & H3 & _) Hl. simpl. rewrite Hl.
  apply String.eqb_neq in H1, H2, H3. rewrite H1, H2, H3. reflexivity.
Qed.

(** A path of plain names resolves to the names appended, and only
    through directories. *)
Lemma fold_step_clean fs cs R l :
  Forall clean_comp cs ->
  fold_left (step fs) cs (Ok R) = Ok l -> l = R ++ cs.
Proof.
  intros Hall. revert R. induction Hall as [|c cs Hc _ IH]; intros R; simpl.
  - intros [= <-]. rewrite app_nil_r. reflexivity.
  - destruct (fs !! R) as [[d|]|] eqn:E.
    + rewrite fold_step_raise. discriminate.
    + destruct Hc as (H1 & H2 & H3 & _).
      apply String.eqb_neq in H1, H2, H3. rewrite H1, H2, H3. simpl.
      intros H. apply IH in H. rewrite H, <- app_assoc. reflexivity.
    + rewrite fold_step_raise. discriminate.
Qed.

Lemma fold_step_clean_run fs cs R :
  Forall clean_comp cs ->
  (forall pre, prefix pre cs -> pre <> cs -> fs !! (R ++ pre) = Some Dir) ->
  fold_left (step fs) cs (Ok R) = Ok (R ++ cs).
Proof.
  intros Hall. revert R. induction Hall as [|c cs Hc _ IH]; intros R Hd.
  - simpl. rewrite app_nil_r. reflexivity.
  - cbn [fold_left]. rewrite (clean_comp_step fs R c Hc).
    + rewrite IH; [rewrite <- app_assoc; reflexivity|].
      intros pre Hpre Hne. rewrite <- app_assoc. apply (Hd (c :: pre)).
      * apply prefix_cons, Hpre.
      * congruence.
    + specialize (Hd [] (prefix_nil _)). rewrite app_nil_r in Hd. apply Hd. discriminate.
Qed.

Lemma Forall_removelast {A : Type} (P : A -> Prop) l :
  Forall P l -> Forall P (removelast l).
Proof.
  induction 1 as [|x l Hx Hl IH]; simpl; [constructor|].
  destruct l; [constructor | constructor; assumption].
Qed.

Lemma fold_step_names fs comps cur l :
  Forall clean_comp cur ->
  Forall (fun c => PosixPath.has_slash c = false) comps ->
  fold_left (step fs) comps (Ok cur) = Ok l -> Forall clean_comp l.
Proof.
  intros Hcur Hall. revert cur Hcur. induction Hall as [|c cs Hc _ IH]; intros cur Hcur; simpl.
  - intros [= <-]. exact Hcur.
  - destruct (fs !! cur) as [[d|]|]; try (rewrite fold_step_raise; discriminate).
    destruct (String.eqb_spec c "") as [->|N1]; simpl; [apply IH, Hcur|].
    destruct (String.eqb_spec c ".") as [->|N2]; simpl; [apply IH, Hcur|].
    destruct (String.eqb_spec c "..") as [->|N3]; [apply IH, Forall_removelast, Hcur|].
    apply IH. apply Forall_app. split; [exact Hcur|]. repeat constructor; assumption.
Qed.

(** The names of a resolved location are plain. *)
Lemma namei_names w p l :
  Forall clean_comp (cwd w) -> namei w p = Ok l -> Forall clean_comp l.
Proof.
  intros Hc H. pose proof (namei_nonempty _ _ _ H) as Hne.
  rewrite (namei_fold _ _ Hne) in H.
  eapply fold_step_names; [|apply split_slash_no_slash|exact H].
  unfold start_of. destruct (PyStr.startswith p "/"); [constructor | exact Hc].
Qed.

(** ** How the collection changes the files *)

Lemma grows_refl T w : grows T w w.
Proof. repeat split; auto. Qed.

Lemma grows_trans T w1 w2 w3 : grows T w1 w2 -> grows T w2 w3 -> grows T w1 w3.
Proof.
  intros (C1 & D1 & F1 & N1) (C2 & D2 & F2 & N2). repeat split.
  - congruence.
  - intros k H. apply D2, D1, H.
  - intros k H. apply F2, F1, H.
  - intros k H. destruct (N2 k H) as [H'|H']; [apply N1, H' | auto].
Qed.

Lemma grows_weaken (T T' : loc -> Prop) w w' :
  (forall k, T k -> T' k) -> grows T w w' -> grows T' w w'.
Proof.
  intros HT (C & D & F & N). repeat split; auto.
  intros k H. destruct (N k H); auto.
Qed.

Lemma grows_emit T e w w' : grows T w w' -> grows T w (emit e w').
Proof. intros H. exact H. Qed.

Lemma grows_insert_file (T : loc -> Prop) w l d :
  files w !! l <> Some Dir -> T l ->
  grows T w (set_files (insert l (File d)) w).
Proof.
  intros Hl HT. repeat split; simpl.
  - apply dirs_le_insert_file, Hl.
  - intros k (d0 & Hk). destruct (decide (l = k)) as [->|Hne].
    + exists d. apply lookup_insert_eq.
    + exists d0. rewrite lookup_insert_ne by exact Hne. exact Hk.
  - intros k (d0 & Hk). destruct (decide (l = k)) as [->|Hne]; [auto|].
    rewrite lookup_insert_ne in Hk by exact Hne. left. exists d0. exact Hk.
Qed.

Lemma grows_insert_dir T w l :
  files w !! l = None -> grows T w (set_files (insert l Dir) w).
Proof.
  intros Hl. repeat split; simpl.
  - apply dirs_le_insert_dir.
  - intros k (d0 & Hk). destruct (decide (l = k)) as [->|Hne]; [congruence|].
    exists d0. rewrite lookup_insert_ne by exact Hne. exact Hk.
  - intros k (d0 & Hk). destruct (decide (l = k)) as [->|Hne].
    + rewrite lookup_insert_eq in Hk. discriminate.
    + rewrite lookup_insert_ne in Hk by exact Hne. left. exists d0. exact Hk.
Qed.

Lemma mkdir_p_grows T cur comps w r w' :
  mkdir_p cur comps w = (r, w') -> grows T w w'.
Proof.
  revert cur w. induction comps as [|c cs IH]; intros cur w; simpl.
  - intros [= <- <-]. apply grows_refl.
  - destruct (String.eqb c "" || String.eqb c "."); [apply IH|].
    destruct (String.eqb c ".."); [apply IH|].
    destruct (files w !! (cur ++ [c])) as [[d|]|] eqn:E.
    + intros [= <- <-]. apply grows_refl.
    + apply IH.
    + intros H. eapply grows_trans; [|eapply IH, H].
      apply grows_emit, grows_insert_dir, E.
Qed.

Lemma makedirs_grows T p w r w' : makedirs p w = (r, w') -> grows T w w'.
Proof.
  unfold makedirs. destruct (String.eqb p "").
  - intros [= <- <-]. apply grows_refl.
  - apply mkdir_p_grows.
Qed.

Lemma grows_namei T w w' p l : grows T w w' -> namei w p = Ok l -> namei w' p = Ok l.
Proof. intros (C & D & _) H. eapply namei_mono; eassumption. Qed.

Lemma join_clean_startswith cs :
  cs <> [] -> Forall clean_comp cs -> PyStr.startswith (PyStr.join "/" cs) "/" = false.
Proof.
  intros Hne Hall. destruct cs as [|c cs]; [congruence|].
  inversion Hall as [|? ? Hc _]; subst. destruct cs as [|c' cs].
  - apply clean_comp_startswith, Hc.
  - change (PyStr.join "/" (c :: c' :: cs)) with (c +:+ "/" +:+ PyStr.join "/" (c' :: cs)).
    rewrite startswith_app; [apply clean_comp_startswith, Hc | apply Hc | reflexivity].
Qed.

Lemma join_clean_inj cs cs' :
  cs <> [] -> Forall clean_comp cs -> cs' <> [] -> Forall clean_comp cs' ->
  PyStr.join "/" cs = PyStr.join "/" cs' -> cs = cs'.
Proof.
  intros H1 H2 H3 H4 H. rewrite <- (split_join_clean cs H1 H2), H.
  apply split_join_clean; assumption.
Qed.

(** A copy of the collection lands at its plain canonical path below
    the output directory. *)
Lemma copyfile_join_clean w src o cs w' R :
  namei w o = Ok R -> cs <> [] -> Forall clean_comp cs ->
  copyfile src (PosixPath.join o (PyStr.join "/" cs)) w = (Ok tt, w') ->
  grows (eq (R ++ cs)) w w' /\ files w !! R = Some Dir /\
  exists d, read_file src w = (Ok d, w) /\ files w' !! (R ++ cs) = Some (File d).
Proof.
  intros HR Hne Hall Hc.
  apply copyfile_ok in Hc as (d & l & _ & Hr & Hn & Hd & ->).
  rewrite (namei_join _ _ _ _ HR (join_clean_startswith cs Hne Hall)) in Hn.
  rewrite (split_join_clean cs Hne Hall) in Hn.
  assert (HRd : files w !! R = Some Dir).
  { destruct cs as [|c cs]; [congruence|]. cbn [fold_left] in Hn.
    destruct (step (files w) (Ok R) c) as [l1|e] eqn:E;
      [|rewrite fold_step_raise in Hn; discriminate].
    apply step_ok_inv in E as (l0 & [= <-] & E). exact E. }
  apply fold_step_clean in Hn; [|exact Hall]. subst l.
  split; [|split; [exact HRd|]].
  - apply grows_emit, grows_insert_file; [exact Hd | reflexivity].
  - exists d. split; [exact Hr|]. simpl. apply lookup_insert_eq.
Qed.

Lemma copy_entry_grows self d item kc cs w d' w' R :
  namei w (output_dir self) = Ok R ->
  stripped item kc -> snd kc = PyStr.join "/" cs -> cs <> [] -> Forall clean_comp cs ->
  copy_entry self d item w = (Ok d', w') ->
  grows (eq (R ++ cs)) w w' /\ is_file (files w') (R ++ cs).
Proof.
  intros HR (_ & s & Hs & Hg) Hkc Hne Hall Hc.
  apply copy_entry_ok in Hc as (s' & g & w1 & Hs' & Hg' & Hm & Hcp & _).
  rewrite Hs in Hs'. injection Hs' as <-. rewrite Hg in Hg'. injection Hg' as <-.
  rewrite Hkc in Hcp.
  pose proof (makedirs_grows (eq (R ++ cs)) _ _ _ _ Hm) as Hg1.
  pose proof (grows_namei _ _ _ _ _ Hg1 HR) as HR1.
  destruct (copyfile_join_clean _ _ _ _ _ _ HR1 Hne Hall Hcp) as (Hg2 & _ & dd & _ & Hf).
  split; [eapply grows_trans; eassumption | exists dd; exact Hf].
Qed.

Lemma copy_loop_grows self items kcs d w d' w' R :
  namei w (output_dir self) = Ok R ->
  Forall2 stripped items kcs ->
  Forall (fun kc => clean_canonical (snd kc)) kcs ->
  copy_loop self items d w = (Ok d', w') ->
  grows (listed R kcs) w w' /\ (forall k, listed R kcs k -> is_file (files w') k).
Proof.
  intros HR H2. revert d w HR.
  induction H2 as [|item kc items kcs Hs _ IH]; intros d w HR Hclean; simpl.
  - intros [= <- <-]. split; [apply grows_refl|].
    intros k (kc & cs & Hin & _). inversion Hin.
  - intros H. apply io_bind_ok in H as (d1 & w1 & He & H).
    inversion Hclean as [|? ? (cs & Hkc & Hne & Hall & _) Hclean']; subst.
    destruct (copy_entry_grows _ _ _ _ _ _ _ _ _ HR Hs Hkc Hne Hall He) as [Hg1 Hf1].
    pose proof (grows_namei _ _ _ _ _ Hg1 HR) as HR1.
    destruct (IH d1 w1 HR1 Hclean' H) as [Hg2 Hf2]. split.
    + eapply grows_trans.
      * eapply grows_weaken; [|exact Hg1]. intros k <-. exists kc, cs.
        split; [apply list_elem_of_here | auto].
      * eapply grows_weaken; [|exact Hg2]. intros k (kc' & cs' & Hin & Hrest).
        exists kc', cs'. split; [apply list_elem_of_further, Hin | exact Hrest].
    + intros k (kc' & cs' & Hin & Hkc' & Hne' & Hall' & ->).
      apply elem_of_cons in Hin as [->|Hin].
      * destruct Hg2 as (_ & _ & Hkeep & _). apply Hkeep.
        rewrite Hkc in Hkc'.
        rewrite <- (join_clean_inj cs cs' Hne Hall Hne' Hall' Hkc'). exact Hf1.
      * apply Hf2. exists kc', cs'. auto.
Qed.

Lemma namei_join_clean w o cs R l :
  namei w o = Ok R -> cs <> [] -> Forall clean_comp cs ->
  namei w (PosixPath.join o (PyStr.join "/" cs)) = Ok l ->
  l = R ++ cs /\ files w !! R = Some Dir.
Proof.
  intros HR Hne Hall Hn.
  rewrite (namei_join _ _ _ _ HR (join_clean_startswith cs Hne Hall)) in Hn.
  rewrite (split_join_clean cs Hne Hall) in Hn. split.
  - eapply fold_step_clean; eassumption.
  - destruct cs as [|c cs]; [congruence|]. cbn [fold_left] in Hn.
    destruct (step (files w) (Ok R) c) as [l1|e] eqn:E;
      [|rewrite fold_step_raise in Hn; discriminate].
    apply step_ok_inv in E as (l0 & [= <-] & E). exact E.
Qed.

Lemma clean_comp_literal c :
  (if String.eqb c "" then false
   else if String.eqb c "." then false
   else if String.eqb c ".." then false
   else negb (PosixPath.has_slash c)) = true ->
  clean_comp c.
Proof.
  destruct (String.eqb_spec c ""); [discriminate|].
  destruct (String.eqb_spec c "."); [discriminate|].
  destruct (String.eqb_spec c ".."); [discriminate|].
  intros H. apply negb_true_iff in H. repeat split; assumption.
Qed.

(** ** The names of the walk *)

Lemma pystr_join_cons c cs :
  cs <> [] -> PyStr.join "/" (c :: cs) = c +:+ "/" +:+ PyStr.join "/" cs.
Proof. destruct cs; [congruence | reflexivity]. Qed.

Lemma pystr_join_snoc dirs name :
  dirs <> [] ->
  PyStr.join "/" (dirs ++ [name]) = PyStr.join "/" dirs +:+ "/" +:+ name.
Proof.
  induction dirs as [|d dirs IH]; [congruence|]. intros _.
  destruct dirs as [|d' dirs]; [reflexivity|].
  change ((d :: d' :: dirs) ++ [name]) with (d :: ((d' :: dirs) ++ [name])).
  rewrite pystr_join_cons by discriminate. rewrite IH by discriminate.
  rewrite (pystr_join_cons d (d' :: dirs)) by discriminate.
  rewrite !append_assoc. reflexivity.
Qed.

Lemma slashed_app_clean a c :
  clean_comp c -> slashed (a +:+ c) = a +:+ c +:+ "/".
Proof.
  intros Hc. unfold slashed. rewrite (endswith_slash_app_clean a c Hc).
  destruct (String.eqb_spec (a +:+ c) "") as [E|_]; [|rewrite append_assoc; reflexivity].
  exfalso. destruct Hc as (Hne & _). destruct a; [|discriminate].
  apply Hne. exact E.
Qed.

(** The path that the walk builds for a file at the plain names [dirs]
    and [name] below the top. *)
Lemma walk_path top dirs name :
  Forall clean_comp dirs -> clean_comp name ->
  PosixPath.join (walk_root top dirs) name
  = slashed top +:+ PyStr.join "/" (dirs ++ [name]).
Proof.
  intros Hd Hn. unfold walk_root. revert top.
  induction Hd as [|d dirs Hc _ IH]; intros top.
  - simpl. apply join_slashed, clean_comp_startswith, Hn.
  - cbn [fold_left]. rewrite IH.
    rewrite (join_slashed top d (clean_comp_startswith d Hc)).
    rewrite (slashed_app_clean (slashed top) d Hc).
    change ((d :: dirs) ++ [name]) with (d :: (dirs ++ [name])).
    rewrite pystr_join_cons by (destruct dirs; discriminate).
    rewrite !append_assoc. reflexivity.
Qed.

Lemma removelast_last {A : Type} (l : list A) (x : A) :
  l <> [] -> l = removelast l ++ [List.last l x].
Proof. intros H. apply app_removelast_last, H. Qed.

Lemma Forall_last {A : Type} (P : A -> Prop) (l : list A) (x : A) :
  l <> [] -> Forall P l -> P (List.last l x).
Proof.
  intros Hne Hall. rewrite (removelast_last l x Hne) in Hall.
  apply Forall_app in Hall as [_ H]. inversion H; assumption.
Qed.

(** The test of [archive_output] skips the file [package.tar] at the
    top and no other file with plain names. *)
Lemma skipped_iff self rel k :
  rel <> [] -> Forall clean_comp rel ->
  skipped self (tar_path_of self) (WalkEntry (removelast rel) (List.last rel "") k) = true
  <-> rel = ["package.tar"].
Proof.
  intros Hne Hall. unfold skipped, tar_path_of. cbn [we_dirs we_name].
  rewrite walk_path;
    [|apply Forall_removelast, Hall | apply Forall_last; assumption].
  rewrite <- (removelast_last rel "" Hne).
  rewrite (join_slashed (output_dir self) "package.tar" eq_refl).
  rewrite String.eqb_eq. split.
  - intros H. apply append_inj_l in H.
    apply (join_clean_inj rel ["package.tar"] Hne Hall); [discriminate| |exact H].
    repeat constructor; discriminate.
  - intros ->. reflexivity.
Qed.

Lemma strip_dot_slash_clean d rest :
  clean_comp d -> strip_dot_slash (d +:+ "/" +:+ rest) = d +:+ "/" +:+ rest.
Proof.
  intros (H1 & H2 & _ & Hs). unfold strip_dot_slash.
  destruct d as [|a d]; [congruence|].
  change (String a d +:+ "/" +:+ rest) with (String a (d +:+ "/" +:+ rest)).
  cbn [PyStr.strip_prefix]. destruct (Ascii.eqb "." a) eqn:Ea; [|reflexivity].
  apply Ascii.eqb_eq in Ea. subst a. destruct d as [|b d]; [congruence|].
  change (String b d +:+ "/" +:+ rest) with (String b (d +:+ "/" +:+ rest)).
  simpl in Hs. apply orb_false_iff in Hs as [Hb _].
  change "/"%char with PyStr.slash. rewrite Ascii.eqb_sym, Hb. reflexivity.
Qed.

Lemma lstrip_slash_clean d rest :
  clean_comp d -> PyStr.lstrip_slash (d +:+ rest) = d +:+ rest.
Proof.
  intros (H1 & _ & _ & Hs). destruct d as [|a d]; [congruence|].
  change (String a d +:+ rest) with (String a (d +:+ rest)). simpl.
  simpl in Hs. apply orb_false_iff in Hs as [Ha _]. rewrite Ha. reflexivity.
Qed.

Lemma member_name_header n : member_name (create_gnu_header n) = n.
Proof.
  unfold create_gnu_header, member_name.
  destruct (Nat.ltb_spec LENGTH_NAME (String.length n)); cbn [th_name th_gnu_longname];
    [reflexivity | apply take_all; assumption].
Qed.

Lemma slashed_join_clean dirs :
  dirs <> [] -> Forall clean_comp dirs ->
  slashed (PyStr.join "/" dirs) = PyStr.join "/" dirs +:+ "/".
Proof.
  intros Hne Hall. destruct (exists_last Hne) as (pre & x & ->).
  apply Forall_app in Hall as [_ Hx]. inversion Hx as [|? ? Hc _]; subst.
  destruct pre as [|p pre].
  - apply (slashed_app_clean "" x Hc).
  - rewrite pystr_join_snoc by discriminate. rewrite <- append_assoc.
    rewrite slashed_app_clean by exact Hc. rewrite !append_assoc. reflexivity.
Qed.

(** The path of the member written for the file at the plain names
    [rel] is [rel] joined by slashes. *)
Lemma member_path_clean rel d :
  rel <> [] -> Forall clean_comp rel ->
  member_path (create_gnu_header (PyStr.lstrip_slash (arcname_of rel)), d)
  = PyStr.join "/" rel.
Proof.
  intros Hne Hall. unfold member_path, arcname_of. cbn [fst].
  rewrite member_name_header.
  pose proof (Forall_last _ _ "" Hne Hall) as Hlast.
  pose proof (Forall_removelast _ _ Hall) as Hdirs.
  rewrite (removelast_last rel "" Hne) at 3.
  destruct (removelast rel) as [|d1 dirs] eqn:E.
  - cbn [relpath_of_walk app PyStr.join].
    rewrite (join_slashed "." _ (clean_comp_startswith _ Hlast)).
    change (slashed "." +:+ List.last rel "") with ("./" +:+ List.last rel "").
    reflexivity.
  - cbn [relpath_of_walk].
    rewrite (join_slashed _ _ (clean_comp_startswith _ Hlast)).
    rewrite pystr_join_snoc by discriminate.
    assert (Hsl : slashed (PyStr.join "/" (d1 :: dirs)) = PyStr.join "/" (d1 :: dirs) +:+ "/")
      by (apply slashed_join_clean; [discriminate | exact Hdirs]).
    rewrite Hsl, append_assoc.
    inversion Hdirs as [|? ? Hd1 _]; subst.
    destruct dirs as [|d2 dirs].
    + cbn [PyStr.join]. rewrite lstrip_slash_clean by exact Hd1.
      apply strip_dot_slash_clean, Hd1.
    + rewrite pystr_join_cons by discriminate. rewrite !append_assoc.
      rewrite lstrip_slash_clean by exact Hd1. apply strip_dot_slash_clean, Hd1.
Qed.

(** ** The walk *)

Lemma strip_loc_app pre rel : strip_loc pre (pre ++ rel) = Some rel.
Proof.
  induction pre as [|a pre IH]; simpl; [reflexivity|].
  rewrite String.eqb_refl. exact IH.
Qed.

Lemma strip_loc_Some pre l rel : strip_loc pre l = Some rel -> l = pre ++ rel.
Proof.
  revert l. induction pre as [|a pre IH]; intros l; simpl; [congruence|].
  destruct l as [|b l]; [discriminate|].
  destruct (String.eqb_spec a b) as [->|_]; [|discriminate].
  intros H. rewrite (IH _ H). reflexivity.
Qed.

Lemma entry_of_Some tp kn e :
  entry_of tp kn = Some e <->
  exists rel d,
    rel <> [] /\ kn = (tp ++ rel, File d) /\
    e = WalkEntry (removelast rel) (List.last rel "") (tp ++ rel).
Proof.
  unfold entry_of. destruct kn as [k n]. cbn [fst snd]. split.
  - destruct n as [d|]; [|discriminate].
    destruct (strip_loc tp k) as [rel|] eqn:E; [|discriminate].
    apply strip_loc_Some in E. subst k.
    destruct rel as [|c rel]; [discriminate|]. intros [= <-].
    exists (c :: rel), d. split; [discriminate | split; reflexivity].
  - intros (rel & d & Hne & [= -> ->] & ->). rewrite strip_loc_app.
    destruct rel; [congruence | reflexivity].
Qed.

Lemma elem_of_entries (tp : loc) (fs : gmap loc node) (e : walk_entry) :
  e ∈ omap (entry_of tp) (map_to_list fs) <->
  exists rel d,
    rel <> [] /\ fs !! (tp ++ rel) = Some (File d) /\
    e = WalkEntry (removelast rel) (List.last rel "") (tp ++ rel).
Proof.
  rewrite list_elem_of_omap. split.
  - intros ([k n] & Hin & He). apply entry_of_Some in He as (rel & d & Hne & [= -> ->] & ->).
    apply elem_of_map_to_list in Hin. eauto.
  - intros (rel & d & Hne & Hf & ->). exists (tp ++ rel, File d). split.
    + apply elem_of_map_to_list, Hf.
    + apply entry_of_Some. eauto.
Qed.

Lemma entries_NoDup (tp : loc) (l : list (loc * node)) :
  NoDup (l.*1) -> NoDup (map we_loc (omap (entry_of tp) l)).
Proof.
  induction l as [|kn l IH]; simpl; intros Hnd; [apply NoDup_nil; exact I|].
  apply NoDup_cons in Hnd as [Hk Hnd].
  destruct (entry_of tp kn) as [e|] eqn:E; [|apply IH, Hnd].
  simpl. apply NoDup_cons. split; [|apply IH, Hnd].
  intros Hin. apply Hk. apply elem_of_map in Hin as (e' & He' & Hin).
  apply list_elem_of_omap in Hin as (kn' & Hin & E').
  apply entry_of_Some in E as (rel & d & _ & -> & ->).
  apply entry_of_Some in E' as (rel' & d' & _ & -> & ->).
  simpl in *. rewrite He'. apply list_elem_of_fmap. exists (tp ++ rel', File d').
  split; [reflexivity | exact Hin].
Qed.

Lemma walk_unfold o w tp :
  namei w o = Ok tp -> files w !! tp = Some Dir ->
  walk o w = omap (entry_of tp) (map_to_list (files w)).
Proof. intros H1 H2. unfold walk. rewrite H1, H2. reflexivity. Qed.

(** ** The archiving loop *)

Lemma omap_ext_in {A B : Type} (f g : A -> option B) (l : list A) :
  (forall x, x ∈ l -> f x = g x) -> omap f l = omap g l.
Proof.
  induction l as [|x l IH]; intros H; csimpl; [reflexivity|].
  rewrite (H x (list_elem_of_here _ _)), IH; [reflexivity|].
  intros y Hy. apply H, list_elem_of_further, Hy.
Qed.

Lemma archive_loop self tar_path t es :
  forall w acc,
    files w !! t = Some (File (Archive acc)) ->
    NoDup (map we_loc es) ->
    (forall e, e ∈ es -> is_file (files w) (we_loc e)) ->
    (forall e, e ∈ es -> (skipped self tar_path e = true <-> we_loc e = t)) ->
    exists w',
      for_each es (archive_entry self tar_path t) w = (Ok tt, w') /\
      cwd w' = cwd w /\
      files w' !! t
      = Some (File (Archive (acc ++ omap (member_of (files w))
                                     (filter (fun e => we_loc e <> t) es)))) /\
      (forall k, k <> t ->
                 files w' !! k
                 = if bool_decide (k ∈ map we_loc es) then None else files w !! k).
Proof.
  induction es as [|e es IH]; intros w acc Ht Hnd Hfile Hskip.
  - exists w. simpl. rewrite app_nil_r. repeat split; auto.
  - cbn [map] in Hnd. apply NoDup_cons in Hnd as [Hfresh Hnd].
    assert (Hskip' : forall e', e' ∈ es -> (skipped self tar_path e' = true <-> we_loc e' = t))
      by (intros e' He'; apply Hskip, list_elem_of_further, He').
    cbn [for_each]. rewrite io_bind_unfold.
    unfold archive_entry at 1. cbv zeta. fold (skipped self tar_path e).
    destruct (decide (we_loc e = t)) as [Heq|Hne].
    + rewrite (proj2 (Hskip e (list_elem_of_here _ _)) Heq).
      cbn [mret io_ret].
      destruct (IH w acc Ht Hnd) as (w' & Hrun & Hcwd & Harch & Hrest); [|exact Hskip'|].
      { intros e' He'. apply Hfile, list_elem_of_further, He'. }
      exists w'. split; [exact Hrun|]. split; [exact Hcwd|]. split.
      * rewrite filter_cons, decide_False by (intros H; apply H, Heq). exact Harch.
      * intros k Hk. rewrite (Hrest k Hk). cbn [map].
        destruct (decide (k ∈ map we_loc es)) as [Hin|Hin].
        -- rewrite !bool_decide_eq_true_2;
             [reflexivity | apply list_elem_of_further, Hin | exact Hin].
        -- rewrite !bool_decide_eq_false_2; [reflexivity| |exact Hin].
           intros H. apply elem_of_cons in H as [->|H]; [congruence | contradiction].
    + destruct (skipped self tar_path e) eqn:Esk;
        [exfalso; apply Hne, (proj1 (Hskip e (list_elem_of_here _ _))), Esk|].
      destruct (Hfile e (list_elem_of_here _ _)) as (d & Hd).
      set (m := (create_gnu_header
                   (PyStr.lstrip_slash
                      (PosixPath.join (relpath_of_walk (we_dirs e)) (we_name e))), d)).
      set (w1 := emit (EvTarAdd (we_loc e)
                         (PosixPath.join (relpath_of_walk (we_dirs e)) (we_name e)))
                   (set_files (insert t (File (Archive (acc ++ [m])))) w)).
      assert (Hadd : tar_add t (we_loc e)
                       (PosixPath.join (relpath_of_walk (we_dirs e)) (we_name e)) w
                     = (Ok tt, w1)).
      { unfold tar_add. rewrite Hd. unfold w1, set_files.
        rewrite (alter_lookup_insert _ _ _ _ Ht). reflexivity. }
      assert (Hd1 : files w1 !! we_loc e = Some (File d)).
      { unfold w1. simpl. rewrite lookup_insert_ne by congruence. exact Hd. }
      set (w2 := emit (EvRemove (we_loc e)) (set_files (delete (we_loc e)) w1)).
      assert (Hrm : remove (we_loc e) w1 = (Ok tt, w2)).
      { unfold remove. rewrite Hd1. reflexivity. }
      rewrite io_bind_unfold, Hadd, Hrm.
      assert (Hsame : forall k, k <> t -> k <> we_loc e -> files w2 !! k = files w !! k).
      { intros k H1 H2. unfold w2, w1. simpl.
        rewrite lookup_delete_ne by congruence. apply lookup_insert_ne. congruence. }
      destruct (IH w2 (acc ++ [m])) as (w' & Hrun & Hcwd & Harch & Hrest);
        [| exact Hnd | | exact Hskip' |].
      { unfold w2, w1. simpl. rewrite lookup_delete_ne by congruence.
        apply lookup_insert_eq. }
      { intros e' He'. destruct (decide (we_loc e' = t)) as [->|Hne'].
        - eexists. unfold w2, w1. simpl. rewrite lookup_delete_ne by congruence.
          apply lookup_insert_eq.
        - destruct (Hfile e' (list_elem_of_further _ _ _ He')) as (d' & Hd').
          exists d'. rewrite Hsame; [exact Hd' | exact Hne' |].
          intros Heq. apply Hfresh. rewrite <- Heq. apply elem_of_map_2, He'. }
      exists w'. split; [exact Hrun|]. split; [exact Hcwd|]. split.
      * rewrite Harch, filter_cons, decide_True by exact Hne. cbn [omap list_omap].
        unfold member_of at 2. rewrite Hd. fold m. rewrite <- app_assoc.
        do 4 f_equal. simpl. f_equal. apply omap_ext_in. intros e' He'.
        apply list_elem_of_filter in He' as [Hne' He']. unfold member_of.
        rewrite Hsame; [reflexivity | exact Hne' |].
        intros Heq. apply Hfresh. rewrite <- Heq. apply elem_of_map_2, He'.
      * intros k Hk. rewrite (Hrest k Hk). cbn [map].
        destruct (decide (k = we_loc e)) as [->|Hke].
        -- rewrite (bool_decide_eq_true_2 (we_loc e ∈ we_loc e :: map we_loc es))
             by apply list_elem_of_here.
           rewrite bool_decide_eq_false_2 by exact Hfresh.
           unfold w2. simpl. apply lookup_delete_eq.
        -- rewrite (Hsame k Hk Hke).
           destruct (decide (k ∈ map we_loc es)) as [Hin|Hin].
           ++ rewrite !bool_decide_eq_true_2;
                [reflexivity | apply list_elem_of_further, Hin | exact Hin].
           ++ rewrite !bool_decide_eq_false_2; [reflexivity| |exact Hin].
              intros H. apply elem_of_cons in H as [->|H]; [congruence | contradiction].
Qed.

Lemma tar_open_ok p w l w' :
  tar_open p w = (Ok l, w') ->
  namei w p = Ok l /\ files w !! l <> Some Dir /\
  w' = emit (EvTarOpen p) (set_files (insert l (File (Archive []))) w).
Proof.
  unfold tar_open. intros H. apply io_bind_ok in H as (h & w1 & Hc & H).
  apply io_bind_ok in H as ([] & w2 & Hl & Hr).
  injection Hl as <-. injection Hr as <- <-.
  apply create_ok in Hc as (Hn & Hd & ->). auto.
Qed.

Lemma clean_package_tar : Forall clean_comp ["package.tar"].
Proof. repeat constructor; discriminate. Qed.

(** What [archive_output] leaves: the archive holds the regular files
    that were below the output directory, but not itself, and they are
    gone from the directory. *)
Lemma archive_output_ok self w w4 R :
  namei w (output_dir self) = Ok R ->
  (forall rel, rel <> [] -> is_file (files w) (R ++ rel) -> Forall clean_comp rel) ->
  archive_output self (tar_path_of self) w = (Ok tt, w4) ->
  exists ms,
    files w4 !! (R ++ ["package.tar"]) = Some (File (Archive ms)) /\
    (forall m, m ∈ ms <->
               exists rel d,
                 rel <> [] /\ rel <> ["package.tar"] /\
                 files w !! (R ++ rel) = Some (File d) /\
                 m = (create_gnu_header (PyStr.lstrip_slash (arcname_of rel)), d)) /\
    (forall k, below R k -> is_file (files w4) k -> k = R ++ ["package.tar"]) /\
    (forall k, ~ below R k -> files w4 !! k = files w !! k) /\
    cwd w4 = cwd w.
Proof.
  intros HR Hclean H. unfold archive_output in H.
  apply io_bind_ok in H as (t & w1 & Ho & H).
  apply io_bind_ok in H as (entries & w1' & He & H). injection He as <- <-.
  apply tar_open_ok in Ho as (Hn & Hd & Hw1).
  destruct (namei_join_clean w (output_dir self) ["package.tar"] R t HR
              ltac:(discriminate) clean_package_tar Hn) as [-> HRd].
  set (t := R ++ ["package.tar"]) in *.
  assert (Hf1 : forall k, k <> t -> files w1 !! k = files w !! k).
  { intros k Hk. rewrite Hw1. simpl. apply lookup_insert_ne. congruence. }
  assert (Ht1 : files w1 !! t = Some (File (Archive []))).
  { rewrite Hw1. simpl. apply lookup_insert_eq. }
  assert (HRt : R <> t).
  { unfold t. intros E. apply (f_equal length) in E. rewrite length_app in E.
    simpl in E. lia. }
  assert (HR1 : namei w1 (output_dir self) = Ok R).
  { eapply namei_mono; [| |exact HR]; rewrite Hw1; [reflexivity|].
    simpl. apply dirs_le_insert_file, Hd. }
  assert (HRd1 : files w1 !! R = Some Dir) by (rewrite Hf1; assumption).
  rewrite (walk_unfold _ _ _ HR1 HRd1) in H.
  set (es := omap (entry_of R) (map_to_list (files w1))) in *.
  assert (Hes : forall e, e ∈ es <->
            exists rel d, rel <> [] /\ files w1 !! (R ++ rel) = Some (File d) /\
              e = WalkEntry (removelast rel) (List.last rel "") (R ++ rel))
    by (intros e; apply elem_of_entries).
  assert (Hrel : forall rel, R ++ rel = t <-> rel = ["package.tar"]).
  { intros rel. unfold t. split; [apply app_inv_head | intros ->; reflexivity]. }
  destruct (archive_loop self (tar_path_of self) t es w1 [] Ht1)
    as (w' & Hrun & Hcwd & Harch & Hrest).
  { apply entries_NoDup, NoDup_fst_map_to_list. }
  { intros e He. apply Hes in He as (rel & d & _ & Hfile & ->). exists d. exact Hfile. }
  { intros e He. apply Hes in He as (rel & d & Hne & Hfile & ->). cbn [we_loc].
    rewrite Hrel. apply skipped_iff; [exact Hne|].
    destruct (decide (R ++ rel = t)) as [E|E].
    - apply Hrel in E. subst rel. apply clean_package_tar.
    - apply Hclean; [exact Hne|]. exists d. rewrite <- Hf1; assumption. }
  rewrite Hrun in H. injection H as <-. simpl in Harch.
  exists (omap (member_of (files w1)) (filter (fun e => we_loc e <> t) es)).
  split; [exact Harch|]. split; [|split; [|split]].
  - intros m. rewrite list_elem_of_omap. split.
    + intros (e & He & Hm). apply list_elem_of_filter in He as [Hne He].
      apply Hes in He as (rel & d & Hrne & Hfile & ->). cbn [we_loc] in *.
      unfold member_of in Hm. cbn [we_loc we_dirs we_name] in Hm. rewrite Hfile in Hm.
      injection Hm as <-. exists rel, d. split; [exact Hrne|].
      split; [intros E; apply Hne, Hrel, E|]. split; [|reflexivity].
      rewrite <- Hf1; assumption.
    + intros (rel & d & Hrne & Hnt & Hfile & ->).
      assert (Hne : R ++ rel <> t) by (intros E; apply Hnt, Hrel, E).
      exists (WalkEntry (removelast rel) (List.last rel "") (R ++ rel)). split.
      * apply list_elem_of_filter. split; [exact Hne|]. apply Hes.
        exists rel, d. rewrite Hf1 by exact Hne. auto.
      * unfold member_of. cbn [we_loc we_dirs we_name].
        rewrite Hf1 by exact Hne. rewrite Hfile. reflexivity.
  - intros k (rel & Hrne & ->) (d & Hk4).
    destruct (decide (R ++ rel = t)) as [E|E]; [exact E|]. exfalso.
    rewrite (Hrest _ E) in Hk4.
    destruct (decide (R ++ rel ∈ map we_loc es)) as [Hin|Hin].
    + rewrite bool_decide_eq_true_2 in Hk4 by exact Hin. discriminate.
    + rewrite bool_decide_eq_false_2 in Hk4 by exact Hin. apply Hin.
      change (R ++ rel)
        with (we_loc (WalkEntry (removelast rel) (List.last rel "") (R ++ rel))).
      apply elem_of_map_2, Hes. exists rel, d. auto.
  - intros k Hk.
    assert (Hkt : k <> t).
    { intros ->. apply Hk. exists ["package.tar"]. split; [discriminate | reflexivity]. }
    rewrite (Hrest _ Hkt), bool_decide_eq_false_2; [apply Hf1, Hkt|].
    intros Hin. apply elem_of_map in Hin as (e & -> & He).
    apply Hes in He as (rel & d & Hrne & _ & ->). apply Hk. exists rel. auto.
  - rewrite Hcwd, Hw1. reflexivity.
Qed.

Lemma grows_same_files T w w1 w2 :
  cwd w2 = cwd w1 -> files w2 = files w1 -> grows T w w1 -> grows T w w2.
Proof. intros Hc Hf H. unfold grows in *. rewrite Hc, Hf. exact H. Qed.

Lemma clean_literal_1 c :
  clean_comp c -> PyStr.join "/" [c] = c /\ [c] <> [] /\ Forall clean_comp [c].
Proof. intros H. repeat split; [discriminate | repeat constructor; apply H]. Qed.

(** What the collection leaves below the output directory [R]: what was
    there, the metadata copy, the copies at their canonical paths, and
    the manifest file. *)
Lemma collect_files self d0 d1 w w3 R :
  namei w (output_dir self) = Ok R ->
  NoDup (Dict.keys d0) ->
  collect self d0 w = (Ok d1, w3) ->
  (forall k v, (k, v) ∈ d1 -> exists g, v = JString g /\ clean_canonical g) ->
  exists kcs,
    d1 = as_manifest kcs /\ Forall2 stripped d0 kcs /\
    grows (fun k => k = R ++ ["meta.far"] \/ listed R kcs k \/
                    k = R ++ ["package.manifest"]) w w3 /\
    namei w3 (output_dir self) = Ok R /\
    is_file (files w3) (R ++ ["meta.far"]) /\
    (forall k, listed R kcs k -> is_file (files w3) k) /\
    files w3 !! (R ++ ["package.manifest"]) = Some (File (Bytes (manifest_text kcs))).
Proof.
  intros HR Hnd Hc Hclean.
  apply collect_ok in Hc as (w1 & w2 & Hmeta & Hcopy & Hwrite).
  pose proof Hcopy as Hloop.
  apply (copy_to_output_dir_ok _ _ _ _ _ Hnd) in Hcopy as (kcs & Hs & ->).
  exists kcs. split; [reflexivity|]. split; [exact Hs|].
  (* the metadata copy *)
  unfold copy_meta_far in Hmeta.
  destruct (copyfile_join_clean w (meta_far_path self) (output_dir self) ["meta.far"]
              w1 R HR ltac:(discriminate)
              ltac:(repeat constructor; discriminate) Hmeta)
    as (Hg1 & _ & far & _ & Hfar).
  pose proof (grows_namei _ _ _ _ _ Hg1 HR) as HR1.
  (* the copies *)
  assert (Hcl : Forall (fun kc => clean_canonical (snd kc)) kcs).
  { apply Forall_forall. intros kc Hkc.
    destruct (Hclean (fst kc) (JString (snd kc))) as (g & [= <-] & Hg); [|exact Hg].
    unfold as_manifest. apply (elem_of_map_2 (fun kv => (fst kv, JString (snd kv)))), Hkc. }
  unfold copy_to_output_dir, Dict.items in Hloop.
  destruct (copy_loop_grows _ _ _ _ _ _ _ _ HR1 Hs Hcl Hloop) as [Hg2 Hlisted].
  pose proof (grows_namei _ _ _ _ _ Hg2 HR1) as HR2.
  (* the manifest file *)
  destruct (open_write (manifest_path_of self) w2) as [[f|e] w2'] eqn:Ho;
    [|unfold write_new_manifest in Hwrite; fold (manifest_path_of self) in Hwrite;
      rewrite io_bind_unfold, Ho in Hwrite; discriminate].
  rewrite (write_new_manifest_run _ _ _ _ _ Ho) in Hwrite. injection Hwrite as <-.
  apply open_write_ok in Ho as (Hn & Hd & ->).
  destruct (namei_join_clean w2 (output_dir self) ["package.manifest"] R f HR2
              ltac:(discriminate) ltac:(repeat constructor; discriminate) Hn)
    as [-> _].
  set (T := fun k => k = R ++ ["meta.far"] \/ listed R kcs k \/
                     k = R ++ ["package.manifest"]).
  assert (Hg3 : grows T w2
                  (set_files (insert (R ++ ["package.manifest"])
                                (File (Bytes (manifest_text kcs)))) w2)).
  { apply grows_insert_file; [exact Hd | right; right; reflexivity]. }
  assert (Hg3' : grows T w2
                   (set_files (insert (R ++ ["package.manifest"])
                                 (File (Bytes (manifest_text kcs))))
                      (emit (EvOpenWrite (manifest_path_of self))
                         (set_files (insert (R ++ ["package.manifest"]) (File (Bytes "")))
                            w2)))).
  { eapply grows_same_files; [| |exact Hg3]; [reflexivity|].
    simpl. apply insert_insert_eq. }
  assert (Hg12 : grows T w w2).
  { eapply grows_trans.
    - eapply grows_weaken; [|exact Hg1]. intros k <-. left. reflexivity.
    - eapply grows_weaken; [|exact Hg2]. intros k Hk. right. left. exact Hk. }
  split; [eapply grows_trans; eassumption|].
  split; [eapply grows_namei; [exact Hg3' | exact HR2]|].
  destruct Hg2 as (_ & _ & Hkeep2 & _). destruct Hg3' as (_ & _ & Hkeep3 & _).
  split; [apply Hkeep3, Hkeep2; exists far; exact Hfar|].
  split; [intros k Hk; apply Hkeep3, Hlisted, Hk|].
  simpl. apply lookup_insert_eq.
Qed.

Lemma write_depfile_files self deps w w' :
  write_depfile self deps w = (Ok tt, w') ->
  exists f, namei w (depfile self) = Ok f /\
            forall k, k <> f -> files w' !! k = files w !! k.
Proof.
  unfold write_depfile. intros H. apply io_bind_ok in H as (f & w1 & Ho & Hw).
  apply open_write_ok in Ho as (Hn & Hd & ->).
  erewrite fwrite_bytes in Hw by (simpl; apply lookup_insert_eq).
  injection Hw as <-. exists f. split; [exact Hn|]. intros k Hk. simpl.
  rewrite !lookup_insert_ne by congruence. reflexivity.
Qed.

Lemma run_stages json_loads self w d0 deps d1 w3 w4 w' :
  load json_loads self w = (Ok (d0, deps), w) ->
  collect self d0 w = (Ok d1, w3) ->
  archive_output self (tar_path_of self) w3 = (Ok tt, w4) ->
  write_depfile self deps w4 = (Ok tt, w') ->
  run json_loads self w = (Ok tt, w').
Proof.
  intros Hl Hc Ha Hd. rewrite load_collect_run.
  assert (Hs : stages json_loads self w = (Ok (d0, deps, d1), w4)).
  { unfold stages. rewrite (io_bind_step _ _ _ _ _ Hl). cbn [fst snd].
    rewrite (io_bind_step _ _ _ _ _ Hc), (io_bind_step _ _ _ _ _ Ha). reflexivity. }
  rewrite (io_bind_step _ _ _ _ _ Hs). exact Hd.
Qed.

(* ===================================================================== *)
(** * Further properties of the script *)
(* ===================================================================== *)

Import Shape.

(** ** The path stripper on every input *)

Lemma after_line_length s : String.length (after_line s) <= String.length s.
Proof.
  induction s as [|c s IH]; simpl; [lia|].
  destruct (Ascii.eqb c PyStr.newline); simpl; lia.
Qed.

Lemma consumed_first_line s : Re.consumed s (after_line s) = first_line s.
Proof.
  unfold Re.consumed.
  induction s as [|c s IH]; [reflexivity|].
  cbn [after_line first_line].
  destruct (Ascii.eqb c PyStr.newline).
  - rewrite Nat.sub_diag. reflexivity.
  - pose proof (after_line_length s).
    cbn [String.length].
    replace (S (String.length s) - String.length (after_line s))
      with (S (String.length s - String.length (after_line s))) by lia.
    cbn [PyStr.take]. now rewrite IH.
Qed.

Lemma rmatch_seq r1 r2 st :
  Re.rmatch (Re.Seq r1 r2) st = flat_map (Re.rmatch r2) (Re.rmatch r1 st).
Proof. reflexivity. Qed.

Lemma rmatch_opt r st : Re.rmatch (Re.Opt r) st = Re.rmatch r st ++ [st].
Proof. reflexivity. Qed.

Lemma rmatch_plus r st :
  Re.rmatch (Re.Plus r) st
  = Re.repeat_greedy (Re.rmatch r) (String.length (fst st)) st.
Proof. reflexivity. Qed.

Lemma rmatch_group r st :
  Re.rmatch (Re.Group r) st
  = map (fun st' => (fst st', Some (Re.consumed (fst st) (fst st'))))
      (Re.rmatch r st).
Proof. reflexivity. Qed.

Lemma rmatch_lit l st :
  Re.rmatch (Re.Lit l) st
  = match PyStr.strip_prefix l (fst st) with
    | Some rest => [(rest, snd st)]
    | None => []
    end.
Proof. reflexivity. Qed.

Lemma anychar_step c s cap :
  Re.rmatch Re.AnyChar (String c s, cap)
  = if Ascii.eqb c PyStr.newline then [] else [(s, cap)].
Proof. reflexivity. Qed.

Lemma starts_line_false_step s cap :
  starts_line s = false -> Re.rmatch Re.AnyChar (s, cap) = [].
Proof.
  destruct s as [|c s]; [reflexivity|]. cbn.
  destruct (Ascii.eqb c PyStr.newline); [reflexivity|discriminate].
Qed.

Lemma starts_line_after s : starts_line s = false -> after_line s = s.
Proof.
  destruct s as [|c s]; [reflexivity|]. cbn.
  destruct (Ascii.eqb c PyStr.newline); [reflexivity|discriminate].
Qed.

Lemma plus_anychar_none n s cap :
  starts_line s = false ->
  Re.repeat_greedy (Re.rmatch Re.AnyChar) n (s, cap) = [].
Proof.
  intros H. destruct n; cbn [Re.repeat_greedy];
    now rewrite (starts_line_false_step s cap H).
Qed.

(** The first alternative of [.+] reads the whole first line. *)
Lemma plus_anychar_head n s cap :
  String.length s <= n -> starts_line s = true ->
  exists tl,
    Re.repeat_greedy (Re.rmatch Re.AnyChar) n (s, cap) = ((after_line s, cap) :: tl).
Proof.
  revert s. induction n as [|n IH]; intros s Hn Hs.
  - destruct s; [discriminate|simpl in Hn; lia].
  - destruct s as [|c s]; [discriminate|].
    cbn in Hs. cbn [Re.repeat_greedy after_line].
    rewrite anychar_step.
    destruct (Ascii.eqb c PyStr.newline); [discriminate|].
    cbn [flat_map fst String.length].
    assert ((String.length s <? S (String.length s)) = true) as ->
      by (apply Nat.ltb_lt; lia).
    rewrite app_nil_r.
    destruct (starts_line s) eqn:Hs'.
    + destruct (IH s) as [tl Htl]; [simpl in Hn; lia|exact Hs'|].
      rewrite Htl. eexists. reflexivity.
    + rewrite plus_anychar_none by exact Hs'.
      rewrite (starts_line_after s Hs'). eexists. reflexivity.
Qed.

(** The capturing group [(.+)]. *)
Lemma group_none s cap :
  starts_line s = false ->
  Re.rmatch (Re.Group (Re.Plus Re.AnyChar)) (s, cap) = [].
Proof.
  intros H. rewrite rmatch_group, rmatch_plus. cbn [fst].
  now rewrite plus_anychar_none.
Qed.

Lemma group_head s cap :
  starts_line s = true ->
  exists tl,
    Re.rmatch (Re.Group (Re.Plus Re.AnyChar)) (s, cap)
    = ((after_line s, Some (first_line s)) :: tl).
Proof.
  intros H. rewrite rmatch_group, rmatch_plus. cbn [fst].
  destruct (plus_anychar_head (String.length s) s cap) as [tl Htl]; [lia|exact H|].
  rewrite Htl. cbn [map fst]. rewrite consumed_first_line. eexists. reflexivity.
Qed.

Lemma starts_line_no_slash r :
  starts_line r = false -> PyStr.strip_prefix "/" r = None.
Proof.
  destruct r as [|c r]; [reflexivity|]. cbn.
  destruct (Ascii.eqb c PyStr.newline) eqn:E; [|discriminate].
  apply Ascii.eqb_eq in E. subst c. reflexivity.
Qed.

Lemma tail_none r cap : starts_line r = false -> Re.rmatch stripper_tail (r, cap) = [].
Proof.
  intros H. unfold stripper_tail. rewrite rmatch_seq, rmatch_opt, rmatch_lit. cbn [fst snd].
  rewrite (starts_line_no_slash r H). cbn [app flat_map].
  now rewrite group_none.
Qed.

Lemma tail_head r cap g :
  tail_group r = Some g ->
  exists st tl, Re.rmatch stripper_tail (r, cap) = st :: tl /\ snd st = Some g.
Proof.
  unfold tail_group. intros H.
  destruct (starts_line r) eqn:Hr; [|discriminate].
  unfold stripper_tail. rewrite rmatch_seq, rmatch_opt, rmatch_lit. cbn [fst snd].
  destruct (PyStr.strip_prefix "/" r) as [u|] eqn:Hu.
  - cbn [app flat_map].
    destruct (starts_line u) eqn:Hsu.
    + destruct (group_head u cap Hsu) as [tl Htl]. rewrite Htl.
      injection H as <-. eexists _, _. split; [reflexivity|reflexivity].
    + rewrite (group_none u cap Hsu). cbn [app].
      destruct (group_head r cap Hr) as [tl Htl]. rewrite Htl.
      injection H as <-. eexists _, _. split; [reflexivity|].
      cbn [snd]. f_equal.
      destruct r as [|c r]; [discriminate|]. revert Hu. cbn [PyStr.strip_prefix].
      destruct (Ascii.eqb "/" c) eqn:E; [|discriminate].
      apply Ascii.eqb_eq in E. subst c. intros [= ->].
      cbn. destruct u as [|c u]; [reflexivity|]. cbn in Hsu. cbn.
      destruct (Ascii.eqb c PyStr.newline); [reflexivity|discriminate].
  - cbn [app flat_map].
    destruct (group_head r cap Hr) as [tl Htl]. rewrite Htl.
    injection H as <-. eexists _, _. split; reflexivity.
Qed.

Lemma dotdots_S k r :
  dotdots (S k) +:+ r = String "." (String "." (String "/" (dotdots k +:+ r))).
Proof. cbn [dotdots]. rewrite append_assoc. reflexivity. Qed.

Lemma strip_prefix_dotdots x :
  PyStr.strip_prefix "../" (String "." (String "." (String "/" x))) = Some x.
Proof. reflexivity. Qed.

(** [(\.\.\/)+] on [k] times [../]: the alternatives, the longest first. *)
Lemma plus_dotdots k r cap :
  PyStr.startswith r "../" = false ->
  forall n, String.length (dotdots k +:+ r) <= n ->
  Re.repeat_greedy (Re.rmatch (Re.Lit "../")) n (dotdots k +:+ r, cap)
  = map (fun j => (dotdots j +:+ r, cap)) (seq 0 k).
Proof.
  intros Hr. induction k as [|k IH]; intros n Hn.
  - change (dotdots 0 +:+ r) with r.
    assert (Re.rmatch (Re.Lit "../") (r, cap) = []) as E.
    { rewrite rmatch_lit. cbn [fst]. unfold PyStr.startswith in Hr.
      destruct (PyStr.strip_prefix "../" r); [discriminate|reflexivity]. }
    destruct n; cbn [Re.repeat_greedy]; rewrite E; reflexivity.
  - rewrite dotdots_S in *. cbn [String.length] in Hn.
    destruct n as [|n]; [lia|].
    cbn [Re.repeat_greedy]. rewrite rmatch_lit. cbn [fst snd].
    rewrite strip_prefix_dotdots. cbn [flat_map fst String.length].
    assert ((String.length (dotdots k +:+ r)
             <? S (S (S (String.length (dotdots k +:+ r))))) = true) as ->
      by (apply Nat.ltb_lt; lia).
    rewrite app_nil_r, IH by lia.
    rewrite seq_S, map_app. reflexivity.
Qed.

Lemma first_line_none r : starts_line r = false -> first_line r = "".
Proof.
  destruct r as [|c r]; [reflexivity|]. cbn.
  destruct (Ascii.eqb c PyStr.newline); [reflexivity|discriminate].
Qed.

Lemma path_stripper_tail st :
  Re.rmatch path_stripper st
  = flat_map (Re.rmatch stripper_tail)
      (Re.repeat_greedy (Re.rmatch (Re.Lit "../")) (String.length (fst st)) st
       ++ [st]).
Proof. reflexivity. Qed.

Lemma head_flat_map_nil {A B : Type} (f : A -> list B) x l :
  f x = [] -> flat_map f (x :: l) = flat_map f l.
Proof. intros H. cbn [flat_map]. now rewrite H. Qed.

Lemma path_stripper_selected k r :
  PyStr.startswith r "../" = false ->
  Re.match_group1 path_stripper (dotdots k +:+ r) = selected k r.
Proof.
  intros Hr. unfold Re.match_group1, selected.
  rewrite path_stripper_tail. cbn [fst].
  rewrite (plus_dotdots k r None Hr) by lia.
  destruct (tail_group r) as [g|] eqn:Hg.
  - destruct (tail_head r None g Hg) as (st & tl & E & Hst).
    destruct k as [|k].
    + cbn [seq map app flat_map]. change (dotdots 0 +:+ r) with r.
      rewrite E. exact Hst.
    + cbn [seq map app flat_map]. change (dotdots 0 +:+ r) with r.
      rewrite E. exact Hst.
  - assert (starts_line r = false) as Hs.
    { unfold tail_group in Hg. destruct (starts_line r); [|reflexivity].
      destruct (PyStr.strip_prefix "/" r); [destruct (starts_line s)|]; discriminate. }
    destruct k as [|k].
    + cbn [seq map app flat_map]. change (dotdots 0 +:+ r) with r.
      now rewrite tail_none.
    + assert (tail_group (dotdots 1 +:+ r) = Some "../") as Ht.
      { rewrite dotdots_S. change (dotdots 0 +:+ r) with r.
        unfold tail_group. cbn. now rewrite first_line_none. }
      destruct (tail_head _ None _ Ht) as (st & tl & E & Hst).
      destruct k as [|k]; cbn [seq map app]; change (dotdots 0 +:+ r) with r;
        (rewrite head_flat_map_nil by (now apply tail_none));
        cbn [flat_map]; rewrite E; exact Hst.
Qed.
Lemma strip_prefix_Some p s x : PyStr.strip_prefix p s = Some x -> s = p +:+ x.
Proof.
  revert s. induction p as [|a p IH]; intros s H.
  - injection H as ->. reflexivity.
  - destruct s as [|b s]; [discriminate|]. cbn [PyStr.strip_prefix] in H.
    destruct (Ascii.eqb a b) eqn:E; [|discriminate].
    apply Ascii.eqb_eq in E. subst b.
    change (String a p +:+ x) with (String a (p +:+ x)). f_equal. now apply IH.
Qed.

Lemma app_length a b : String.length (a +:+ b) = String.length a + String.length b.
Proof.
  induction a as [|c a IH]; [reflexivity|].
  change (String c a +:+ b) with (String c (a +:+ b)). cbn [String.length]. now rewrite IH.
Qed.

(** Every string is some [../] segments and a rest that has no more. *)
Lemma split_dotdots s :
  exists k r, s = dotdots k +:+ r /\ PyStr.startswith r "../" = false.
Proof.
  remember (String.length s) as n eqn:Hn.
  revert s Hn. induction n as [n IH] using lt_wf_ind. intros s Hn.
  destruct (PyStr.strip_prefix "../" s) as [x|] eqn:E.
  - apply strip_prefix_Some in E. subst s.
    destruct (IH (String.length x)) with (s := x) as (k & r & -> & Hr);
      [rewrite Hn, app_length; simpl; lia | reflexivity |].
    exists (S k), r. split; [|exact Hr]. now rewrite dotdots_S.
  - exists 0, s. split; [reflexivity|]. unfold PyStr.startswith. now rewrite E.
Qed.

Lemma first_line_one_line r : one_line r = true -> first_line r = r.
Proof.
  induction r as [|c r IH]; [reflexivity|]. cbn [one_line first_line].
  destruct (Ascii.eqb c PyStr.newline); [discriminate|]. cbn [negb andb].
  intros H. now rewrite IH.
Qed.

Lemma first_line_app a b :
  one_line a = true -> first_line (a +:+ b) = a +:+ first_line b.
Proof.
  induction a as [|c a IH]; [reflexivity|]. cbn [one_line].
  change (String c a +:+ b) with (String c (a +:+ b)).
  change (String c a +:+ first_line b) with (String c (a +:+ first_line b)).
  cbn [first_line].
  destruct (Ascii.eqb c PyStr.newline); [discriminate|]. cbn [negb andb].
  intros H. now rewrite IH.
Qed.

Lemma one_line_first_line s : one_line (first_line s) = true.
Proof.
  induction s as [|c s IH]; [reflexivity|]. cbn [first_line].
  destruct (Ascii.eqb c PyStr.newline) eqn:E; [reflexivity|].
  cbn [one_line]. now rewrite E.
Qed.

Lemma one_line_dotdots k : one_line (dotdots k) = true.
Proof. induction k as [|k IH]; [reflexivity|]. cbn. exact IH. Qed.

Lemma starts_line_first_line s : starts_line s = true -> first_line s <> "".
Proof.
  destruct s as [|c s]; [discriminate|]. cbn.
  destruct (Ascii.eqb c PyStr.newline); [discriminate|]. intros _. discriminate.
Qed.

Lemma tail_group_None r : tail_group r = None <-> starts_line r = false.
Proof.
  unfold tail_group. destruct (starts_line r); split; try discriminate; try reflexivity.
  destruct (PyStr.strip_prefix "/" r); [destruct (starts_line s)|]; discriminate.
Qed.

(** X1.  The path stripper on every source path.  A source path is [k]
    times [../] followed by a rest [r] that does not begin with [../].
    When [r] begins with a character other than a newline, the stripper
    selects the first line of [r] without one leading [/], or that [/]
    itself when no such character follows it.  Otherwise it selects [../]
    when [k] is positive, and does not match when [k] is zero. *)
Theorem path_stripper_on_every_path :
  (forall s, exists k r, s = dotdots k +:+ r /\ PyStr.startswith r "../" = false) /\
  (forall k r,
      PyStr.startswith r "../" = false ->
      Re.match_group1 path_stripper (dotdots k +:+ r)
      = if starts_line r then
          match PyStr.strip_prefix "/" r with
          | Some u => if starts_line u then Some (first_line u) else Some "/"
          | None => Some (first_line r)
          end
        else match k with O => None | S _ => Some "../" end).
Proof.
  split; [exact split_dotdots|].
  intros k r Hr. rewrite (path_stripper_selected k r Hr).
  unfold selected, tail_group.
  destruct (starts_line r); [|reflexivity].
  destruct (PyStr.strip_prefix "/" r) as [u|]; [destruct (starts_line u)|]; reflexivity.
Qed.

Lemma path_stripper_on_every_path_witness :
  Re.match_group1 path_stripper (dotdots 2 +:+ "out/obj/app") = Some "out/obj/app" /\
  Re.match_group1 path_stripper (dotdots 1 +:+ "") = Some "../".
Proof.
  split.
  - apply (proj2 path_stripper_on_every_path 2 "out/obj/app"). reflexivity.
  - apply (proj2 path_stripper_on_every_path 1 ""). reflexivity.
Defined.

Lemma selected_canonical j r :
  starts_line r = true -> one_line r = true -> PyStr.startswith r "/" = false ->
  selected j r = Some r /\ selected j ("/" +:+ r) = Some r.
Proof.
  intros Hs Hl Hslash. unfold selected, tail_group. split.
  - rewrite Hs. unfold PyStr.startswith in Hslash.
    destruct (PyStr.strip_prefix "/" r); [discriminate|].
    now rewrite first_line_one_line.
  - change ("/" +:+ r) with (String "/" r). cbn [starts_line PyStr.strip_prefix].
    change (Ascii.eqb "/" PyStr.newline) with false.
    change (Ascii.eqb "/" "/") with true. cbn [negb]. rewrite Hs.
    now rewrite first_line_one_line.
Qed.

(** X2.  On the paths the script is written for, the stripper does what
    its comment says: for a one-line path [r] that begins with neither
    [/] nor [../], any number of [../] and one [/] before [r] are dropped
    and [r] is kept whole; [r] itself is left as it is, so that stripping
    a second time changes nothing. *)
Theorem path_stripper_canonical (k : nat) (r : string) :
  starts_line r = true -> one_line r = true ->
  PyStr.startswith r "/" = false -> PyStr.startswith r "../" = false ->
  Re.match_group1 path_stripper (dotdots k +:+ r) = Some r /\
  Re.match_group1 path_stripper (dotdots k +:+ "/" +:+ r) = Some r /\
  Re.match_group1 path_stripper r = Some r.
Proof.
  intros Hs Hl Hslash Hdots.
  split; [|split].
  - rewrite path_stripper_selected by exact Hdots.
    apply (selected_canonical k r Hs Hl Hslash).
  - rewrite path_stripper_selected by reflexivity.
    apply (selected_canonical k r Hs Hl Hslash).
  - change r with (dotdots 0 +:+ r) at 1. rewrite path_stripper_selected by exact Hdots.
    apply (selected_canonical 0 r Hs Hl Hslash).
Qed.

Lemma path_stripper_canonical_witness :
  Re.match_group1 path_stripper (dotdots 2 +:+ "out/obj/app") = Some "out/obj/app" /\
  Re.match_group1 path_stripper (dotdots 2 +:+ "/" +:+ "out/obj/app") = Some "out/obj/app" /\
  Re.match_group1 path_stripper "out/obj/app" = Some "out/obj/app".
Proof.
  apply (path_stripper_canonical 2 "out/obj/app"); reflexivity.
Defined.

Lemma path_stripper_no_match_iff s :
  Re.match_group1 path_stripper s = None <-> starts_line s = false.
Proof.
  destruct (split_dotdots s) as (k & r & -> & Hr).
  rewrite path_stripper_selected by exact Hr. unfold selected.
  destruct (tail_group r) as [g|] eqn:Hg.
  - split; [discriminate|]. intros H. exfalso.
    assert (starts_line r = true) as Hs.
    { destruct (starts_line r) eqn:E; [reflexivity|].
      apply tail_group_None in E. congruence. }
    destruct k as [|k]; [change (dotdots 0 +:+ r) with r in H; congruence|].
    rewrite dotdots_S in H. discriminate.
  - apply tail_group_None in Hg.
    destruct k as [|k].
    + change (dotdots 0 +:+ r) with r. tauto.
    + rewrite dotdots_S. split; discriminate.
Qed.

(** X3.  The stripper fails to match exactly on the empty string and on
    a string that begins with a newline. *)
Theorem path_stripper_no_match (s : string) :
  Re.match_group1 path_stripper s = None <-> starts_line s = false.
Proof. apply path_stripper_no_match_iff. Qed.

Lemma path_stripper_no_match_witness :
  Re.match_group1 path_stripper "" = None /\ starts_line "../x" = true.
Proof.
  split.
  - apply (proj2 (path_stripper_no_match "")). reflexivity.
  - destruct (starts_line "../x") eqn:E; [reflexivity|].
    apply (proj2 (path_stripper_no_match "../x")) in E. discriminate.
Defined.

(** X4.  What the stripper selects is never empty and is the end of the
    first line of the source path: no character after the first newline
    reaches the canonical path. *)
Theorem path_stripper_selects_line_end (s g : string) :
  Re.match_group1 path_stripper s = Some g ->
  g <> "" /\ one_line g = true /\ exists pre, first_line s = pre +:+ g.
Proof.
  destruct (split_dotdots s) as (k & r & -> & Hr).
  rewrite path_stripper_selected by exact Hr.
  rewrite (first_line_app _ _ (one_line_dotdots k)).
  unfold selected, tail_group.
  destruct (starts_line r) eqn:Hs.
  - destruct (PyStr.strip_prefix "/" r) as [u|] eqn:Hu.
    + apply strip_prefix_Some in Hu. subst r.
      change ("/" +:+ u) with (String "/" u). cbn [first_line].
      change (Ascii.eqb "/" PyStr.newline) with false. cbv iota.
      destruct (starts_line u) eqn:Hsu; intros [= <-].
      * split; [now apply starts_line_first_line|].
        split; [apply one_line_first_line|].
        exists (dotdots k +:+ "/"). now rewrite append_assoc.
      * split; [discriminate|]. split; [reflexivity|].
        exists (dotdots k). now rewrite (first_line_none u Hsu).
    + intros [= <-]. split; [now apply starts_line_first_line|].
      split; [apply one_line_first_line|]. exists (dotdots k). reflexivity.
  - destruct k as [|k]; [discriminate|]. intros [= <-].
    split; [discriminate|]. split; [reflexivity|].
    exists (dotdots k). rewrite (first_line_none r Hs), append_nil_r.
    clear. induction k as [|k IH]; [reflexivity|].
    cbn [dotdots]. rewrite IH at 1. now rewrite append_assoc.
Qed.

Lemma path_stripper_selects_line_end_witness :
  "../foo" <> "" /\ one_line "../foo" = true /\
  exists pre, first_line "/../foo" = pre +:+ "../foo".
Proof.
  apply (path_stripper_selects_line_end "/../foo" "../foo"). reflexivity.
Defined.
(** ** The failures of the copy loop *)

Lemma io_result {A : Type} (x : result A * world) (a : result A) :
  fst x = a -> x = (a, snd x).
Proof. intros <-. apply surjective_pairing. Qed.

Lemma io_bind_fail {A B : Type} (m : io A) (k : A -> io B) w e w' :
  m w = (Raise e, w') -> (m ≫= k) w = (Raise e, w').
Proof. intros H. rewrite io_bind_unfold, H. reflexivity. Qed.

Lemma step_raise fs r c e :
  step fs r c = Raise e ->
  r = Raise e \/ e = FileNotFoundError \/ e = NotADirectoryError.
Proof.
  destruct r as [l|e0]; cbn; [|intros [= ->]; now left].
  destruct (fs !! l) as [[|]|]; intros [= <-]; auto.
Qed.

Lemma fold_step_raise_kind fs comps r e :
  fold_left (step fs) comps r = Raise e ->
  r = Raise e \/ e = FileNotFoundError \/ e = NotADirectoryError.
Proof.
  revert r. induction comps as [|c comps IH]; intros r H; [now left|].
  cbn [fold_left] in H. apply IH in H as [H|H]; [|now right].
  apply step_raise in H. exact H.
Qed.

Lemma namei_raise w p e :
  namei w p = Raise e -> e = FileNotFoundError \/ e = NotADirectoryError.
Proof.
  unfold namei. destruct (String.eqb p ""); [intros [= <-]; now left|].
  intros H. apply fold_step_raise_kind in H as [H|H]; [discriminate|exact H].
Qed.

Lemma read_file_raise p w e w' :
  read_file p w = (Raise e, w') -> is_OSError e = true.
Proof.
  unfold read_file. destruct (namei w p) as [l|e0] eqn:E.
  - destruct (files w !! l) as [[|]|]; intros [= <- _]; reflexivity.
  - intros [= <- _]. apply namei_raise in E as [->| ->]; reflexivity.
Qed.

Lemma create_raise_kind p d w e w' :
  create p d w = (Raise e, w') -> is_OSError e = true.
Proof.
  unfold create. destruct (namei w p) as [l|e0] eqn:E.
  - destruct (files w !! l) as [[|]|]; intros [= <- _]; reflexivity.
  - intros [= <- _]. apply namei_raise in E as [->| ->]; reflexivity.
Qed.

Lemma copyfile_raise src dst w e w' :
  copyfile src dst w = (Raise e, w') -> is_OSError e = true.
Proof.
  unfold copyfile. destruct (samefile w src dst); [intros [= <- _]; reflexivity|].
  intros H. apply io_bind_raise in H as [H|(d & w1 & _ & H)];
    [now apply read_file_raise in H|].
  apply io_bind_raise in H as [H|(l & w2 & _ & H)];
    [now apply create_raise_kind in H|discriminate].
Qed.

Lemma mkdir_p_raise cur comps w e w' :
  mkdir_p cur comps w = (Raise e, w') -> is_OSError e = true.
Proof.
  revert cur w. induction comps as [|c comps IH]; intros cur w H; [discriminate|].
  cbn [mkdir_p] in H.
  destruct (String.eqb c "" || String.eqb c "."); [now apply IH in H|].
  destruct (String.eqb c ".."); [now apply IH in H|].
  destruct (files w !! (cur ++ [c])) as [[|]|]; [|now apply IH in H|now apply IH in H].
  injection H as <- _. destruct (forallb _ comps); reflexivity.
Qed.

Lemma makedirs_raise p w e w' :
  makedirs p w = (Raise e, w') -> is_OSError e = true.
Proof.
  unfold makedirs. destruct (String.eqb p ""); [intros [= <- _]; reflexivity|].
  apply mkdir_p_raise.
Qed.

(** Once the stripper has matched, a turn of the copy loop fails in the
    file system or not at all. *)
Lemma copy_entry_raise_kind self d k s e w w' :
  starts_line s = true ->
  copy_entry self d (k, JString s) w = (Raise e, w') -> is_OSError e = true.
Proof.
  intros Hs H.
  destruct (Re.match_group1 path_stripper s) as [g|] eqn:Hg;
    [|apply path_stripper_no_match_iff in Hg; congruence].
  unfold copy_entry in H. cbn [fst snd Json.as_str] in H.
  apply io_bind_raise in H as [H|(s' & w1 & Hs' & H)]; [discriminate|].
  injection Hs' as <- <-.
  apply io_bind_raise in H as [H|(g' & w1 & Hg' & H)];
    [unfold lift in H; rewrite Hg in H; discriminate|].
  unfold lift in Hg'. rewrite Hg in Hg'. injection Hg' as <- <-.
  apply io_bind_raise in H as [H|([] & w1 & _ & H)];
    [now apply makedirs_raise in H|].
  apply io_bind_raise in H as [H|([] & w2 & _ & H)];
    [now apply copyfile_raise in H|discriminate].
Qed.

(** X5.  When a turn of the copy loop raises [AttributeError].  For a
    source path that is a string, [m.group(1)] raises [AttributeError]
    exactly when the path is empty or begins with a newline, the paths
    the stripper does not match; it does so before anything is touched,
    so that the file system is as the turns before have left it. *)
Theorem copy_entry_attribute_error (self : t) (d : manifest) (k s : string)
    (w : world) :
  (starts_line s = false ->
   copy_entry self d (k, JString s) w = (Raise AttributeError, w)) /\
  (forall w', copy_entry self d (k, JString s) w = (Raise AttributeError, w') ->
              starts_line s = false).
Proof.
  split.
  - intros Hs. apply path_stripper_no_match_iff in Hs.
    unfold copy_entry. cbn [fst snd Json.as_str].
    unfold mbind, io_bind, lift. rewrite Hs. reflexivity.
  - intros w' H. destruct (starts_line s) eqn:Hs; [|reflexivity].
    apply (copy_entry_raise_kind self d k s _ w w' Hs) in H. discriminate.
Qed.

Lemma copy_entry_attribute_error_witness :
  copy_entry bare_self [] ("bin/app", JString "") bare = (Raise AttributeError, bare).
Proof.
  apply (proj1 (copy_entry_attribute_error bare_self [] "bin/app" "" bare)).
  reflexivity.
Defined.

(** ** A source path that begins with two slashes *)

Lemma namei_abs w x :
  namei w (String "/" x)
  = fold_left (step (files w)) (PyStr.split_slash x) (step (files w) (Ok []) "").
Proof. reflexivity. Qed.

Lemma step_root_twice fs :
  step fs (step fs (Ok []) "") "" = step fs (Ok []) "".
Proof.
  unfold step. cbn [mbind result_bind].
  destruct (fs !! []) as [[|]|] eqn:F; cbn [mbind result_bind orb String.eqb];
    [reflexivity | rewrite F; reflexivity | reflexivity].
Qed.

Lemma namei_double_slash w x :
  namei w ("//" +:+ x) = namei w ("/" +:+ x).
Proof.
  change ("//" +:+ x) with (String "/" (String "/" x)).
  change ("/" +:+ x) with (String "/" x).
  rewrite (namei_abs w (String "/" x)), (namei_abs w x).
  change (PyStr.split_slash (String "/" x)) with ("" :: PyStr.split_slash x).
  cbn [fold_left]. now rewrite step_root_twice.
Qed.

(** X6.  A source path that begins with two slashes is never copied.
    The stripper drops one slash only, [os.path.join] discards the output
    directory before what is still an absolute path, and the destination
    is the source itself: [copyfile] cannot succeed. *)
Theorem copy_entry_double_slash (self : t) (d d' : manifest) (k rest : string)
    (w w' : world) :
  one_line rest = true ->
  Re.match_group1 path_stripper ("//" +:+ rest) = Some ("/" +:+ rest) /\
  PosixPath.join (output_dir self) ("/" +:+ rest) = "/" +:+ rest /\
  copy_entry self d (k, JString ("//" +:+ rest)) w <> (Ok d', w').
Proof.
  intros Hl.
  assert (Hg : Re.match_group1 path_stripper ("//" +:+ rest) = Some ("/" +:+ rest)).
  { change ("//" +:+ rest) with (dotdots 0 +:+ String "/" (String "/" rest)).
    rewrite path_stripper_selected by reflexivity.
    unfold selected, tail_group.
    cbn [starts_line PyStr.strip_prefix first_line].
    change (Ascii.eqb "/" PyStr.newline) with false.
    change (Ascii.eqb "/" "/") with true. cbn [negb].
    now rewrite first_line_one_line. }
  split; [exact Hg|]. split; [reflexivity|].
  intros H. apply copy_entry_ok in H as (s & g & w1 & Hs & Hg' & _ & Hcp & _).
  cbn [snd] in Hs. injection Hs as <-. rewrite Hg in Hg'. injection Hg' as <-.
  change (PosixPath.join (output_dir self) ("/" +:+ rest)) with ("/" +:+ rest) in Hcp.
  apply copyfile_ok in Hcp as (dt & l & Hsame & Hrd & Hn & _).
  unfold read_file in Hrd. unfold samefile in Hsame.
  rewrite namei_double_slash, Hn in *.
  destruct (files w1 !! l) as [[|]|]; try discriminate.
  now rewrite bool_decide_eq_true_2 in Hsame.
Qed.

Lemma copy_entry_double_slash_witness :
  Re.match_group1 path_stripper ("//" +:+ "meta.far") = Some ("/" +:+ "meta.far") /\
  PosixPath.join (output_dir bare_self) ("/" +:+ "meta.far") = "/" +:+ "meta.far" /\
  copy_entry bare_self [] ("bin/app", JString ("//" +:+ "meta.far")) bare
  <> (Ok [], bare).
Proof.
  apply (copy_entry_double_slash bare_self [] [] "bin/app" "meta.far" bare bare).
  reflexivity.
Defined.

(** ** The output directory has to be there *)

(** X8.  [run] does not make the output directory before it copies the
    metadata archive into it.  When the manifest loads and the metadata
    archive can be read, but the output directory does not exist in its
    parent, the run stops with [FileNotFoundError] at [copy_meta_far] and
    has changed nothing. *)
Theorem run_without_output_dir (json_loads : decoder) (self : t)
    (w : world) (d0 : manifest) (deps : string) (R : loc) (far : data) :
  load json_loads self w = (Ok (d0, deps), w) ->
  namei w (output_dir self) = Ok R ->
  files w !! R = None ->
  read_file (meta_far_path self) w = (Ok far, w) ->
  copy_meta_far self w = (Raise FileNotFoundError, w) /\
  run json_loads self w = (Raise FileNotFoundError, w).
Proof.
  intros Hload HR Hnone Hread.
  assert (Hn : namei w (PosixPath.join (output_dir self) "meta.far")
               = Raise FileNotFoundError).
  { rewrite (namei_join w _ "meta.far" R HR) by reflexivity.
    cbn. rewrite Hnone. reflexivity. }
  assert (Hc : copy_meta_far self w = (Raise FileNotFoundError, w)).
  { unfold copy_meta_far, copyfile, samefile. rewrite Hn.
    destruct (namei w (meta_far_path self)); cbv iota.
    - rewrite io_bind_unfold, Hread. rewrite io_bind_unfold.
      unfold create. rewrite Hn. reflexivity.
    - rewrite io_bind_unfold, Hread. rewrite io_bind_unfold.
      unfold create. rewrite Hn. reflexivity. }
  split; [exact Hc|].
  rewrite load_collect_run. apply io_bind_fail.
  unfold stages. rewrite (io_bind_step _ _ _ _ _ Hload). cbn [fst snd].
  apply io_bind_fail. unfold collect. now apply io_bind_fail.
Qed.

Lemma run_without_output_dir_witness :
  copy_meta_far bare_self bare = (Raise FileNotFoundError, bare) /\
  run (fun _ => Ok empty_manifest_json) bare_self bare
  = (Raise FileNotFoundError, bare).
Proof.
  apply (run_without_output_dir (fun _ => Ok empty_manifest_json) bare_self bare
           [] "" ["out"] (Bytes "FAR")); reflexivity.
Defined.
(** ** The archive of an output directory that is not empty *)

Lemma arcname_clean rel :
  rel <> [] -> Forall clean_comp rel ->
  PyStr.lstrip_slash (arcname_of rel) = arcname rel.
Proof.
  intros Hne Hall. unfold arcname_of.
  pose proof (Forall_last _ _ "" Hne Hall) as Hlast.
  pose proof (Forall_removelast _ _ Hall) as Hdirs.
  destruct (removelast rel) as [|d1 dirs] eqn:E.
  - assert (rel = [List.last rel ""]) as Hrel
      by (rewrite (removelast_last rel "" Hne) at 1; now rewrite E).
    rewrite Hrel at 2. cbn [relpath_of_walk arcname].
    rewrite (join_slashed "." _ (clean_comp_startswith _ Hlast)). reflexivity.
  - assert (rel = (d1 :: dirs) ++ [List.last rel ""]) as Hrel
      by (rewrite (removelast_last rel "" Hne) at 1; now rewrite E).
    assert (arcname rel = PyStr.join "/" rel) as ->.
    { rewrite Hrel. destruct dirs; reflexivity. }
    rewrite Hrel at 2. cbn [relpath_of_walk].
    rewrite (join_slashed _ _ (clean_comp_startswith _ Hlast)).
    rewrite pystr_join_snoc by discriminate.
    rewrite slashed_join_clean by (discriminate || exact Hdirs).
    rewrite append_assoc.
    inversion Hdirs as [|? ? Hd1 _]; subst.
    destruct dirs as [|d2 dirs].
    + cbn [PyStr.join]. now apply lstrip_slash_clean.
    + rewrite pystr_join_cons by discriminate. rewrite !append_assoc.
      now apply lstrip_slash_clean.
Qed.

Lemma tar_open_raise p w e w' : tar_open p w = (Raise e, w') -> w' = w.
Proof.
  unfold tar_open. intros H.
  apply io_bind_raise in H as [H|(h & w1 & _ & H)]; [eapply create_raise, H|].
  apply io_bind_raise in H as [H|(u & w2 & _ & H)]; discriminate.
Qed.

Lemma NoDup_omap_filter {A B C K : Type} (f : A -> option (B * C)) (g : A -> K)
    (P : A -> Prop) `{forall a, Decision (P a)} (l : list A) :
  NoDup (map g l) ->
  (forall a a' m m', a ∈ l -> a' ∈ l -> P a -> P a' ->
     f a = Some m -> f a' = Some m' -> fst m = fst m' -> g a = g a') ->
  NoDup (map fst (omap f (filter P l))).
Proof.
  induction l as [|a l IH]; intros Hnd Hinj; [apply NoDup_nil; exact I|].
  cbn [map] in Hnd. apply NoDup_cons in Hnd as [Hfresh Hnd].
  assert (IH' : NoDup (map fst (omap f (filter P l)))).
  { apply IH; [exact Hnd|]. intros a1 a2 m1 m2 H1 H2.
    apply Hinj; apply list_elem_of_further; assumption. }
  rewrite filter_cons. destruct (decide (P a)) as [HP|HP]; [|exact IH'].
  cbn [omap list_omap]. destruct (f a) as [m|] eqn:E; [|exact IH'].
  cbn [map]. apply NoDup_cons. split; [|exact IH'].
  intros Hin. apply Hfresh. apply elem_of_map in Hin as (m' & Hm & Hin).
  apply list_elem_of_omap in Hin as (a' & Ha' & E').
  apply list_elem_of_filter in Ha' as [HP' Ha'].
  rewrite (Hinj a a' m m' (list_elem_of_here _ _) (list_elem_of_further _ _ _ Ha')
             HP HP' E E' Hm).
  apply elem_of_map_2, Ha'.
Qed.

Lemma arcname_top_not_join n a b l :
  clean_comp a -> "./" +:+ n <> PyStr.join "/" (a :: b :: l).
Proof.
  intros (Hne & Hdot & _ & Hs) E.
  rewrite pystr_join_cons in E by discriminate.
  destruct a as [|c [|c2 a2]]; [congruence| |].
  - cbn in E. injection E as <- _. congruence.
  - cbn in E. injection E as _ <- _. cbn in Hs.
    rewrite orb_true_r in Hs. discriminate.
Qed.

Lemma arcname_inj rel rel' :
  rel <> [] -> Forall clean_comp rel -> rel' <> [] -> Forall clean_comp rel' ->
  arcname rel = arcname rel' -> rel = rel'.
Proof.
  intros Hne Hc Hne' Hc' E.
  destruct rel as [|a [|b l]]; [congruence| |];
    destruct rel' as [|a' [|b' l']]; try congruence.
  - cbn in E. injection E as E. change ("" +:+ a) with a in E. change ("" +:+ a') with a' in E. congruence.
  - exfalso. inversion Hc'; subst.
    now apply (arcname_top_not_join a a' b' l').
  - exfalso. inversion Hc; subst. symmetry in E.
    now apply (arcname_top_not_join a' a b l).
  - apply join_clean_inj; assumption.
Qed.

(** [archive_output] from start to end, on whatever the output directory
    holds; no two members have the same header. *)
Lemma archive_output_full self w R :
  namei w (output_dir self) = Ok R ->
  files w !! R = Some Dir ->
  files w !! (R ++ ["package.tar"]) <> Some Dir ->
  (forall rel, rel <> [] -> is_file (files w) (R ++ rel) -> Forall clean_comp rel) ->
  exists w4 ms,
    archive_output self (tar_path_of self) w = (Ok tt, w4) /\
    cwd w4 = cwd w /\
    files w4 !! (R ++ ["package.tar"]) = Some (File (Archive ms)) /\
    (forall m, m ∈ ms <->
               exists rel d,
                 rel <> [] /\ rel <> ["package.tar"] /\
                 files w !! (R ++ rel) = Some (File d) /\
                 m = (create_gnu_header (PyStr.lstrip_slash (arcname_of rel)), d)) /\
    (forall k, k <> R ++ ["package.tar"] -> below R k -> is_file (files w) k ->
               files w4 !! k = None) /\
    (forall k, k <> R ++ ["package.tar"] -> ~ (below R k /\ is_file (files w) k) ->
               files w4 !! k = files w !! k) /\
    NoDup (map fst ms).
Proof.
  intros HR HRd Htd Hclean.
  set (t := R ++ ["package.tar"]) in *.
  assert (Hn : namei w (tar_path_of self) = Ok t).
  { unfold tar_path_of. rewrite (namei_join w _ "package.tar" R HR) by reflexivity.
    change (PyStr.split_slash "package.tar") with ["package.tar"]. cbn [fold_left].
    apply clean_comp_step; [|exact HRd]. repeat split; discriminate. }
  set (w1 := emit (EvTarOpen (tar_path_of self))
               (set_files (insert t (File (Archive []))) w)).
  assert (Ho : tar_open (tar_path_of self) w = (Ok t, w1)).
  { unfold tar_open.
    assert (create (tar_path_of self) (Archive []) w
            = (Ok t, set_files (insert t (File (Archive []))) w)) as Hc.
    { unfold create. rewrite Hn.
      destruct (files w !! t) as [[|]|]; [reflexivity | contradiction | reflexivity]. }
    rewrite (io_bind_step _ _ _ _ _ Hc). reflexivity. }
  assert (Hf1 : forall k, k <> t -> files w1 !! k = files w !! k).
  { intros k Hk. unfold w1. simpl. apply lookup_insert_ne. congruence. }
  assert (Ht1 : files w1 !! t = Some (File (Archive []))).
  { unfold w1. simpl. apply lookup_insert_eq. }
  assert (HRt : R <> t).
  { unfold t. intros E. apply (f_equal length) in E. rewrite length_app in E.
    simpl in E. lia. }
  assert (HR1 : namei w1 (output_dir self) = Ok R).
  { apply (namei_mono w w1 _ R); [reflexivity| |exact HR].
    unfold w1. simpl. apply dirs_le_insert_file, Htd. }
  assert (HRd1 : files w1 !! R = Some Dir) by (rewrite Hf1; assumption).
  set (es := omap (entry_of R) (map_to_list (files w1))).
  assert (Hes : forall e, e ∈ es <->
            exists rel d, rel <> [] /\ files w1 !! (R ++ rel) = Some (File d) /\
              e = WalkEntry (removelast rel) (List.last rel "") (R ++ rel))
    by (intros e; apply elem_of_entries).
  assert (Hrel : forall rel, R ++ rel = t <-> rel = ["package.tar"]).
  { intros rel. unfold t. split; [apply app_inv_head | intros ->; reflexivity]. }
  destruct (archive_loop self (tar_path_of self) t es w1 [] Ht1)
    as (w' & Hrun & Hcwd & Harch & Hrest).
  { apply entries_NoDup, NoDup_fst_map_to_list. }
  { intros e He. apply Hes in He as (rel & d & _ & Hfile & ->). exists d. exact Hfile. }
  { intros e He. apply Hes in He as (rel & d & Hne & Hfile & ->). cbn [we_loc].
    rewrite Hrel. apply skipped_iff; [exact Hne|].
    destruct (decide (R ++ rel = t)) as [E|E].
    - apply Hrel in E. subst rel. apply clean_package_tar.
    - apply Hclean; [exact Hne|]. exists d. rewrite <- Hf1; assumption. }
  assert (Hin : forall k, k <> t ->
            (k ∈ map we_loc es <-> below R k /\ is_file (files w) k)).
  { intros k Hk. split.
    - intros H. apply elem_of_map in H as (e & -> & He).
      apply Hes in He as (rel & d & Hrne & Hfile & ->). cbn [we_loc] in *.
      split; [exists rel; auto|]. exists d. rewrite <- Hf1; assumption.
    - intros ((rel & Hrne & ->) & (d & Hd)).
      change (R ++ rel)
        with (we_loc (WalkEntry (removelast rel) (List.last rel "") (R ++ rel))).
      apply elem_of_map_2, Hes. exists rel, d. rewrite Hf1 by exact Hk. auto. }
  exists w', (omap (member_of (files w1)) (filter (fun e => we_loc e <> t) es)).
  split; [|split; [|split; [|split; [|split; [|split]]]]].
  - unfold archive_output. rewrite (io_bind_step _ _ _ _ _ Ho).
    rewrite io_bind_unfold. rewrite (walk_unfold _ _ _ HR1 HRd1). exact Hrun.
  - rewrite Hcwd. reflexivity.
  - exact Harch.
  - intros m. rewrite list_elem_of_omap. split.
    + intros (e & He & Hm). apply list_elem_of_filter in He as [Hne He].
      apply Hes in He as (rel & d & Hrne & Hfile & ->). cbn [we_loc] in *.
      unfold member_of in Hm. cbn [we_loc we_dirs we_name] in Hm. rewrite Hfile in Hm.
      injection Hm as <-. exists rel, d. split; [exact Hrne|].
      split; [intros E; apply Hne, Hrel, E|]. split; [|reflexivity].
      rewrite <- Hf1; assumption.
    + intros (rel & d & Hrne & Hnt & Hfile & ->).
      assert (Hne : R ++ rel <> t) by (intros E; apply Hnt, Hrel, E).
      exists (WalkEntry (removelast rel) (List.last rel "") (R ++ rel)). split.
      * apply list_elem_of_filter. split; [exact Hne|]. apply Hes.
        exists rel, d. rewrite Hf1 by exact Hne. auto.
      * unfold member_of. cbn [we_loc we_dirs we_name].
        rewrite Hf1 by exact Hne. rewrite Hfile. reflexivity.
  - intros k Hk Hb Hf. rewrite (Hrest k Hk).
    rewrite bool_decide_eq_true_2; [reflexivity|]. apply Hin; auto.
  - intros k Hk Hno. rewrite (Hrest k Hk).
    rewrite bool_decide_eq_false_2; [apply Hf1, Hk|].
    intros H. apply Hno, Hin; assumption.
  - apply (NoDup_omap_filter _ we_loc).
    + apply entries_NoDup, NoDup_fst_map_to_list.
    + intros e e' m m' He He' Hne Hne' Hm Hm' Hfst.
      apply Hes in He as (rel & d & Hrne & Hfile & ->).
      apply Hes in He' as (rel' & d' & Hrne' & Hfile' & ->).
      cbn [we_loc] in *. unfold member_of in Hm, Hm'.
      cbn [we_loc we_dirs we_name] in Hm, Hm'.
      rewrite Hfile in Hm. rewrite Hfile' in Hm'.
      injection Hm as <-. injection Hm' as <-. cbn [fst] in Hfst.
      change (PosixPath.join (relpath_of_walk (removelast rel)) (List.last rel ""))
        with (arcname_of rel) in Hfst.
      change (PosixPath.join (relpath_of_walk (removelast rel')) (List.last rel' ""))
        with (arcname_of rel') in Hfst.
      assert (Hc : Forall clean_comp rel)
        by (apply Hclean; [exact Hrne|]; exists d; rewrite <- Hf1; assumption).
      assert (Hc' : Forall clean_comp rel')
        by (apply Hclean; [exact Hrne'|]; exists d'; rewrite <- Hf1; assumption).
      rewrite !arcname_clean in Hfst by assumption.
      apply (f_equal member_name) in Hfst. rewrite !member_name_header in Hfst.
      f_equal. apply arcname_inj; assumption.
Qed.

Lemma archive_output_run self w R :
  namei w (output_dir self) = Ok R ->
  files w !! R = Some Dir ->
  files w !! (R ++ ["package.tar"]) <> Some Dir ->
  (forall rel, rel <> [] -> is_file (files w) (R ++ rel) -> Forall clean_comp rel) ->
  exists w4 ms,
    archive_output self (tar_path_of self) w = (Ok tt, w4) /\
    cwd w4 = cwd w /\
    files w4 !! (R ++ ["package.tar"]) = Some (File (Archive ms)) /\
    (forall m, m ∈ ms <->
               exists rel d,
                 rel <> [] /\ rel <> ["package.tar"] /\
                 files w !! (R ++ rel) = Some (File d) /\
                 m = (create_gnu_header (PyStr.lstrip_slash (arcname_of rel)), d)) /\
    (forall k, k <> R ++ ["package.tar"] -> below R k -> is_file (files w) k ->
               files w4 !! k = None) /\
    (forall k, k <> R ++ ["package.tar"] -> ~ (below R k /\ is_file (files w) k) ->
               files w4 !! k = files w !! k).
Proof.
  intros HR HRd Htd Hclean.
  destruct (archive_output_full self w R HR HRd Htd Hclean)
    as (w4 & ms & H1 & H2 & H3 & H4 & H5 & H6 & _).
  exists w4, ms. exact (conj H1 (conj H2 (conj H3 (conj H4 (conj H5 H6))))).
Qed.

(** A successful [archive_output] found the output directory and no
    directory in the place of the archive. *)
Lemma archive_output_opened self w w4 R :
  namei w (output_dir self) = Ok R ->
  archive_output self (tar_path_of self) w = (Ok tt, w4) ->
  files w !! R = Some Dir /\ files w !! (R ++ ["package.tar"]) <> Some Dir.
Proof.
  intros HR H. unfold archive_output in H.
  apply io_bind_ok in H as (t & w1 & Ho & _).
  apply tar_open_ok in Ho as (Hn & Hd & _).
  destruct (namei_join_clean w (output_dir self) ["package.tar"] R t HR
              ltac:(discriminate) clean_package_tar Hn) as [-> HRd].
  auto.
Qed.

(** X9.  [archive_output] sweeps the output directory, whatever it finds
    there.  Every regular file below the output directory, left by an
    earlier run or not, becomes a member of the new archive with the
    content it has and is then removed; the one exception is
    [package.tar] at the top, which is replaced by the new archive.  A
    file at the top is named [./name] in the archive, a file further
    down by its names joined by slashes.  Directories stay where they
    are, and nothing outside the output directory changes. *)
Theorem archive_output_sweeps (self : t) (w w4 : world) (R : loc) :
  namei w (output_dir self) = Ok R ->
  (forall rel, rel <> [] -> is_file (files w) (R ++ rel) -> Forall clean_comp rel) ->
  archive_output self (tar_path_of self) w = (Ok tt, w4) ->
  exists ms,
    archive_at w4 (R ++ ["package.tar"]) = Some ms /\
    (forall n d, (n, d) ∈ map member_view ms <->
                 exists rel,
                   rel <> [] /\ rel <> ["package.tar"] /\
                   files w !! (R ++ rel) = Some (File d) /\ n = arcname rel) /\
    (forall k, below R k -> is_file (files w) k -> k <> R ++ ["package.tar"] ->
               files w4 !! k = None) /\
    (forall k, files w !! k = Some Dir -> files w4 !! k = Some Dir) /\
    (forall k, ~ below R k -> files w4 !! k = files w !! k).
Proof.
  intros HR Hclean H.
  destruct (archive_output_opened self w w4 R HR H) as [HRd Htd].
  destruct (archive_output_run self w R HR HRd Htd Hclean)
    as (w4' & ms & Hrun & _ & Harch & Hms & Hgone & Hsame).
  rewrite Hrun in H. injection H as <-.
  exists ms. split; [unfold archive_at; now rewrite Harch|].
  split; [|split; [|split]].
  - intros n d. rewrite elem_of_map. split.
    + intros (m & Hm & Hin). apply Hms in Hin as (rel & d' & Hne & Hnt & Hf & ->).
      unfold member_view in Hm. cbn [fst snd] in Hm. rewrite member_name_header in Hm.
      injection Hm as -> ->. exists rel. repeat split; try assumption.
      apply arcname_clean; [exact Hne|]. apply Hclean; [exact Hne|]. now exists d'.
    + intros (rel & Hne & Hnt & Hf & ->).
      exists (create_gnu_header (PyStr.lstrip_slash (arcname_of rel)), d). split.
      * unfold member_view. cbn [fst snd]. rewrite member_name_header.
        f_equal. symmetry. apply arcname_clean; [exact Hne|].
        apply Hclean; [exact Hne|]. now exists d.
      * apply Hms. exists rel, d. auto.
  - intros k Hb Hf Hk. now apply Hgone.
  - intros k Hd. rewrite Hsame; [exact Hd| |].
    + intros ->. contradiction.
    + intros [_ (d & Hf)]. congruence.
  - intros k Hk. apply Hsame.
    + intros ->. apply Hk. exists ["package.tar"]. split; [discriminate|reflexivity].
    + intros [Hb _]. contradiction.
Qed.

Lemma archive_output_raise self w R e w' :
  namei w (output_dir self) = Ok R ->
  (forall rel, rel <> [] -> is_file (files w) (R ++ rel) -> Forall clean_comp rel) ->
  archive_output self (tar_path_of self) w = (Raise e, w') ->
  tar_open (tar_path_of self) w = (Raise e, w) /\ w' = w.
Proof.
  intros HR Hclean H.
  destruct (tar_open (tar_path_of self) w) as [[t|e0] w1] eqn:Ho.
  - exfalso. apply tar_open_ok in Ho as (Hn & Hd & _).
    destruct (namei_join_clean w (output_dir self) ["package.tar"] R t HR
                ltac:(discriminate) clean_package_tar Hn) as [-> HRd].
    destruct (archive_output_run self w R HR HRd Hd Hclean) as (w4 & ms & Hrun & _).
    congruence.
  - pose proof (tar_open_raise _ _ _ _ Ho) as ->.
    unfold archive_output in H. rewrite (io_bind_fail _ _ _ _ _ Ho) in H.
    injection H as <- <-. auto.
Qed.

(** X10.  Once the archive is open, [archive_output] cannot fail.  When
    the output directory exists and no directory is in the place of
    [package.tar], the archive is written; and if [archive_output] raises,
    the exception is that of opening the archive and nothing was
    changed. *)
Theorem archive_output_fails_at_open_only (self : t) (w : world) (R : loc) :
  namei w (output_dir self) = Ok R ->
  (forall rel, rel <> [] -> is_file (files w) (R ++ rel) -> Forall clean_comp rel) ->
  (files w !! R = Some Dir -> files w !! (R ++ ["package.tar"]) <> Some Dir ->
   exists w4, archive_output self (tar_path_of self) w = (Ok tt, w4)) /\
  (forall e w', archive_output self (tar_path_of self) w = (Raise e, w') ->
                tar_open (tar_path_of self) w = (Raise e, w) /\ w' = w).
Proof.
  intros HR Hclean. split.
  - intros HRd Htd.
    destruct (archive_output_run self w R HR HRd Htd Hclean) as (w4 & ms & Hrun & _).
    exists w4. exact Hrun.
  - intros e w' H. now apply (archive_output_raise self w R).
Qed.

(** The file names of [stale] are plain names. *)
Ltac plain_names H :=
  apply elem_of_map_to_list in H; vm_compute in H;
  repeat (apply elem_of_cons in H as [H|H];
          [first [discriminate H
                 | injection H as -> _; repeat constructor; discriminate] |]);
  inversion H.

Lemma archive_output_sweeps_witness :
  exists ms,
    archive_at (snd (archive_output bare_self (tar_path_of bare_self) stale))
      (["out"] ++ ["package.tar"]) = Some ms /\
    (forall n d, (n, d) ∈ map member_view ms <->
                 exists rel,
                   rel <> [] /\ rel <> ["package.tar"] /\
                   files stale !! (["out"] ++ rel) = Some (File d) /\ n = arcname rel) /\
    (forall k, below ["out"] k -> is_file (files stale) k ->
               k <> ["out"] ++ ["package.tar"] ->
               files (snd (archive_output bare_self (tar_path_of bare_self) stale)) !! k
               = None) /\
    (forall k, files stale !! k = Some Dir ->
               files (snd (archive_output bare_self (tar_path_of bare_self) stale)) !! k
               = Some Dir) /\
    (forall k, ~ below ["out"] k ->
               files (snd (archive_output bare_self (tar_path_of bare_self) stale)) !! k
               = files stale !! k).
Proof.
  apply (archive_output_sweeps bare_self stale _ ["out"]).
  - reflexivity.
  - intros rel Hne (d & Hf). plain_names Hf.
  - vm_compute. reflexivity.
Defined.

Lemma archive_output_fails_at_open_only_witness :
  exists w4, archive_output bare_self (tar_path_of bare_self) stale = (Ok tt, w4).
Proof.
  apply (proj1 (archive_output_fails_at_open_only bare_self stale ["out"] eq_refl
                  (fun rel Hne Hf =>
                     ltac:(destruct Hf as (d & Hf); plain_names Hf)))).
  - reflexivity.
  - vm_compute. discriminate.
Defined.

(** ** What the script never deletes *)

Lemma grows_fwrite T h text w r w' : fwrite h text w = (r, w') -> grows T w w'.
Proof.
  unfold fwrite. intros [= <- <-]. unfold grows. cbn [cwd files set_files].
  split; [reflexivity|]. split; [|split].
  - intros k Hk. destruct (decide (h = k)) as [->|Hne].
    + rewrite lookup_alter_eq, Hk. reflexivity.
    + rewrite lookup_alter_ne by exact Hne. exact Hk.
  - intros k (d & Hk). unfold is_file. destruct (decide (h = k)) as [->|Hne].
    + rewrite lookup_alter_eq, Hk. destruct d; eexists; reflexivity.
    + rewrite lookup_alter_ne by exact Hne. now exists d.
  - intros k (d & Hk). left. unfold is_file. destruct (decide (h = k)) as [->|Hne].
    + rewrite lookup_alter_eq in Hk. destruct (files w !! k) as [[d0|]|]; [|discriminate..].
      now exists d0.
    + rewrite lookup_alter_ne in Hk by exact Hne. now exists d.
Qed.

Section Grows.

Variables Q T : loc -> Prop.
Hypothesis HT : forall w p l, Q (cwd w) -> namei w p = Ok l -> T l.

Lemma io_grows_ret {A : Type} (a : A) : io_grows Q T (mret a).
Proof using HT. intros w r w' _ [= <- <-]. apply grows_refl. Qed.

Lemma io_grows_lift {A : Type} (x : result A) : io_grows Q T (lift x).
Proof using HT. intros w r w' _ [= <- <-]. apply grows_refl. Qed.

Lemma io_grows_bind {A B : Type} (m : io A) (k : A -> io B) :
  io_grows Q T m -> (forall a, io_grows Q T (k a)) -> io_grows Q T (m ≫= k).
Proof using HT.
  intros Hm Hk w r w' HQ H. rewrite io_bind_unfold in H.
  destruct (m w) as [[a|e] w1] eqn:E.
  - pose proof (Hm _ _ _ HQ E) as H1. eapply grows_trans; [exact H1|].
    apply (Hk a w1 r w'); [|exact H]. destruct H1 as (-> & _). exact HQ.
  - injection H as <- <-. apply (Hm _ _ _ HQ E).
Qed.

Lemma io_grows_for_each {A : Type} (l : list A) (body : A -> io unit) :
  (forall a, io_grows Q T (body a)) -> io_grows Q T (for_each l body).
Proof using HT.
  intros Hb. induction l as [|a l IH]; cbn [for_each].
  - apply io_grows_ret.
  - apply io_grows_bind; [apply Hb | intros _; exact IH].
Qed.

Lemma io_grows_log_event e : io_grows Q T (log_event e).
Proof using HT. intros w r w' _ [= <- <-]. apply grows_emit, grows_refl. Qed.

Lemma io_grows_read_file p : io_grows Q T (read_file p).
Proof using HT.
  intros w r w' _ H. apply read_file_world in H as ->. apply grows_refl.
Qed.

Lemma io_grows_create p d : io_grows Q T (create p d).
Proof using HT.
  intros w r w' HQ H. destruct r as [l|e].
  - apply create_ok in H as (Hn & Hd & ->).
    apply grows_insert_file; [exact Hd | exact (HT w p l HQ Hn)].
  - apply create_raise in H as ->. apply grows_refl.
Qed.

Lemma io_grows_open_write p : io_grows Q T (open_write p).
Proof using HT.
  unfold open_write. apply io_grows_bind; [apply io_grows_create|]. intros h.
  apply io_grows_bind; [apply io_grows_log_event | intros _; apply io_grows_ret].
Qed.

Lemma io_grows_fwrite h text : io_grows Q T (fwrite h text).
Proof using HT. intros w r w' _ H. eapply grows_fwrite, H. Qed.

Lemma io_grows_copyfile src dst : io_grows Q T (copyfile src dst).
Proof using HT.
  intros w r w' HQ H. unfold copyfile in H.
  destruct (samefile w src dst); [injection H as <- <-; apply grows_refl|].
  revert H. apply io_grows_bind; [apply io_grows_read_file | | exact HQ]. intros d.
  apply io_grows_bind; [apply io_grows_create|]. intros _. apply io_grows_log_event.
Qed.

Lemma io_grows_makedirs p : io_grows Q T (makedirs p).
Proof using HT. intros w r w' _ H. eapply makedirs_grows, H. Qed.

Lemma io_grows_copy_entry self d item : io_grows Q T (copy_entry self d item).
Proof using HT.
  unfold copy_entry. cbv zeta.
  apply io_grows_bind; [apply io_grows_lift|]. intros s.
  apply io_grows_bind; [apply io_grows_lift|]. intros g.
  apply io_grows_bind; [apply io_grows_makedirs|]. intros _.
  apply io_grows_bind; [apply io_grows_copyfile|]. intros _.
  apply io_grows_ret.
Qed.

Lemma io_grows_copy_loop self items d : io_grows Q T (copy_loop self items d).
Proof using HT.
  revert d. induction items as [|item items IH]; intros d; cbn [copy_loop].
  - apply io_grows_ret.
  - apply io_grows_bind; [apply io_grows_copy_entry | intros d'; apply IH].
Qed.

Lemma io_grows_write_new_manifest self d :
  io_grows Q T (write_new_manifest self d).
Proof using HT.
  unfold write_new_manifest.
  apply io_grows_bind; [apply io_grows_open_write|]. intros f.
  apply io_grows_bind; [|intros _; apply io_grows_fwrite].
  apply io_grows_for_each. intros item.
  apply io_grows_bind; [apply io_grows_lift | intros x; apply io_grows_fwrite].
Qed.

Lemma io_grows_collect self d : io_grows Q T (collect self d).
Proof using HT.
  unfold collect.
  apply io_grows_bind; [apply io_grows_copyfile|]. intros _.
  apply io_grows_bind; [apply io_grows_copy_loop|]. intros d'.
  apply io_grows_bind; [apply io_grows_write_new_manifest | intros _; apply io_grows_ret].
Qed.

Lemma io_grows_write_depfile self deps : io_grows Q T (write_depfile self deps).
Proof using HT.
  unfold write_depfile.
  apply io_grows_bind; [apply io_grows_open_write | intros f; apply io_grows_fwrite].
Qed.

End Grows.

(** ** What a run leaves outside the output directory *)

Lemma keeps_outside_refl R w : keeps_outside R w w.
Proof. unfold keeps_outside. auto. Qed.

Lemma keeps_outside_trans R w1 w2 w3 :
  keeps_outside R w1 w2 -> keeps_outside R w2 w3 -> keeps_outside R w1 w3.
Proof.
  intros (C1 & D1 & F1) (C2 & D2 & F2). split; [congruence|]. split.
  - intros k Hk. apply D2, D1, Hk.
  - intros k Hb Hk. apply F2, F1; assumption.
Qed.

Lemma grows_keeps_outside T R w w' : grows T w w' -> keeps_outside R w w'.
Proof. intros (C & D & F & _). split; [exact C|]. split; [exact D|]. intros k _. apply F. Qed.

Lemma archive_output_keeps self w R r w4 :
  namei w (output_dir self) = Ok R ->
  (forall rel, rel <> [] -> is_file (files w) (R ++ rel) -> Forall clean_comp rel) ->
  archive_output self (tar_path_of self) w = (r, w4) ->
  keeps_outside R w w4.
Proof.
  intros HR Hclean H. destruct r as [[]|e].
  - destruct (archive_output_opened self w w4 R HR H) as [HRd Htd].
    destruct (archive_output_run self w R HR HRd Htd Hclean)
      as (w4' & ms & Hrun & Hcwd & _ & _ & _ & Hsame).
    rewrite Hrun in H. injection H as <-.
    assert (Ht : below R (R ++ ["package.tar"]))
      by (exists ["package.tar"]; split; [discriminate|reflexivity]).
    split; [exact Hcwd|]. split.
    + intros k Hd. rewrite Hsame; [exact Hd| |].
      * intros ->. destruct (archive_output_opened self w w4' R HR Hrun). contradiction.
      * intros [_ (d & Hf)]. congruence.
    + intros k Hk (d & Hf). exists d. rewrite Hsame; [exact Hf| |].
      * intros ->. contradiction.
      * intros [Hb _]. contradiction.
  - apply (archive_output_raise self w R) in H as [_ ->]; [|assumption..].
    apply keeps_outside_refl.
Qed.

Lemma stages_keeps json_loads self w R r w4 :
  Forall clean_comp (cwd w) ->
  (forall k, is_file (files w) k -> Forall clean_comp k) ->
  namei w (output_dir self) = Ok R ->
  stages json_loads self w = (r, w4) ->
  keeps_outside R w w4.
Proof.
  intros Hcwd Hnames HR H. unfold stages in H. rewrite io_bind_unfold in H.
  destruct (load json_loads self w) as [[ld|e] w0] eqn:El;
    pose proof (load_world _ _ _ _ _ El) as ->;
    [|injection H as <- <-; apply keeps_outside_refl].
  rewrite io_bind_unfold in H.
  destruct (collect self ld.1 w) as [[d1|e] w3] eqn:Ec;
    pose proof (io_grows_collect (Forall clean_comp) (Forall clean_comp) namei_names
                  self _ w _ w3 Hcwd Ec) as Hg;
    [|injection H as <- <-; eapply grows_keeps_outside, Hg].
  eapply keeps_outside_trans; [eapply grows_keeps_outside, Hg|].
  rewrite io_bind_unfold in H.
  assert (keeps_outside R w3
            (snd (archive_output self (tar_path_of self) w3))) as Ha.
  { apply (archive_output_keeps self w3 R
             (fst (archive_output self (tar_path_of self) w3)));
      [| |apply surjective_pairing].
    - eapply grows_namei; eassumption.
    - intros rel Hne Hf. destruct Hg as (_ & _ & _ & Hnew).
      assert (Forall clean_comp (R ++ rel)) as Hall
        by (destruct (Hnew _ Hf) as [Hold|Hall]; [apply Hnames, Hold | exact Hall]).
      apply Forall_app in Hall as [_ Hall]. exact Hall. }
  destruct (archive_output self (tar_path_of self) w3) as [[[]|e] w4'];
    injection H as <- <-; exact Ha.
Qed.

(** X12.  A run deletes nothing outside the output directory.  In a
    file system whose names are plain names, and whatever the manifest
    holds and however the run ends, the working directory is the same
    afterwards, every directory is still a directory, and every regular
    file that is not below the output directory is still a regular file:
    the only files the script removes are those it finds below the output
    directory when it archives. *)
Theorem run_deletes_nothing_outside (json_loads : decoder)
    (self : t) (w : world) (R : loc) (r : result unit) (w' : world) :
  Forall clean_comp (cwd w) ->
  (forall k, is_file (files w) k -> Forall clean_comp k) ->
  namei w (output_dir self) = Ok R ->
  run json_loads self w = (r, w') ->
  cwd w' = cwd w /\
  (forall k, files w !! k = Some Dir -> files w' !! k = Some Dir) /\
  (forall k, ~ below R k -> is_file (files w) k -> is_file (files w') k).
Proof.
  intros Hcwd Hnames HR H. rewrite load_collect_run in H.
  rewrite io_bind_unfold in H.
  destruct (stages json_loads self w) as [[td|e] w4] eqn:Es;
    pose proof (stages_keeps _ _ _ _ _ _ Hcwd Hnames HR Es) as Hk;
    [|injection H as <- <-; exact Hk].
  apply (keeps_outside_trans R w w4 w' Hk).
  apply (grows_keeps_outside (fun _ => True)).
  apply (io_grows_write_depfile (fun _ => True) (fun _ => True) (fun _ _ _ _ _ => I)
           self _ w4 r w' I H).
Qed.

Lemma run_deletes_nothing_outside_witness :
  cwd (snd (run (fun _ => Ok ready_manifest_json) bare_self ready)) = cwd ready /\
  (forall k, files ready !! k = Some Dir ->
             files (snd (run (fun _ => Ok ready_manifest_json) bare_self ready)) !! k
             = Some Dir) /\
  (forall k, ~ below ["build"; "out"] k -> is_file (files ready) k ->
             is_file (files (snd (run (fun _ => Ok ready_manifest_json) bare_self ready)))
               k).
Proof.
  apply (run_deletes_nothing_outside (fun _ => Ok ready_manifest_json) bare_self ready
           ["build"; "out"]
           (fst (run (fun _ => Ok ready_manifest_json) bare_self ready))).
  - repeat constructor; discriminate.
  - intros k (d & Hf). apply elem_of_map_to_list in Hf. vm_compute in Hf.
    repeat (apply elem_of_cons in Hf as [Hf|Hf];
            [first [discriminate Hf
                   | injection Hf as -> _; repeat constructor; discriminate] |]).
    inversion Hf.
  - reflexivity.
  - apply surjective_pairing.
Defined.
(** ** What [main] prints *)

Lemma io_ext_weaken {A : Type} (P P' : event -> Prop) (m : io A) :
  (forall e, P e -> P' e) -> io_ext P m -> io_ext P' m.
Proof.
  intros HP Hm w r w' H. destruct (Hm w r w' H) as (new & Hlog & Hall).
  exists new. split; [exact Hlog|]. eapply Forall_impl; [exact Hall|exact HP].
Qed.

Lemma io_ext_start json_loads a :
  io_ext (fun e => is_print e = false) (start json_loads a).
Proof.
  unfold start. apply io_ext_bind.
  - intros w r w' H. apply init_world in H as ->. apply log_ext_refl.
  - intros self w r w' H. rewrite load_collect_run in H. revert w r w' H.
    apply io_ext_bind.
    + apply (io_ext_weaken (writes_text_only_at (manifest_path_of self)));
        [|apply io_ext_stages].
      intros [] He; first [reflexivity | contradiction].
    + intros td. unfold write_depfile.
      apply io_ext_bind; [apply io_ext_open_write; reflexivity|].
      intros f. apply io_ext_fwrite.
Qed.

(** X13.  [main] prints once and only when the run fails.  When the run
    succeeds the exit status is 0 and nothing is printed; when the
    constructor or any stage raises, the exit status is 1 and the last
    thing done is to print that exception, the one and only print. *)
Theorem main_prints_the_exception (json_loads : decoder)
    (a : args) (w : world) :
  exists new,
    log (snd (main json_loads a w)) = new ++ log w /\
    match fst (start json_loads a w) with
    | Ok _ =>
        fst (main json_loads a w) = 0 /\ Forall (fun e => is_print e = false) new
    | Raise e =>
        fst (main json_loads a w) = 1 /\
        exists rest, new = EvPrint e :: rest /\
                     Forall (fun e' => is_print e' = false) rest
    end.
Proof.
  rewrite main_start.
  destruct (start json_loads a w) as [[u|e] w'] eqn:E;
    destruct (io_ext_start json_loads a w _ w' E) as (new & Hlog & Hall);
    cbn [fst snd].
  - exists new. auto.
  - exists (EvPrint e :: new). split; [cbn; now rewrite Hlog|].
    split; [reflexivity|]. exists new. auto.
Qed.

(** ** A manifest whose blobs are not a list *)

(** X14.  What [parse_package_json] makes of a decoded manifest object
    that is not as expected.  Without a ["blobs"] member the lookup
    raises [KeyError].  When ["blobs"] is not a list, the loop still
    runs over what Python iterates: an empty object and an empty string
    load as a manifest without entries, every other value raises
    [TypeError]. *)
Theorem parse_blobs_not_a_list (members : list (string * json)) :
  (Json.assoc "blobs" members = None ->
   parse_blobs (JObject members) = Raise (KeyError "blobs")) /\
  (forall v,
      Json.assoc "blobs" members = Some v ->
      (forall items, v <> JArray items) ->
      parse_blobs (JObject members)
      = match v with
        | JObject [] | JString "" => Ok []
        | _ => Raise TypeError
        end).
Proof.
  split.
  - intros H. unfold parse_blobs. cbn [Json.getitem]. rewrite H. reflexivity.
  - intros v H Hv. unfold parse_blobs. cbn [Json.getitem]. rewrite H.
    destruct v as [|b|n|s|items|ms]; try reflexivity.
    + destruct s; reflexivity.
    + now destruct (Hv items).
    + destruct ms as [|[k x] ms]; reflexivity.
Qed.

Lemma parse_blobs_not_a_list_witness :
  parse_blobs (JObject []) = Raise (KeyError "blobs") /\
  parse_blobs (JObject [("blobs", JObject [])]) = Ok [] /\
  parse_blobs (JObject [("blobs", JString "x")]) = Raise TypeError.
Proof.
  split; [|split].
  - apply (proj1 (parse_blobs_not_a_list [])). reflexivity.
  - apply (proj2 (parse_blobs_not_a_list [("blobs", JObject [])]) (JObject []));
      [reflexivity | discriminate].
  - apply (proj2 (parse_blobs_not_a_list [("blobs", JString "x")]) (JString "x"));
      [reflexivity | discriminate].
Defined.

(** ** Where a copy lands *)

Lemma mkdir_p_lookup cur comps w r w' k n :
  mkdir_p cur comps w = (r, w') -> files w !! k = Some n -> files w' !! k = Some n.
Proof.
  revert cur w. induction comps as [|c comps IH]; intros cur w H Hk.
  - injection H as _ <-. exact Hk.
  - cbn [mkdir_p] in H.
    destruct (String.eqb c "" || String.eqb c "."); [eapply IH; eassumption|].
    destruct (String.eqb c ".."); [eapply IH; eassumption|].
    destruct (files w !! (cur ++ [c])) as [[|]|] eqn:E.
    + injection H as _ <-. exact Hk.
    + eapply IH; eassumption.
    + eapply IH; [exact H|]. cbn [files emit set_files].
      rewrite lookup_insert_ne; [exact Hk|]. intros <-. congruence.
Qed.

Lemma makedirs_lookup p w r w' k n :
  makedirs p w = (r, w') -> files w !! k = Some n -> files w' !! k = Some n.
Proof.
  unfold makedirs. destruct (String.eqb p ""); [intros [= _ <-]; auto|].
  apply mkdir_p_lookup.
Qed.

Lemma one_line_starts r : one_line r = true -> r <> "" -> starts_line r = true.
Proof.
  destruct r as [|c r]; [congruence|]. cbn.
  destruct (Ascii.eqb c PyStr.newline); [discriminate|reflexivity].
Qed.

Lemma clean_comp_no_dotdot c x :
  clean_comp c -> PyStr.startswith (c +:+ x) "../" = false.
Proof.
  intros (H1 & H2 & H3 & Hs). unfold PyStr.startswith.
  destruct c as [|a1 c]; [congruence|].
  change (String a1 c +:+ x) with (String a1 (c +:+ x)). cbn [PyStr.strip_prefix].
  destruct (Ascii.eqb "." a1) eqn:E1; [|reflexivity].
  apply Ascii.eqb_eq in E1. subst a1.
  destruct c as [|a2 c]; [congruence|].
  change (String a2 c +:+ x) with (String a2 (c +:+ x)). cbn [PyStr.strip_prefix].
  destruct (Ascii.eqb "." a2) eqn:E2; [|reflexivity].
  apply Ascii.eqb_eq in E2. subst a2.
  destruct c as [|a3 c]; [congruence|].
  change (String a3 c +:+ x) with (String a3 (c +:+ x)). cbn [PyStr.strip_prefix].
  destruct (Ascii.eqb "/" a3) eqn:E3; [|reflexivity].
  apply Ascii.eqb_eq in E3. subst a3. discriminate Hs.
Qed.

Lemma join_clean_shape cs :
  cs <> [] -> Forall clean_comp cs ->
  PyStr.join "/" cs <> "" /\
  PyStr.startswith (PyStr.join "/" cs) "/" = false /\
  PyStr.startswith (PyStr.join "/" cs) "../" = false.
Proof.
  intros Hne Hall. split; [|split].
  - destruct cs as [|c cs]; [congruence|]. inversion Hall as [|? ? (Hc & _) _]; subst.
    destruct cs; [exact Hc|]. rewrite pystr_join_cons by discriminate.
    destruct c; [congruence|discriminate].
  - now apply join_clean_startswith.
  - destruct cs as [|c cs]; [congruence|]. inversion Hall as [|? ? Hc _]; subst.
    destruct cs as [|c' cs].
    + cbn [PyStr.join]. rewrite <- (append_nil_r c). now apply clean_comp_no_dotdot.
    + rewrite pystr_join_cons by discriminate. now apply clean_comp_no_dotdot.
Qed.

(** X15.  Where a copy lands, for the source paths the script is written
    for.  Let the source path be any number of [../], an optional [/]
    and a one-line path of plain names [cs].  A turn of the copy loop
    that succeeds records the path [cs] for the key, leaves the content
    of the source in the file at [cs] below the output directory, and
    changes no other entry of the file system that was there. *)
Theorem copy_entry_places (self : t) (d d' : manifest) (key s : string)
    (k : nat) (cs : list string) (dt : data) (w w' : world) (R : loc) :
  namei w (output_dir self) = Ok R ->
  cs <> [] -> Forall clean_comp cs -> one_line (PyStr.join "/" cs) = true ->
  s = dotdots k +:+ PyStr.join "/" cs \/ s = dotdots k +:+ "/" +:+ PyStr.join "/" cs ->
  read_file s w = (Ok dt, w) ->
  copy_entry self d (key, JString s) w = (Ok d', w') ->
  d' = Dict.set key (JString (PyStr.join "/" cs)) d /\
  files w' !! (R ++ cs) = Some (File dt) /\
  (forall l n, l <> R ++ cs -> files w !! l = Some n -> files w' !! l = Some n).
Proof.
  intros HR Hne Hall Hl Hs Hread H.
  destruct (join_clean_shape cs Hne Hall) as (Hr & Hslash & Hdots).
  pose proof (one_line_starts _ Hl Hr) as Hst.
  assert (Hg : Re.match_group1 path_stripper s = Some (PyStr.join "/" cs)).
  { destruct Hs as [-> | ->].
    - rewrite path_stripper_selected by exact Hdots.
      apply (selected_canonical k _ Hst Hl Hslash).
    - rewrite path_stripper_selected by reflexivity.
      apply (selected_canonical k _ Hst Hl Hslash). }
  apply copy_entry_ok in H as (s' & g & w1 & Hs' & Hg' & Hmk & Hcp & ->).
  cbn [fst snd] in *. injection Hs' as <-. rewrite Hg in Hg'. injection Hg' as <-.
  destruct (makedirs_dirs_le _ _ _ _ Hmk) as [Hle Hcwd].
  assert (HR1 : namei w1 (output_dir self) = Ok R)
    by (apply (namei_mono w w1 _ R Hcwd Hle HR)).
  destruct (copyfile_join_clean w1 s (output_dir self) cs w' R HR1 Hne Hall Hcp)
    as (_ & _ & d1 & Hread1 & Hfile).
  assert (Hread1' : read_file s w1 = (Ok dt, w1)).
  { unfold read_file in Hread |- *.
    destruct (namei w s) as [l|e] eqn:En; [|discriminate].
    rewrite (namei_mono w w1 _ l Hcwd Hle En).
    destruct (files w !! l) as [[x|]|] eqn:El; try discriminate.
    injection Hread as ->. now rewrite (makedirs_lookup _ _ _ _ _ _ Hmk El). }
  rewrite Hread1' in Hread1. injection Hread1 as <-.
  split; [reflexivity|]. split; [exact Hfile|].
  intros l n Hl' Hn.
  apply copyfile_ok in Hcp as (d2 & l2 & _ & _ & Hn2 & _ & ->).
  destruct (namei_join_clean w1 (output_dir self) cs R l2 HR1 Hne Hall Hn2) as [-> _].
  cbn [files emit set_files]. rewrite lookup_insert_ne by congruence.
  apply (makedirs_lookup _ _ _ _ _ _ Hmk Hn).
Qed.

Lemma copy_entry_places_witness :
  exists d' w',
    copy_entry bare_self [] ("lib/lib.so", JString "../src/lib.so") ready = (Ok d', w') /\
    d' = Dict.set "lib/lib.so" (JString (PyStr.join "/" ["src"; "lib.so"])) [] /\
    files w' !! (["build"; "out"] ++ ["src"; "lib.so"]) = Some (File (Bytes "LIB")) /\
    (forall l n, l <> ["build"; "out"] ++ ["src"; "lib.so"] ->
                 files ready !! l = Some n -> files w' !! l = Some n).
Proof.
  exists [("lib/lib.so", JString "src/lib.so")],
    (snd (copy_entry bare_self [] ("lib/lib.so", JString "../src/lib.so") ready)).
  split; [apply io_result; vm_compute; reflexivity|].
  apply (copy_entry_places bare_self [] _ "lib/lib.so" "../src/lib.so" 1
           ["src"; "lib.so"] (Bytes "LIB") ready _ ["build"; "out"]).
  - reflexivity.
  - discriminate.
  - repeat constructor; discriminate.
  - reflexivity.
  - left. reflexivity.
  - reflexivity.
  - apply io_result. vm_compute. reflexivity.
Defined.
(** ** A copy that leaves the output directory *)

(** X16.  A source path that begins with [/../] is copied out of the
    output directory.  The stripper drops the leading [/] only, the
    canonical path still begins with [../], and [os.path.join] puts it
    below the output directory as it is: a turn of the copy loop that
    succeeds writes the file at the plain names [cs] below the parent of
    the output directory; unless [cs] begins with the name of the output
    directory itself, that is outside the output directory, where the
    archive will not look for it. *)
Theorem copy_entry_escapes (self : t) (d d' : manifest) (key : string)
    (cs : list string) (w w' : world) (R : loc) :
  namei w (output_dir self) = Ok R -> R <> [] ->
  cs <> [] -> Forall clean_comp cs -> one_line (PyStr.join "/" cs) = true ->
  copy_entry self d (key, JString ("/../" +:+ PyStr.join "/" cs)) w = (Ok d', w') ->
  d' = Dict.set key (JString ("../" +:+ PyStr.join "/" cs)) d /\
  is_file (files w') (removelast R ++ cs) /\
  (hd "" cs <> List.last R "" -> ~ below R (removelast R ++ cs)).
Proof.
  intros HR HRne Hne Hall Hl H.
  assert (Hg : Re.match_group1 path_stripper ("/../" +:+ PyStr.join "/" cs)
               = Some ("../" +:+ PyStr.join "/" cs)).
  { change ("/../" +:+ PyStr.join "/" cs)
      with (dotdots 0 +:+ String "/" ("../" +:+ PyStr.join "/" cs)).
    rewrite path_stripper_selected by reflexivity.
    unfold selected, tail_group. cbn [starts_line PyStr.strip_prefix].
    change (Ascii.eqb "/" PyStr.newline) with false.
    change (Ascii.eqb "/" "/") with true. cbn [negb].
    change (starts_line ("../" +:+ PyStr.join "/" cs)) with true. cbv iota.
    rewrite (first_line_app "../" _ eq_refl).
    now rewrite first_line_one_line. }
  apply copy_entry_ok in H as (s' & g & w1 & Hs' & Hg' & Hmk & Hcp & ->).
  cbn [fst snd] in *. injection Hs' as <-. rewrite Hg in Hg'. injection Hg' as <-.
  split; [reflexivity|].
  destruct (makedirs_dirs_le _ _ _ _ Hmk) as [Hle Hcwd].
  assert (HR1 : namei w1 (output_dir self) = Ok R)
    by (apply (namei_mono w w1 _ R Hcwd Hle HR)).
  apply copyfile_ok in Hcp as (dt & l & _ & _ & Hn & _ & ->).
  rewrite (namei_join w1 _ _ R HR1) in Hn by reflexivity.
  change ("../" +:+ PyStr.join "/" cs) with (".." +:+ "/" +:+ PyStr.join "/" cs) in Hn.
  rewrite split_app_slash, (split_join_clean cs Hne Hall) in Hn.
  change (PyStr.split_slash "..") with [".."] in Hn.
  cbn [app fold_left] in Hn.
  destruct (step (files w1) (Ok R) "..") as [R'|e] eqn:Es;
    [|rewrite fold_step_raise in Hn; discriminate].
  assert (R' = removelast R) as ->.
  { unfold step in Es. cbn [mbind result_bind] in Es.
    destruct (files w1 !! R) as [[|]|]; try discriminate.
    injection Es as <-. reflexivity. }
  apply (fold_step_clean _ _ _ _ Hall) in Hn. subst l.
  split.
  - exists dt. cbn [files emit set_files]. apply lookup_insert_eq.
  - intros Hhd (rel & Hrel & E).
    rewrite (removelast_last R "" HRne) in E at 2.
    rewrite <- app_assoc in E. apply app_inv_head in E. subst cs.
    apply Hhd. reflexivity.
Qed.

Lemma copy_entry_escapes_witness :
  exists d' w',
    copy_entry bare_self [] ("lib/lib.so", JString ("/../" +:+ PyStr.join "/" ["src"; "lib.so"]))
      ready = (Ok d', w') /\
    d' = Dict.set "lib/lib.so" (JString ("../" +:+ PyStr.join "/" ["src"; "lib.so"])) [] /\
    is_file (files w') (removelast ["build"; "out"] ++ ["src"; "lib.so"]) /\
    (hd "" ["src"; "lib.so"] <> List.last ["build"; "out"] "" ->
     ~ below ["build"; "out"] (removelast ["build"; "out"] ++ ["src"; "lib.so"])).
Proof.
  exists [("lib/lib.so", JString "../src/lib.so")],
    (snd (copy_entry bare_self [] ("lib/lib.so", JString "/../src/lib.so") ready)).
  split; [apply io_result; vm_compute; reflexivity|].
  apply (copy_entry_escapes bare_self [] _ "lib/lib.so" ["src"; "lib.so"] ready _
           ["build"; "out"]).
  - reflexivity.
  - discriminate.
  - discriminate.
  - repeat constructor; discriminate.
  - reflexivity.
  - apply io_result. vm_compute. reflexivity.
Defined.
(** ** The two files the script adds *)

(** X17.  [write_new_manifest] replaces whatever the file held.  For a
    mapping whose values are strings, either [package.manifest] cannot
    be opened for writing, and then that exception is raised and nothing
    is changed; or the file holds exactly one line per entry, in the
    order of the mapping, and the line [meta/package=meta.far], whatever
    it held before, and no other entry of the file system is changed. *)
Theorem write_new_manifest_replaces (self : t) (kcs : list (string * string))
    (w : world) :
  (exists e,
      open_write (manifest_path_of self) w = (Raise e, w) /\
      write_new_manifest self (as_manifest kcs) w = (Raise e, w)) \/
  (exists f w',
      write_new_manifest self (as_manifest kcs) w = (Ok tt, w') /\
      namei w (manifest_path_of self) = Ok f /\
      files w' !! f = Some (File (Bytes (manifest_text kcs))) /\
      forall k, k <> f -> files w' !! k = files w !! k).
Proof.
  destruct (open_write (manifest_path_of self) w) as [[f|e] w1] eqn:Ho.
  - right. rewrite (write_new_manifest_run self kcs w f w1 Ho).
    apply open_write_ok in Ho as (Hn & _ & ->).
    eexists _, _. split; [reflexivity|]. split; [exact Hn|].
    cbn [files emit set_files]. split.
    + apply lookup_insert_eq.
    + intros k Hk. rewrite !lookup_insert_ne by congruence. reflexivity.
  - left. pose proof (open_write_raise _ _ _ _ Ho) as ->.
    exists e. split; [reflexivity|].
    unfold write_new_manifest. apply io_bind_fail. exact Ho.
Qed.

Lemma write_new_manifest_replaces_witness :
  exists f w',
    write_new_manifest bare_self (as_manifest [("lib/lib.so", "src/lib.so")]) ready
    = (Ok tt, w') /\
    namei ready (manifest_path_of bare_self) = Ok f /\
    files w' !! f = Some (File (Bytes (manifest_text [("lib/lib.so", "src/lib.so")]))) /\
    forall k, k <> f -> files w' !! k = files ready !! k.
Proof.
  destruct (write_new_manifest_replaces bare_self [("lib/lib.so", "src/lib.so")] ready)
    as [(e & Ho & _) | H]; [exfalso | exact H].
  assert (fst (open_write (manifest_path_of bare_self) ready)
          = Ok ["build"; "out"; "package.manifest"]) as E by reflexivity.
  rewrite Ho in E. discriminate E.
Defined.

(** X18.  [copy_meta_far] on its own.  When the metadata archive is
    already the file [meta.far] of the output directory, the copy is
    refused with [SameFileError] and nothing is changed.  When the copy
    succeeds, [meta.far] in the output directory holds what the metadata
    archive holds, and no other entry of the file system is changed. *)
Theorem copy_meta_far_copies (self : t) (w : world) (R : loc) :
  namei w (output_dir self) = Ok R ->
  (samefile w (meta_far_path self) (PosixPath.join (output_dir self) "meta.far") = true ->
   copy_meta_far self w = (Raise SameFileError, w)) /\
  (forall w', copy_meta_far self w = (Ok tt, w') ->
      exists far,
        read_file (meta_far_path self) w = (Ok far, w) /\
        files w' !! (R ++ ["meta.far"]) = Some (File far) /\
        forall k, k <> R ++ ["meta.far"] -> files w' !! k = files w !! k).
Proof.
  intros HR. split.
  - intros Hs. unfold copy_meta_far, copyfile. now rewrite Hs.
  - intros w' H. unfold copy_meta_far in H.
    apply copyfile_ok in H as (far & l & _ & Hread & Hn & _ & ->).
    assert (l = R ++ ["meta.far"]) as ->.
    { destruct (namei_join_clean w (output_dir self) ["meta.far"] R l HR) as [-> _];
        [discriminate | repeat constructor; discriminate | exact Hn | reflexivity]. }
    exists far. split; [exact Hread|]. cbn [files emit set_files]. split.
    + apply lookup_insert_eq.
    + intros k Hk. apply lookup_insert_ne. congruence.
Qed.

Lemma copy_meta_far_copies_witness :
  exists far,
    read_file (meta_far_path bare_self) ready = (Ok far, ready) /\
    files (snd (copy_meta_far bare_self ready)) !! (["build"; "out"] ++ ["meta.far"])
    = Some (File far) /\
    forall k, k <> ["build"; "out"] ++ ["meta.far"] ->
              files (snd (copy_meta_far bare_self ready)) !! k = files ready !! k.
Proof.
  apply (proj2 (copy_meta_far_copies bare_self ready ["build"; "out"] eq_refl)).
  apply io_result. reflexivity.
Defined.

(* ===================================================================== *)
(** * The run in a prepared world *)
(* ===================================================================== *)

Import Plan Loading.

(** ** Making the directories of a copy *)

Lemma all_slashes_app x y :
  PosixPath.all_slashes (x +:+ y) = PosixPath.all_slashes x && PosixPath.all_slashes y.
Proof.
  induction x as [|c x IH]; [reflexivity|].
  change (String c x +:+ y) with (String c (x +:+ y)). cbn [PosixPath.all_slashes].
  rewrite IH. now rewrite andb_assoc.
Qed.

Lemma rstrip_slash_app_slash x :
  PosixPath.rstrip_slash (x +:+ "/") = PosixPath.rstrip_slash x.
Proof.
  induction x as [|c x IH]; [reflexivity|].
  change (String c x +:+ "/") with (String c (x +:+ "/")).
  cbn [PosixPath.rstrip_slash PosixPath.all_slashes].
  rewrite all_slashes_app. cbn [PosixPath.all_slashes].
  change (Ascii.eqb "/" PyStr.slash) with true. cbn [andb].
  rewrite andb_true_r, IH. reflexivity.
Qed.

Lemma has_slash_app_slash x n : PosixPath.has_slash (x +:+ "/" +:+ n) = true.
Proof.
  induction x as [|c x IH]; [reflexivity|].
  change (String c x +:+ "/" +:+ n) with (String c (x +:+ "/" +:+ n)).
  cbn [PosixPath.has_slash]. rewrite IH. apply orb_true_r.
Qed.

Lemma head_part_no_slash n : PosixPath.has_slash n = false -> PosixPath.head_part n = "".
Proof. destruct n as [|c n]; [reflexivity|]. cbn [PosixPath.head_part]. now intros ->. Qed.

Lemma head_part_app x n :
  PosixPath.has_slash n = false ->
  PosixPath.head_part (x +:+ "/" +:+ n) = x +:+ "/".
Proof.
  intros Hn. induction x as [|c x IH].
  - change ("" +:+ "/" +:+ n) with (String "/" n). cbn [PosixPath.head_part PosixPath.has_slash].
    change (Ascii.eqb "/" PyStr.slash) with true. cbn [orb].
    rewrite head_part_no_slash by exact Hn. reflexivity.
  - change (String c x +:+ "/" +:+ n) with (String c (x +:+ "/" +:+ n)).
    change (String c x +:+ "/") with (String c (x +:+ "/")).
    cbn [PosixPath.head_part]. rewrite IH.
    assert (PosixPath.has_slash (String c (x +:+ "/" +:+ n)) = true) as ->; [|reflexivity].
    cbn [PosixPath.has_slash]. rewrite has_slash_app_slash. apply orb_true_r.
Qed.

(** [os.path.dirname] of a path that ends with a name. *)
Lemma dirname_app x n :
  PosixPath.has_slash n = false ->
  PosixPath.dirname (x +:+ "/" +:+ n)
  = if PosixPath.all_slashes x then x +:+ "/" else PosixPath.rstrip_slash x.
Proof.
  intros Hn. unfold PosixPath.dirname. cbv zeta. rewrite (head_part_app x n Hn).
  rewrite all_slashes_app. cbn [PosixPath.all_slashes].
  change (Ascii.eqb "/" PyStr.slash) with true. cbn [andb]. rewrite andb_true_r.
  destruct (PosixPath.all_slashes x); [reflexivity|]. apply rstrip_slash_app_slash.
Qed.

Lemma all_slashes_ends x :
  x <> "" -> PosixPath.all_slashes x = true -> PyStr.endswith_slash x = true.
Proof.
  induction x as [|c x IH]; [congruence|]. intros _. cbn [PosixPath.all_slashes].
  intros H. apply andb_true_iff in H as [Hc Hx].
  destruct x as [|c' x]; [exact Hc|]. apply IH; [discriminate|exact Hx].
Qed.

Lemma rstrip_slash_fix x :
  x <> "" -> PyStr.endswith_slash x = false -> PosixPath.rstrip_slash x = x.
Proof.
  induction x as [|c x IH]; [congruence|]. intros _ He.
  cbn [PosixPath.rstrip_slash].
  destruct (PosixPath.all_slashes (String c x)) eqn:Ea.
  - apply all_slashes_ends in Ea; [congruence|discriminate].
  - f_equal. destruct x as [|c' x]; [reflexivity|]. apply IH; [discriminate|exact He].
Qed.

(** [os.makedirs] walks through the directories that are there. *)
Lemma fold_ok_dir fs comps l R :
  fold_left (step fs) comps (Ok l) = Ok R -> fs !! R = Some Dir -> fs !! l = Some Dir.
Proof.
  destruct comps as [|c comps]; [intros [= ->]; auto|].
  cbn [fold_left]. intros H _.
  destruct (step fs (Ok l) c) as [l1|e] eqn:E; [|rewrite fold_step_raise in H; discriminate].
  apply step_ok_inv in E as (l0 & [= <-] & E). exact E.
Qed.

Lemma mkdir_p_follow comps rest cur R w :
  fold_left (step (files w)) comps (Ok cur) = Ok R -> files w !! R = Some Dir ->
  mkdir_p cur (comps ++ rest) w = mkdir_p R rest w.
Proof.
  revert cur. induction comps as [|c comps IH]; intros cur H HR.
  - injection H as ->. reflexivity.
  - cbn [fold_left] in H.
    destruct (step (files w) (Ok cur) c) as [l1|e] eqn:E;
      [|rewrite fold_step_raise in H; discriminate].
    pose proof (fold_ok_dir _ _ _ _ H HR) as Hl1.
    unfold step in E. cbn [mbind result_bind] in E.
    destruct (files w !! cur) as [[|]|]; try discriminate. injection E as E.
    cbn [app mkdir_p].
    destruct (String.eqb c "" || String.eqb c "."); [subst l1; now apply IH|].
    destruct (String.eqb c ".."); [subst l1; now apply IH|].
    subst l1. rewrite Hl1. now apply IH.
Qed.
Lemma split_slash_nonempty s : PyStr.split_slash s <> [].
Proof. destruct (split_slash_cons s) as (c & cs & ->). discriminate. Qed.

Lemma split_trailing y t :
  PosixPath.all_slashes t = true ->
  PyStr.split_slash (y +:+ t) = PyStr.split_slash y ++ repeat "" (String.length t).
Proof.
  intros Ht. induction y as [|c y IH].
  - change ("" +:+ t) with t. clear -Ht. induction t as [|c t IH]; [reflexivity|].
    cbn [PosixPath.all_slashes] in Ht. apply andb_true_iff in Ht as [Hc Ht].
    cbn [PyStr.split_slash String.length repeat]. rewrite Hc, (IH Ht). reflexivity.
  - change (String c y +:+ t) with (String c (y +:+ t)). cbn [PyStr.split_slash].
    rewrite IH. destruct (Ascii.eqb c PyStr.slash); [reflexivity|].
    destruct (split_slash_cons y) as (c0 & cs0 & ->). reflexivity.
Qed.

Lemma rstrip_decomp x :
  exists t, PosixPath.all_slashes t = true /\ x = PosixPath.rstrip_slash x +:+ t.
Proof.
  induction x as [|c x IH]; [exists ""; auto|].
  cbn [PosixPath.rstrip_slash].
  destruct (PosixPath.all_slashes (String c x)) eqn:Ea.
  - exists (String c x). auto.
  - destruct IH as (t & Ht & Hx). exists t. split; [exact Ht|].
    change (String c (PosixPath.rstrip_slash x) +:+ t)
      with (String c (PosixPath.rstrip_slash x +:+ t)). now rewrite <- Hx.
Qed.

Lemma rstrip_nonempty x :
  PosixPath.all_slashes x = false -> PosixPath.rstrip_slash x <> "".
Proof.
  destruct x as [|c x]; [discriminate|]. cbn [PosixPath.rstrip_slash].
  intros ->. discriminate.
Qed.

Lemma fold_step_empties fs k r R :
  fold_left (step fs) (repeat "" k) r = Ok R -> r = Ok R.
Proof.
  revert r. induction k as [|k IH]; intros r H; [exact H|].
  cbn [repeat fold_left] in H. apply IH in H. apply step_empty in H as [H _]. exact H.
Qed.

Lemma mkdir_p_empties cur k w : mkdir_p cur (repeat "" k) w = (Ok tt, w).
Proof. induction k as [|k IH]; [reflexivity|]. cbn [repeat mkdir_p]. exact IH. Qed.

(** [os.makedirs] of a directory that is there changes nothing. *)
Lemma makedirs_there w y t R :
  y <> "" -> PosixPath.all_slashes t = true ->
  namei w (y +:+ t) = Ok R -> files w !! R = Some Dir ->
  makedirs y w = (Ok tt, w).
Proof.
  intros Hy Ht Hn HR.
  rewrite namei_fold in Hn by (now apply app_nonempty).
  assert (Hst : start_of w (y +:+ t) = start_of w y).
  { unfold start_of. rewrite startswith_app; [reflexivity | exact Hy | reflexivity]. }
  rewrite Hst, split_trailing, fold_left_app in Hn by exact Ht.
  apply fold_step_empties in Hn.
  unfold makedirs. destruct (String.eqb_spec y "") as [|_]; [contradiction|].
  rewrite <- (app_nil_r (PyStr.split_slash y)).
  rewrite (mkdir_p_follow _ [] _ R w Hn HR). reflexivity.
Qed.

Lemma makedirs_join w a b R :
  namei w a = Ok R -> files w !! R = Some Dir ->
  PyStr.startswith b "/" = false ->
  makedirs (PosixPath.join a b) w = mkdir_p R (PyStr.split_slash b) w.
Proof.
  intros Ha HR Hb. pose proof (namei_nonempty _ _ _ Ha) as Hne.
  rewrite (namei_fold _ _ Hne) in Ha.
  unfold PosixPath.join. rewrite Hb.
  destruct (String.eqb_spec a "") as [->|_]; [congruence|]. cbn [orb].
  unfold makedirs.
  destruct (PyStr.endswith_slash a) eqn:Es.
  - destruct (endswith_slash_inv _ Es) as (a' & ->).
    destruct (String.eqb_spec ((a' +:+ "/") +:+ b) "") as [E|_];
      [exfalso; revert E; now apply app_nonempty|].
    assert (Hst : start_of w ((a' +:+ "/") +:+ b) = start_of w (a' +:+ "/")).
    { unfold start_of. rewrite startswith_app; [reflexivity | exact Hne | reflexivity]. }
    rewrite Hst, append_assoc, split_app_slash.
    assert (Hsplit : PyStr.split_slash (a' +:+ "/") = PyStr.split_slash a' ++ [""])
      by apply (split_app_slash a' "").
    rewrite Hsplit, fold_left_app in Ha. cbn [fold_left] in Ha.
    apply step_empty in Ha as [Ha _].
    apply (mkdir_p_follow _ _ _ R w Ha HR).
  - destruct (String.eqb_spec (a +:+ "/" +:+ b) "") as [E|_];
      [exfalso; revert E; now apply app_nonempty|].
    assert (Hst : start_of w (a +:+ "/" +:+ b) = start_of w a).
    { unfold start_of. rewrite startswith_app; [reflexivity | exact Hne | reflexivity]. }
    rewrite Hst, split_app_slash.
    apply (mkdir_p_follow _ _ _ R w Ha HR).
Qed.

Lemma slashed_form a :
  a <> "" -> exists x, slashed a = x +:+ "/" /\ (a = x \/ a = x +:+ "/").
Proof.
  intros Ha. unfold slashed.
  destruct (String.eqb_spec a "") as [|_]; [contradiction|]. cbn [orb].
  destruct (PyStr.endswith_slash a) eqn:Es.
  - destruct (endswith_slash_inv _ Es) as (a' & ->). exists a'. auto.
  - exists a. auto.
Qed.

(** The directories that [copy_to_output_dir] makes for the canonical
    path [cs] are those of [cs] below the output directory. *)
Lemma makedirs_dirname_join w a cs R :
  namei w a = Ok R -> files w !! R = Some Dir ->
  cs <> [] -> Forall clean_comp cs ->
  makedirs (PosixPath.dirname (PosixPath.join a (PyStr.join "/" cs))) w
  = mkdir_p R (removelast cs) w.
Proof.
  intros Ha HR Hne Hall. pose proof (namei_nonempty _ _ _ Ha) as Hane.
  pose proof (Forall_last _ _ "" Hne Hall) as Hlast.
  pose proof (Forall_removelast _ _ Hall) as Hdirs.
  assert (Hns : PosixPath.has_slash (List.last cs "") = false) by apply Hlast.
  rewrite (join_slashed a _ (join_clean_startswith cs Hne Hall)).
  rewrite (removelast_last cs "" Hne) at 1.
  destruct (removelast cs) as [|d1 ds] eqn:E.
  - cbn [app PyStr.join].
    destruct (slashed_form a Hane) as (x & -> & Hx).
    rewrite append_assoc, (dirname_app x _ Hns).
    destruct (PosixPath.all_slashes x) eqn:Ex.
    + unfold makedirs.
      destruct (String.eqb_spec (x +:+ "/") "") as [E'|_];
        [exfalso; destruct x; discriminate|].
      replace (x +:+ "/") with ("" +:+ (x +:+ "/")) by reflexivity.
      rewrite split_trailing
        by (rewrite all_slashes_app, Ex; reflexivity).
      cbn [PyStr.split_slash app]. apply (mkdir_p_empties _ (S _)).
    + destruct (rstrip_decomp x) as (t & Ht & Hxt).
      apply (makedirs_there w _ (if decide (a = x) then t else t +:+ "/") R).
      * now apply rstrip_nonempty.
      * destruct (decide (a = x)); [exact Ht|].
        rewrite all_slashes_app, Ht. reflexivity.
      * destruct (decide (a = x)) as [Eq|Nq].
        -- rewrite <- Hxt, <- Eq. exact Ha.
        -- destruct Hx as [Hx|Hx]; [contradiction|].
           rewrite <- append_assoc, <- Hxt, <- Hx. exact Ha.
      * exact HR.
  - assert (Hdne : d1 :: ds <> []) by discriminate.
    rewrite pystr_join_snoc by discriminate.
    rewrite <- !append_assoc.
    assert (HX : PyStr.endswith_slash (slashed a +:+ PyStr.join "/" (d1 :: ds)) = false).
    { rewrite (removelast_last (d1 :: ds) "") by discriminate.
      destruct (removelast (d1 :: ds)) as [|e1 es] eqn:E'.
      - cbn [app PyStr.join]. apply endswith_slash_app_clean.
        apply (Forall_last _ _ "" Hdne Hdirs).
      - rewrite pystr_join_snoc by discriminate. rewrite <- !append_assoc.
        apply endswith_slash_app_clean.
        apply (Forall_last _ _ "" Hdne Hdirs). }
    assert (HXne : slashed a +:+ PyStr.join "/" (d1 :: ds) <> "").
    { destruct (slashed_form a Hane) as (x & -> & _). destruct x; discriminate. }
    rewrite append_assoc, (dirname_app _ _ Hns).
    destruct (PosixPath.all_slashes _) eqn:Ex;
      [apply all_slashes_ends in Ex; [congruence|exact HXne]|].
    rewrite (rstrip_slash_fix _ HXne HX).
    rewrite <- (join_slashed a _ (join_clean_startswith _ Hdne Hdirs)).
    rewrite (makedirs_join w a _ R Ha HR (join_clean_startswith _ Hdne Hdirs)).
    rewrite split_join_clean by (discriminate || exact Hdirs). reflexivity.
Qed.
Lemma clean_comp_eqb c :
  clean_comp c ->
  String.eqb c "" = false /\ String.eqb c "." = false /\ String.eqb c ".." = false.
Proof. intros (H1 & H2 & H3 & _). rewrite !String.eqb_neq. auto. Qed.

(** [os.makedirs] below a directory, when no regular file is in the way:
    the directories of [cs] are made and nothing else changes. *)
Lemma mkdir_p_clean cs :
  Forall clean_comp cs ->
  forall R w,
  (forall pre d, pre <> [] -> (exists rest, cs = pre ++ rest) ->
                 files w !! (R ++ pre) <> Some (File d)) ->
  exists w1,
    mkdir_p R cs w = (Ok tt, w1) /\ cwd w1 = cwd w /\
    (forall k d, files w1 !! k = Some (File d) <-> files w !! k = Some (File d)) /\
    (forall k, files w1 !! k = Some Dir <->
               files w !! k = Some Dir \/
               exists pre rest, pre <> [] /\ cs = pre ++ rest /\ k = R ++ pre).
Proof.
  induction 1 as [|c cs Hc Hall IH]; intros R w Hfree.
  - exists w. split; [reflexivity|]. split; [reflexivity|]. split; [tauto|].
    intros k. split; [auto|]. intros [H|(pre & rest & Hne & E & _)]; [exact H|].
    destruct pre; [congruence|discriminate].
  - destruct (clean_comp_eqb c Hc) as (E1 & E2 & E3).
    cbn [mkdir_p]. rewrite E1, E2, E3. cbn [orb].
    assert (Hshift : forall pre, (R ++ [c]) ++ pre = R ++ c :: pre)
      by (intros pre; rewrite <- app_assoc; reflexivity).
    destruct (files w !! (R ++ [c])) as [[d|]|] eqn:E.
    + exfalso. apply (Hfree [c] d); [discriminate | exists cs; reflexivity | exact E].
    + destruct (IH (R ++ [c]) w) as (w1 & Hrun & Hcwd & Hfile & Hdir).
      { intros pre d Hne (rest & ->). rewrite Hshift.
        apply Hfree; [discriminate | exists rest; reflexivity]. }
      exists w1. split; [exact Hrun|]. split; [exact Hcwd|]. split; [exact Hfile|].
      intros k. rewrite Hdir. split.
      * intros [H|(pre & rest & Hne & -> & ->)]; [now left|]. right.
        exists (c :: pre), rest. rewrite Hshift. split; [discriminate|]. auto.
      * intros [H|(pre & rest & Hne & Hcs & ->)]; [now left|].
        destruct pre as [|c' pre]; [congruence|]. injection Hcs as <- ->.
        destruct pre as [|c'' pre]; [left; exact E|]. right.
        exists (c'' :: pre), rest. rewrite Hshift. split; [discriminate|]. auto.
    + set (w0 := emit (EvMkdir (R ++ [c])) (set_files (insert (R ++ [c]) Dir) w)).
      assert (Hother : forall pre, pre <> [] ->
                files w0 !! (R ++ c :: pre) = files w !! (R ++ c :: pre)).
      { intros pre Hne. unfold w0. cbn [files emit set_files].
        apply lookup_insert_ne. intros H. apply app_inv_head in H.
        congruence. }
      destruct (IH (R ++ [c]) w0) as (w1 & Hrun & Hcwd & Hfile & Hdir).
      { intros pre d Hne (rest & ->). rewrite Hshift, (Hother pre Hne).
        apply Hfree; [discriminate | exists rest; reflexivity]. }
      exists w1. split; [exact Hrun|]. split; [exact Hcwd|]. split.
      * intros k d. rewrite Hfile. unfold w0. cbn [files emit set_files].
        destruct (decide (k = R ++ [c])) as [->|Hk].
        -- rewrite lookup_insert_eq, E. split; discriminate.
        -- rewrite lookup_insert_ne by congruence. reflexivity.
      * intros k. rewrite Hdir. unfold w0 at 1. cbn [files emit set_files]. split.
        -- intros [H|(pre & rest & Hne & -> & ->)].
           ++ destruct (decide (k = R ++ [c])) as [->|Hk].
              ** right. exists [c], cs. split; [discriminate|]. auto.
              ** rewrite lookup_insert_ne in H by congruence. now left.
           ++ right. exists (c :: pre), rest. rewrite Hshift.
              split; [discriminate|]. auto.
        -- intros [H|(pre & rest & Hne & Hcs & ->)].
           ++ left. rewrite lookup_insert_ne; [exact H|]. intros <-. congruence.
           ++ destruct pre as [|c' pre]; [congruence|]. injection Hcs as <- ->.
              destruct pre as [|c'' pre]; [left; apply lookup_insert_eq|]. right.
              exists (c'' :: pre), rest. rewrite Hshift. split; [discriminate|]. auto.
Qed.

(** ** The copy loop, one turn after the other *)

Lemma not_below_self R : ~ below R R.
Proof.
  intros (rel & Hne & E). rewrite <- (app_nil_r R) in E at 1.
  apply app_inv_head in E. congruence.
Qed.

Lemma below_app R rel : rel <> [] -> below R (R ++ rel).
Proof. intros H. exists rel. auto. Qed.

Lemma proper_prefix_irrefl a : ~ proper_prefix a a.
Proof.
  intros (rest & Hne & E). rewrite <- (app_nil_r a) in E at 1.
  apply app_inv_head in E. congruence.
Qed.

Lemma proper_prefix_removelast rel cs :
  cs <> [] ->
  (exists rest, removelast cs = rel ++ rest) <-> proper_prefix rel cs.
Proof.
  intros Hne. split.
  - intros (rest & E). exists (rest ++ [List.last cs ""]). split.
    + destruct rest; discriminate.
    + rewrite (removelast_last cs "" Hne) at 1. rewrite E, <- app_assoc. reflexivity.
  - intros (rest & Hr & ->). exists (removelast rest). now apply removelast_app.
Qed.

Lemma last_data_snoc done p cs :
  last_data (done ++ [p]) cs
  = if decide (c_path p = cs) then Some (c_data p) else last_data done cs.
Proof.
  induction done as [|q done IH]; cbn [app last_data].
  - destruct (decide (c_path p = cs)); reflexivity.
  - rewrite IH. destruct (decide (c_path p = cs)); [reflexivity|].
    reflexivity.
Qed.

Lemma last_data_Some done cs d :
  last_data done cs = Some d -> exists q, q ∈ done /\ c_path q = cs /\ c_data q = d.
Proof.
  induction done as [|q done IH]; cbn [last_data]; [discriminate|].
  destruct (last_data done cs) as [d'|].
  - intros [= <-]. destruct (IH eq_refl) as (q' & Hq & H). exists q'.
    split; [apply list_elem_of_further, Hq | exact H].
  - destruct (decide (c_path q = cs)); [|discriminate]. intros [= <-].
    exists q. split; [apply list_elem_of_here | auto].
Qed.

Lemma last_data_None done cs :
  last_data done cs = None <-> forall q, q ∈ done -> c_path q <> cs.
Proof.
  induction done as [|q done IH]; cbn [last_data].
  - split; [intros _ q Hq; inversion Hq | reflexivity].
  - destruct (last_data done cs) as [d'|] eqn:E.
    + split; [discriminate|]. intros H. exfalso.
      apply last_data_Some in E as (q' & Hq & E & _).
      apply (H q'); [apply list_elem_of_further, Hq | exact E].
    + destruct (decide (c_path q = cs)) as [Eq|Nq].
      * split; [discriminate|]. intros H. exfalso. apply (H q); [apply list_elem_of_here|exact Eq].
      * split; [|reflexivity]. intros _ q' Hq'.
        apply elem_of_cons in Hq' as [->|Hq']; [exact Nq|]. now apply (proj1 IH).
Qed.

Lemma lookup_node_eq (m1 m2 : gmap loc node) k :
  (forall d, m1 !! k = Some (File d) <-> m2 !! k = Some (File d)) ->
  (m1 !! k = Some Dir <-> m2 !! k = Some Dir) ->
  m1 !! k = m2 !! k.
Proof.
  intros Hf Hd.
  destruct (m1 !! k) as [[d|]|]; destruct (m2 !! k) as [[d'|]|]; try reflexivity;
    try (pose proof (proj1 (Hf _) eq_refl); congruence);
    try (pose proof (proj2 (Hf _) eq_refl); congruence);
    try (pose proof (proj1 Hd eq_refl); congruence);
    try (pose proof (proj2 Hd eq_refl); congruence).
Qed.
Lemma copied_base w0 R far done w :
  files w0 !! R = Some Dir ->
  (forall k, below R k -> files w0 !! k = None) ->
  copied w0 R far done w ->
  cwd w = cwd w0 /\ dirs_le (files w0) (files w) /\ files w !! R = Some Dir.
Proof.
  intros HRd Hempty (Hcwd & Hsame & _). split; [exact Hcwd|].
  assert (Hle : dirs_le (files w0) (files w)).
  { intros l Hl. rewrite Hsame; [exact Hl|]. intros Hb.
    rewrite (Hempty l Hb) in Hl. discriminate. }
  split; [exact Hle|]. apply Hle, HRd.
Qed.

(** One turn of the copy loop in a prepared world: it succeeds, and the
    output directory holds one more copy. *)
Lemma copy_entry_step self w0 R far done p d w :
  namei w0 (output_dir self) = Ok R -> files w0 !! R = Some Dir ->
  (forall k, below R k -> files w0 !! k = None) ->
  copy_ok w0 R p ->
  (forall q, q ∈ done ->
     ~ proper_prefix (c_path q) (c_path p) /\ ~ proper_prefix (c_path p) (c_path q)) ->
  copied w0 R far done w ->
  exists w',
    copy_entry self d (c_key p, JString (c_source p)) w
    = (Ok (Dict.set (c_key p) (JString (PyStr.join "/" (c_path p))) d), w') /\
    copied w0 R far (done ++ [p]) w'.
Proof.
  intros HR0 HRd0 Hempty (Hg & Hne & Hall & Hres & l0 & Hn0 & Hf0 & Hout) Hfree Hc.
  destruct (copied_base _ _ _ _ _ HRd0 Hempty Hc) as (Hcwd & Hle & HRd).
  destruct Hc as (_ & Hsame & HF & HD).
  assert (HR : namei w (output_dir self) = Ok R)
    by (apply (namei_mono w0 w _ R Hcwd Hle HR0)).
  assert (Hmeta : c_path p <> ["meta.far"]).
  { intros E. apply Hres. rewrite E. apply list_elem_of_here. }
  destruct (mkdir_p_clean (removelast (c_path p)) (Forall_removelast _ _ Hall) R w)
    as (w1 & Hmk & Hcwd1 & Hfile1 & Hdir1).
  { intros pre dt Hpre Hex Hfile.
    apply (proper_prefix_removelast pre (c_path p) Hne) in Hex.
    apply (HF pre dt Hpre) in Hfile as [[-> _]|Hl].
    - destruct Hex as (rest & _ & E). apply Hres. rewrite E. apply list_elem_of_here.
    - apply last_data_Some in Hl as (q & Hq & Hqp & _).
      apply (proj1 (Hfree q Hq)). rewrite Hqp. exact Hex. }
  rewrite <- (makedirs_dirname_join w (output_dir self) (c_path p) R HR HRd Hne Hall) in Hmk.
  assert (Hle1 : dirs_le (files w0) (files w1)).
  { intros l Hl. apply Hdir1. left. apply Hle, Hl. }
  assert (Hcwd10 : cwd w1 = cwd w0) by congruence.
  assert (Hn1 : namei w1 (c_source p) = Ok l0)
    by (apply (namei_mono w0 w1 _ l0 Hcwd10 Hle1 Hn0)).
  assert (Hf1 : files w1 !! l0 = Some (File (c_data p))).
  { apply Hfile1. rewrite (Hsame l0 Hout). exact Hf0. }
  assert (HR1 : namei w1 (output_dir self) = Ok R)
    by (apply (namei_mono w0 w1 _ R Hcwd10 Hle1 HR0)).
  assert (Hdst : namei w1 (PosixPath.join (output_dir self) (PyStr.join "/" (c_path p)))
                 = Ok (R ++ c_path p)).
  { rewrite (namei_join w1 _ _ R HR1 (join_clean_startswith _ Hne Hall)).
    rewrite (split_join_clean _ Hne Hall).
    apply fold_step_clean_run; [exact Hall|]. intros pre Hpre Hneq.
    apply Hdir1. destruct pre as [|c pre].
    - left. rewrite app_nil_r. exact HRd.
    - right. destruct Hpre as (rest & Hrest).
      assert (proper_prefix (c :: pre) (c_path p)) as Hpp.
      { exists rest. split; [|exact Hrest]. intros ->. rewrite app_nil_r in Hrest.
        congruence. }
      apply proper_prefix_removelast in Hpp as (rest' & E); [|exact Hne].
      exists (c :: pre), rest'. split; [discriminate|]. auto. }
  assert (Hnd : files w1 !! (R ++ c_path p) <> Some Dir).
  { intros H. apply Hdir1 in H as [H|(pre & rest & Hpre & E & E2)].
    - apply (HD _ Hne) in H as (q & Hq & Hpp). apply (proj2 (Hfree q Hq)), Hpp.
    - apply app_inv_head in E2. subst pre.
      apply (proper_prefix_irrefl (c_path p)).
      apply proper_prefix_removelast; [exact Hne|]. now exists rest. }
  assert (Hsf : samefile w1 (c_source p)
                  (PosixPath.join (output_dir self) (PyStr.join "/" (c_path p))) = false).
  { unfold samefile. rewrite Hn1, Hdst, Hf1.
    destruct (files w1 !! (R ++ c_path p)); [|reflexivity].
    apply bool_decide_eq_false_2. intros ->. apply Hout, below_app, Hne. }
  assert (Hrd : read_file (c_source p) w1 = (Ok (c_data p), w1)).
  { unfold read_file. rewrite Hn1, Hf1. reflexivity. }
  pose proof (copyfile_run _ _ w1 _ _ Hsf Hrd Hdst Hnd) as Hcp.
  eexists. split; [apply (copy_entry_run self d _ _ _ w w1 _ Hg Hmk Hcp)|].
  unfold copied. cbn [cwd files emit set_files].
  split; [congruence|]. split; [|split].
  - intros k Hk. rewrite lookup_insert_ne by (intros <-; apply Hk, below_app, Hne).
    rewrite <- (Hsame k Hk). apply lookup_node_eq.
    + intros dd. apply Hfile1.
    + rewrite Hdir1. split; [|auto].
      intros [H|(pre & rest & Hpre & _ & ->)]; [exact H|].
      exfalso. apply Hk, below_app, Hpre.
  - intros rel dd Hrel. rewrite last_data_snoc.
    destruct (decide (c_path p = rel)) as [<-|Nq].
    + rewrite lookup_insert_eq. split.
      * intros [= <-]. right. reflexivity.
      * intros [[E _]|[= <-]]; [contradiction|reflexivity].
    + rewrite lookup_insert_ne by (intros E; apply app_inv_head in E; congruence).
      rewrite Hfile1. apply HF, Hrel.
  - intros rel Hrel. destruct (decide (c_path p = rel)) as [<-|Nq].
    + rewrite lookup_insert_eq. split; [discriminate|].
      intros (q & Hq & Hpp). exfalso. apply elem_of_app in Hq as [Hq|Hq].
      * apply (proj2 (Hfree q Hq)), Hpp.
      * apply list_elem_of_singleton in Hq. subst q. apply (proper_prefix_irrefl _ Hpp).
    + rewrite lookup_insert_ne by (intros E; apply app_inv_head in E; congruence).
      rewrite Hdir1, (HD rel Hrel). split.
      * intros [(q & Hq & Hpp)|(pre & rest & Hpre & E & E2)].
        -- exists q. split; [apply elem_of_app; now left | exact Hpp].
        -- apply app_inv_head in E2. subst pre. exists p.
           split; [apply elem_of_app; right; apply list_elem_of_singleton; reflexivity|].
           apply proper_prefix_removelast; [exact Hne | now exists rest].
      * intros (q & Hq & Hpp). apply elem_of_app in Hq as [Hq|Hq].
        -- left. now exists q.
        -- apply list_elem_of_singleton in Hq. subst q. right.
           apply proper_prefix_removelast in Hpp as (rest & E); [|exact Hne].
           exists rel, rest. auto.
Qed.
Lemma copy_loop_run self w0 R far todo :
  namei w0 (output_dir self) = Ok R -> files w0 !! R = Some Dir ->
  (forall k, below R k -> files w0 !! k = None) ->
  Forall (copy_ok w0 R) todo ->
  forall done d w,
  (forall p q, p ∈ done ++ todo -> q ∈ done ++ todo ->
               ~ proper_prefix (c_path p) (c_path q)) ->
  copied w0 R far done w ->
  exists d' w',
    copy_loop self (loaded todo) d w = (Ok d', w') /\
    copied w0 R far (done ++ todo) w'.
Proof.
  intros HR0 HRd0 Hempty. induction 1 as [|p todo Hp Htodo IH]; intros done d w Hfree Hc.
  - exists d, w. rewrite app_nil_r. split; [reflexivity | exact Hc].
  - destruct (copy_entry_step self w0 R far done p d w HR0 HRd0 Hempty Hp) as (w1 & Hrun & Hc1);
      [|exact Hc|].
    { intros q Hq. split; apply Hfree; rewrite elem_of_app;
        first [left; exact Hq | right; apply list_elem_of_here]. }
    destruct (IH (done ++ [p]) (Dict.set (c_key p) (JString (PyStr.join "/" (c_path p))) d) w1)
      as (d' & w' & Hloop & Hc');
      [rewrite <- app_assoc; exact Hfree | exact Hc1 |].
    exists d', w'. split.
    + cbn [loaded map copy_loop]. rewrite (io_bind_step _ _ _ _ _ Hrun). exact Hloop.
    + rewrite <- app_assoc in Hc'. exact Hc'.
Qed.

Lemma namei_top w o R name :
  namei w o = Ok R -> files w !! R = Some Dir -> clean_comp name ->
  namei w (PosixPath.join o name) = Ok (R ++ [name]).
Proof.
  intros HR HRd Hc.
  rewrite (namei_join w _ _ R HR (clean_comp_startswith _ Hc)).
  rewrite (split_no_slash name) by apply Hc. cbn [fold_left].
  now apply clean_comp_step.
Qed.

Lemma clean_meta_far : clean_comp "meta.far".
Proof. repeat split; discriminate. Qed.

Lemma clean_package_manifest : clean_comp "package.manifest".
Proof. repeat split; discriminate. Qed.

(** [copy_meta_far] into an empty output directory. *)
Lemma copy_meta_far_run self w R far :
  namei w (output_dir self) = Ok R -> files w !! R = Some Dir ->
  (forall k, below R k -> files w !! k = None) ->
  read_file (meta_far_path self) w = (Ok far, w) ->
  exists w1, copy_meta_far self w = (Ok tt, w1) /\ copied w R far [] w1.
Proof.
  intros HR HRd Hempty Hread.
  pose proof (namei_top w _ R "meta.far" HR HRd clean_meta_far) as Hdst.
  assert (Hnone : files w !! (R ++ ["meta.far"]) = None)
    by (apply Hempty, below_app; discriminate).
  assert (Hsf : samefile w (meta_far_path self)
                  (PosixPath.join (output_dir self) "meta.far") = false).
  { unfold samefile. rewrite Hdst, Hnone.
    destruct (namei w (meta_far_path self)) as [a|]; [|reflexivity].
    destruct (files w !! a); reflexivity. }
  eexists. split.
  - unfold copy_meta_far. apply (copyfile_run _ _ w far _ Hsf Hread Hdst). congruence.
  - unfold copied. cbn [cwd files emit set_files last_data].
    split; [reflexivity|]. split; [|split].
    + intros k Hk. apply lookup_insert_ne. intros <-. apply Hk, below_app. discriminate.
    + intros rel d Hrel. destruct (decide (rel = ["meta.far"])) as [->|Nq].
      * rewrite lookup_insert_eq. split.
        -- intros [= <-]. now left.
        -- intros [[_ ->]|H]; [reflexivity|discriminate].
      * rewrite lookup_insert_ne by (intros E; apply app_inv_head in E; congruence).
        rewrite (Hempty _ (below_app R rel Hrel)). split; [discriminate|].
        intros [[E _]|H]; [contradiction|discriminate].
    + intros rel Hrel. split.
      * intros H. exfalso. destruct (decide (rel = ["meta.far"])) as [->|Nq].
        -- rewrite lookup_insert_eq in H. discriminate.
        -- rewrite lookup_insert_ne in H
             by (intros E; apply app_inv_head in E; congruence).
           rewrite (Hempty _ (below_app R rel Hrel)) in H. discriminate.
      * intros (q & Hq & _). inversion Hq.
Qed.

Lemma stripped_plan w R plan kcs :
  Forall (copy_ok w R) plan -> Forall2 stripped (loaded plan) kcs ->
  kcs = collected plan.
Proof.
  intros Hok. revert kcs. induction Hok as [|p plan Hp _ IH]; intros kcs H.
  - inversion H. reflexivity.
  - cbn [loaded map] in H. inversion H as [|item kc items kcs' Hs Hrest]; subst.
    cbn [collected map]. f_equal; [|apply IH, Hrest].
    destruct Hs as (Hk & s & Hs & Hm). cbn [fst snd] in *. injection Hs as <-.
    destruct Hp as (Hg & _). rewrite Hg in Hm. injection Hm as Hm.
    destruct kc as [k c]. cbn [fst snd] in *. congruence.
Qed.

Lemma open_write_run p w l :
  namei w p = Ok l -> files w !! l <> Some Dir ->
  open_write p w
  = (Ok l, emit (EvOpenWrite p) (set_files (insert l (File (Bytes ""))) w)).
Proof.
  intros Hn Hd. unfold open_write.
  assert (create p (Bytes "") w = (Ok l, set_files (insert l (File (Bytes ""))) w)) as Hc.
  { unfold create. rewrite Hn.
    destruct (files w !! l) as [[|]|]; [reflexivity | contradiction | reflexivity]. }
  rewrite (io_bind_step _ _ _ _ _ Hc). reflexivity.
Qed.

Lemma reserved_not_prefix name q :
  name ∈ reserved -> hd "" (c_path q) ∉ reserved -> ~ proper_prefix [name] (c_path q).
Proof. intros Hn Hq (rest & _ & E). apply Hq. rewrite E. exact Hn. Qed.

Lemma reserved_no_data plan name w R :
  name ∈ reserved -> Forall (copy_ok w R) plan -> last_data plan [name] = None.
Proof.
  intros Hn Hok. apply last_data_None. intros q Hq E.
  rewrite Forall_forall in Hok. destruct (Hok q Hq) as (_ & _ & _ & Hres & _).
  apply Hres. rewrite E. exact Hn.
Qed.

(** The collection in a prepared world: it succeeds, and the output
    directory holds [meta.far], the copies and [package.manifest]. *)
Lemma collect_run self w R far plan :
  namei w (output_dir self) = Ok R -> files w !! R = Some Dir ->
  (forall k, below R k -> files w !! k = None) ->
  read_file (meta_far_path self) w = (Ok far, w) ->
  Forall (copy_ok w R) plan ->
  (forall p q, p ∈ plan -> q ∈ plan -> ~ proper_prefix (c_path p) (c_path q)) ->
  NoDup (Dict.keys (loaded plan)) ->
  exists w3,
    collect self (loaded plan) w = (Ok (as_manifest (collected plan)), w3) /\
    cwd w3 = cwd w /\
    (forall k, ~ below R k -> files w3 !! k = files w !! k) /\
    (forall rel d, rel <> [] ->
       (files w3 !! (R ++ rel) = Some (File d) <->
        (rel = ["meta.far"] /\ d = far) \/
        (rel = ["package.manifest"] /\ d = Bytes (manifest_text (collected plan))) \/
        last_data plan rel = Some d)) /\
    (forall rel, rel <> [] ->
       (files w3 !! (R ++ rel) = Some Dir <->
        exists q, q ∈ plan /\ proper_prefix rel (c_path q))).
Proof.
  intros HR HRd Hempty Hread Hok Hfree Hnd.
  destruct (copy_meta_far_run self w R far HR HRd Hempty Hread) as (w1 & Hmeta & Hc1).
  destruct (copy_loop_run self w R far plan HR HRd Hempty Hok [] (loaded plan) w1 Hfree Hc1)
    as (d' & w2 & Hloop & Hc2).
  cbn [app] in Hc2.
  assert (Hcopy : copy_to_output_dir self (loaded plan) w1 = (Ok d', w2)) by exact Hloop.
  destruct (copy_to_output_dir_ok _ _ _ _ _ Hnd Hcopy) as (kcs & Hs & ->).
  rewrite (stripped_plan w R plan kcs Hok Hs) in *. clear kcs Hs.
  destruct (copied_base _ _ _ _ _ HRd Hempty Hc2) as (Hcwd2 & Hle2 & HRd2).
  destruct Hc2 as (_ & Hsame2 & HF2 & HD2).
  assert (HR2 : namei w2 (output_dir self) = Ok R)
    by (apply (namei_mono w w2 _ R Hcwd2 Hle2 HR)).
  pose proof (namei_top w2 _ R "package.manifest" HR2 HRd2 clean_package_manifest) as Hmn.
  assert (Hpm : "package.manifest" ∈ reserved)
    by (apply list_elem_of_further, list_elem_of_here).
  assert (Hmd : files w2 !! (R ++ ["package.manifest"]) <> Some Dir).
  { intros H. apply HD2 in H as (q & Hq & Hpp); [|discriminate].
    rewrite Forall_forall in Hok. destruct (Hok q Hq) as (_ & _ & _ & Hres & _).
    now apply (reserved_not_prefix _ q Hpm Hres). }
  pose proof (open_write_run _ w2 _ Hmn Hmd) as Ho.
  pose proof (write_new_manifest_run self (collected plan) w2 _ _ Ho) as Hw.
  eexists. split.
  { unfold collect. rewrite (io_bind_step _ _ _ _ _ Hmeta).
    rewrite (io_bind_step _ _ _ _ _ Hcopy), (io_bind_step _ _ _ _ _ Hw). reflexivity. }
  cbn [cwd files emit set_files]. split; [exact Hcwd2|]. split; [|split].
  - intros k Hk.
    rewrite !lookup_insert_ne by (intros <-; apply Hk, below_app; discriminate).
    apply Hsame2, Hk.
  - intros rel d Hrel. destruct (decide (rel = ["package.manifest"])) as [->|Nq].
    + rewrite lookup_insert_eq.
      rewrite (reserved_no_data plan _ w R Hpm Hok). split.
      * intros [= <-]. right. left. auto.
      * intros [[E _]|[[_ ->]|H]]; [discriminate | reflexivity | discriminate].
    + rewrite !lookup_insert_ne by (intros E; apply app_inv_head in E; congruence).
      rewrite (HF2 rel d Hrel). split.
      * intros [H|H]; [now left | now right; right].
      * intros [H|[[E _]|H]]; [now left | contradiction | now right].
  - intros rel Hrel. destruct (decide (rel = ["package.manifest"])) as [->|Nq].
    + rewrite lookup_insert_eq. split; [discriminate|].
      intros (q & Hq & Hpp). exfalso.
      rewrite Forall_forall in Hok. destruct (Hok q Hq) as (_ & _ & _ & Hres & _).
      now apply (reserved_not_prefix _ q Hpm Hres).
    + rewrite !lookup_insert_ne by (intros E; apply app_inv_head in E; congruence).
      apply HD2, Hrel.
Qed.
Lemma write_depfile_run self deps w fl :
  namei w (depfile self) = Ok fl -> files w !! fl <> Some Dir ->
  exists w',
    write_depfile self deps w = (Ok tt, w') /\
    cwd w' = cwd w /\
    (forall k, k <> fl -> files w' !! k = files w !! k) /\
    text_at w' (depfile self) = Some (depfile_text (tar_path_of self) deps).
Proof.
  intros Hn Hd. pose proof (open_write_run _ w fl Hn Hd) as Ho.
  set (w1 := emit (EvOpenWrite (depfile self))
               (set_files (insert fl (File (Bytes ""))) w)) in Ho.
  assert (Hw : write_depfile self deps w
               = (Ok tt, set_files (insert fl (File (Bytes ("" +:+ depfile_text (tar_path_of self) deps)))) w1)).
  { unfold write_depfile. rewrite (io_bind_step _ _ _ _ _ Ho).
    apply fwrite_bytes. unfold w1. cbn [files emit set_files]. apply lookup_insert_eq. }
  eexists. split; [exact Hw|]. split; [reflexivity|]. split.
  - intros k Hk. unfold w1. cbn [files emit set_files].
    rewrite !lookup_insert_ne by congruence. reflexivity.
  - eapply write_depfile_ok, Hw.
Qed.

Lemma loaded_values plan : Dict.values (loaded plan) = map JString (map c_source plan).
Proof. induction plan as [|p plan IH]; [reflexivity|]. cbn. f_equal. exact IH. Qed.

(** The whole run in a prepared world.  It succeeds, and the lemma says
    what the archive holds, what is left in the output directory and
    what the depfile reads. *)
Lemma run_prepared json_loads self w R plan far deps :
  load json_loads self w = (Ok (loaded plan, deps), w) ->
  prepared self w R plan far ->
  exists w3 w' ms,
    collect self (loaded plan) w = (Ok (as_manifest (collected plan)), w3) /\
    text_at w3 (manifest_path_of self) = Some (manifest_text (collected plan)) /\
    (forall rel d, rel <> [] ->
       (files w3 !! (R ++ rel) = Some (File d) <->
        (rel = ["meta.far"] /\ d = far) \/
        (rel = ["package.manifest"] /\ d = Bytes (manifest_text (collected plan))) \/
        last_data plan rel = Some d)) /\
    run json_loads self w = (Ok tt, w') /\
    deps = PyStr.join " " (map c_source plan) /\
    archive_at w' (R ++ ["package.tar"]) = Some ms /\
    NoDup (map (fun m => member_name (fst m)) ms) /\
    (forall m, m ∈ ms <->
       m = (create_gnu_header "./meta.far", far) \/
       m = (create_gnu_header "./package.manifest",
            Bytes (manifest_text (collected plan))) \/
       exists q d, q ∈ plan /\ last_data plan (c_path q) = Some d /\
                   m = (create_gnu_header (arcname (c_path q)), d)) /\
    (forall k, below R k -> is_file (files w') k -> k = R ++ ["package.tar"]) /\
    (forall rel, rel <> [] ->
       (files w' !! (R ++ rel) = Some Dir <->
        exists q, q ∈ plan /\ proper_prefix rel (c_path q))) /\
    (forall k fl, namei w (depfile self) = Ok fl -> ~ below R k -> k <> fl ->
                  files w' !! k = files w !! k) /\
    text_at w' (depfile self) = Some (depfile_text (tar_path_of self) deps).
Proof.
  intros Hload (HR & HRd & Hempty & Hread & Hok & Hfree & fl & Hfl & Hfld & Hflo).
  destruct (load_ok _ _ _ _ _ _ Hload) as (_ & Hjoin & f & data & _ & _ & Hparse).
  pose proof (parse_blobs_NoDup _ _ Hparse) as Hnd.
  destruct (collect_run self w R far plan HR HRd Hempty Hread Hok Hfree Hnd)
    as (w3 & Hcollect & Hcwd3 & Hsame3 & HF3 & HD3).
  assert (Hle3 : dirs_le (files w) (files w3)).
  { intros l Hl. rewrite Hsame3; [exact Hl|]. intros Hb.
    rewrite (Hempty l Hb) in Hl. discriminate. }
  assert (HR3 : namei w3 (output_dir self) = Ok R) by (apply (namei_mono w w3 _ R Hcwd3 Hle3 HR)).
  assert (HRd3 : files w3 !! R = Some Dir) by (apply Hle3, HRd).
  assert (Hres : forall q, q ∈ plan -> hd "" (c_path q) ∉ reserved).
  { intros q Hq. rewrite Forall_forall in Hok. now destruct (Hok q Hq) as (_ & _ & _ & H & _). }
  assert (Hcl : forall q, q ∈ plan -> c_path q <> [] /\ Forall clean_comp (c_path q)).
  { intros q Hq. rewrite Forall_forall in Hok. now destruct (Hok q Hq) as (_ & H1 & H2 & _). }
  assert (Hpt : "package.tar" ∈ reserved)
    by (do 2 apply list_elem_of_further; apply list_elem_of_here).
  assert (Htd3 : files w3 !! (R ++ ["package.tar"]) <> Some Dir).
  { intros H. apply HD3 in H as (q & Hq & Hpp); [|discriminate].
    now apply (reserved_not_prefix _ q Hpt (Hres q Hq)). }
  assert (Hclean : forall rel, rel <> [] -> is_file (files w3) (R ++ rel) ->
                               Forall clean_comp rel).
  { intros rel Hrel (d & Hd). apply (HF3 rel d Hrel) in Hd as [[-> _]|[[-> _]|Hd]].
    - constructor; [apply clean_meta_far | constructor].
    - constructor; [apply clean_package_manifest | constructor].
    - apply last_data_Some in Hd as (q & Hq & <- & _). apply Hcl, Hq. }
  destruct (archive_output_full self w3 R HR3 HRd3 Htd3 Hclean)
    as (w4 & ms & Harc & Hcwd4 & Hat4 & Hms & Hgone & Hkeep & Hdistinct).
  set (t := R ++ ["package.tar"]) in *.
  assert (Hflt : fl <> t) by (intros ->; apply Hflo, below_app; discriminate).
  assert (Hout4 : forall k, ~ below R k -> files w4 !! k = files w !! k).
  { intros k Hk. rewrite Hkeep.
    - apply Hsame3, Hk.
    - intros ->. apply Hk, below_app. discriminate.
    - intros [Hb _]. contradiction. }
  assert (Hle4 : dirs_le (files w) (files w4)).
  { intros l Hl. rewrite Hout4; [exact Hl|]. intros Hb.
    rewrite (Hempty l Hb) in Hl. discriminate. }
  assert (Hfl4 : namei w4 (depfile self) = Ok fl).
  { apply (namei_mono w w4 _ fl); [congruence | exact Hle4 | exact Hfl]. }
  assert (Hfld4 : files w4 !! fl <> Some Dir) by (rewrite Hout4; assumption).
  destruct (write_depfile_run self deps w4 fl Hfl4 Hfld4)
    as (w' & Hdep & Hcwd' & Hsame' & Htext).
  exists w3, w', ms.
  split; [exact Hcollect|]. split.
  { unfold text_at, manifest_path_of.
    rewrite (namei_top w3 _ R "package.manifest" HR3 HRd3 clean_package_manifest).
    rewrite (proj2 (HF3 ["package.manifest"] (Bytes (manifest_text (collected plan)))
                      ltac:(discriminate))); [reflexivity|].
    right. left. auto. }
  split; [exact HF3|].
  split; [exact (run_stages _ _ _ _ _ _ _ _ _ Hload Hcollect Harc Hdep)|].
  split.
  { apply str_join_ok in Hjoin as (srcs & Hv & ->). rewrite loaded_values in Hv.
    apply map_JString_inj in Hv. congruence. }
  split.
  { unfold archive_at. rewrite Hsame' by congruence. fold t. rewrite Hat4. reflexivity. }
  split.
  { rewrite <- (map_map fst member_name).
    apply NoDup_fmap_2_strong; [|exact Hdistinct].
    intros h1 h2 H1 H2 E.
    apply elem_of_map in H1 as (m1 & -> & H1). apply elem_of_map in H2 as (m2 & -> & H2).
    apply Hms in H1 as (r1 & d1 & _ & _ & _ & ->).
    apply Hms in H2 as (r2 & d2 & _ & _ & _ & ->).
    cbn [fst] in *. rewrite !member_name_header in E. now rewrite E. }
  split.
  { intros m. rewrite Hms. split.
    - intros (rel & d & Hrel & Hnt & Hfile & ->).
      rewrite (arcname_clean rel Hrel) by (apply Hclean; [exact Hrel | exists d; exact Hfile]).
      apply (HF3 rel d Hrel) in Hfile as [[-> ->]|[[-> ->]|Hd]].
      + left. reflexivity.
      + right. left. reflexivity.
      + right. right. destruct (last_data_Some _ _ _ Hd) as (q & Hq & <- & _).
        exists q, d. auto.
    - intros [->|[->|(q & d & Hq & Hd & ->)]].
      + exists ["meta.far"], far. split; [discriminate|]. split; [discriminate|].
        split; [apply HF3; [discriminate | left; auto]|].
        rewrite arcname_clean; [reflexivity | discriminate |].
        constructor; [apply clean_meta_far | constructor].
      + exists ["package.manifest"], (Bytes (manifest_text (collected plan))).
        split; [discriminate|]. split; [discriminate|].
        split; [apply HF3; [discriminate | right; left; auto]|].
        rewrite arcname_clean; [reflexivity | discriminate |].
        constructor; [apply clean_package_manifest | constructor].
      + destruct (Hcl q Hq) as [Hne Hc].
        exists (c_path q), d. split; [exact Hne|]. split.
        { intros E. apply (Hres q Hq). rewrite E. exact Hpt. }
        split; [apply HF3; [exact Hne | right; right; exact Hd]|].
        rewrite arcname_clean by assumption. reflexivity. }
  split.
  { intros k Hb (d & Hd). destruct (decide (k = t)) as [E|E]; [exact E|]. exfalso.
    assert (k <> fl) by (intros ->; contradiction).
    rewrite Hsame' in Hd by assumption.
    destruct (files w3 !! k) as [[d3|]|] eqn:E3.
    - rewrite (Hgone k E Hb) in Hd by (exists d3; exact E3). discriminate.
    - rewrite Hkeep in Hd; [congruence | exact E |].
      intros [_ (d3 & H3)]. congruence.
    - rewrite Hkeep in Hd; [congruence | exact E |].
      intros [_ (d3 & H3)]. congruence. }
  split.
  { intros rel Hrel.
    assert (Hb : below R (R ++ rel)) by (apply below_app, Hrel).
    assert (R ++ rel <> fl) by (intros E; apply Hflo; rewrite <- E; exact Hb).
    rewrite Hsame' by assumption.
    destruct (decide (R ++ rel = t)) as [E|E].
    - rewrite E, Hat4. split; [discriminate|].
      intros (q & Hq & Hpp). exfalso. apply app_inv_head in E. subst rel.
      now apply (reserved_not_prefix _ q Hpt (Hres q Hq)).
    - rewrite <- (HD3 rel Hrel).
      destruct (files w3 !! (R ++ rel)) as [[d3|]|] eqn:E3.
      + rewrite (Hgone _ E Hb) by (exists d3; exact E3). split; discriminate.
      + rewrite Hkeep; [rewrite E3; reflexivity | exact E |].
        intros [_ (d3 & H3)]. congruence.
      + rewrite Hkeep; [rewrite E3; reflexivity | exact E |].
        intros [_ (d3 & H3)]. congruence. }
  split; [|exact Htext].
  intros k fl' Hfl' Hk Hne. assert (fl' = fl) by congruence. subst fl'.
  rewrite Hsame' by exact Hne. apply Hout4, Hk.
Qed.
Lemma last_data_last pre p post :
  (forall q, q ∈ post -> c_path q <> c_path p) ->
  last_data (pre ++ p :: post) (c_path p) = Some (c_data p).
Proof.
  intros Hpost. induction pre as [|x pre IH]; cbn [app last_data].
  - rewrite (proj2 (last_data_None post (c_path p)) Hpost).
    destruct (decide (c_path p = c_path p)); [reflexivity | contradiction].
  - rewrite IH. reflexivity.
Qed.

Lemma last_data_NoDup plan q :
  NoDup (map c_path plan) -> q ∈ plan -> last_data plan (c_path q) = Some (c_data q).
Proof.
  intros Hnd Hq. apply list_elem_of_split in Hq as (pre & post & ->).
  apply last_data_last. intros x Hx E.
  rewrite map_app in Hnd. cbn [map] in Hnd.
  apply NoDup_app in Hnd as (_ & _ & Hnd). apply NoDup_cons in Hnd as [Hfresh _].
  apply Hfresh. rewrite <- E. apply elem_of_map_2, Hx.
Qed.

Lemma arcname_canonical rel :
  rel <> [] -> Forall clean_comp rel ->
  arcname rel = (if PosixPath.has_slash (PyStr.join "/" rel)
                 then PyStr.join "/" rel else "./" +:+ PyStr.join "/" rel) /\
  strip_dot_slash (arcname rel) = PyStr.join "/" rel.
Proof.
  intros Hne Hc. split.
  - destruct rel as [|a [|b l]]; [congruence| |].
    + inversion Hc as [|? ? (_ & _ & _ & Hs) _]; subst.
      cbn [PyStr.join arcname]. rewrite Hs. reflexivity.
    + rewrite pystr_join_cons by discriminate. rewrite has_slash_app_slash.
      cbn [arcname]. now rewrite pystr_join_cons by discriminate.
  - pose proof (member_path_clean rel (Bytes "") Hne Hc) as H.
    rewrite (arcname_clean rel Hne Hc) in H. unfold member_path in H.
    cbn [fst] in H. now rewrite member_name_header in H.
Qed.

Lemma member_view_header ms n d :
  (forall m, m ∈ ms -> exists x, fst m = create_gnu_header x) ->
  ((n, d) ∈ map member_view ms <-> (create_gnu_header n, d) ∈ ms).
Proof.
  intros Hh. split.
  - intros H. apply elem_of_map in H as ([h d'] & E & Hm).
    destruct (Hh _ Hm) as (x & Hx). cbn [fst] in Hx. subst h.
    unfold member_view in E. cbn [fst snd] in E. rewrite member_name_header in E.
    injection E as -> ->. exact Hm.
  - intros H. apply elem_of_map. exists (create_gnu_header n, d).
    split; [|exact H]. unfold member_view. cbn [fst snd].
    now rewrite member_name_header.
Qed.

Lemma NoDup_map_eq {A B : Type} (f : A -> B) (l : list A) x y :
  NoDup (map f l) -> x ∈ l -> y ∈ l -> f x = f y -> x = y.
Proof.
  induction l as [|a l IH]; intros Hnd Hx Hy E; [inversion Hx|].
  cbn [map] in Hnd. apply NoDup_cons in Hnd as [Hfresh Hnd].
  apply elem_of_cons in Hx as [->|Hx]; apply elem_of_cons in Hy as [->|Hy].
  - reflexivity.
  - exfalso. apply Hfresh. rewrite E. apply elem_of_map_2, Hy.
  - exfalso. apply Hfresh. rewrite <- E. apply elem_of_map_2, Hx.
  - now apply IH.
Qed.

Lemma one_member (l : list (tar_header * data)) :
  NoDup (map (fun m => member_name (fst m)) l) ->
  forall x, x ∈ l ->
  length (filter (fun m => member_name (fst m) = member_name (fst x)) l) = 1.
Proof.
  induction l as [|a l IH]; intros Hnd x Hx; [inversion Hx|].
  cbn [map] in Hnd. apply NoDup_cons in Hnd as [Hfresh Hnd].
  rewrite filter_cons. apply elem_of_cons in Hx as [->|Hx].
  - destruct (decide (member_name (fst a) = member_name (fst a))); [|contradiction].
    cbn [length]. f_equal. apply length_zero_iff_nil.
    destruct (filter _ l) as [|y ys] eqn:E; [reflexivity|]. exfalso.
    assert (Hy : y ∈ filter (fun m => member_name (fst m) = member_name (fst a)) l)
      by (rewrite E; apply list_elem_of_here).
    apply list_elem_of_filter in Hy as [Ey Hy]. apply Hfresh. rewrite <- Ey.
    apply (elem_of_map_2 (fun m => member_name (fst m))), Hy.
  - destruct (decide (member_name (fst a) = member_name (fst x))) as [E|E].
    + exfalso. apply Hfresh. rewrite E.
      apply (elem_of_map_2 (fun m => member_name (fst m))), Hx.
    + now apply IH.
Qed.

Lemma lines_app (a b : list (string * string)) :
  manifest_text (a ++ b)
  = fold_right String.append "" (map manifest_line a) +:+ manifest_text b.
Proof.
  unfold manifest_text. induction a as [|x a IH]; [reflexivity|].
  cbn [app map fold_right]. rewrite IH. now rewrite append_assoc.
Qed.

(** Nothing is below [R] when no location of the file system is. *)
Lemma nothing_below_check (fs : gmap loc node) (R : loc) :
  forallb (fun kn => match strip_loc R (fst kn) with
                     | Some (_ :: _) => false
                     | _ => true
                     end) (map_to_list fs) = true ->
  forall k, below R k -> fs !! k = None.
Proof.
  intros H k (rel & Hne & ->). destruct (fs !! (R ++ rel)) as [n|] eqn:E; [|reflexivity].
  exfalso. apply elem_of_map_to_list, list_elem_of_In in E.
  rewrite forallb_forall in H. specialize (H _ E). cbn [fst] in H.
  rewrite strip_loc_app in H. destruct rel; [congruence | discriminate].
Qed.

Ltac nothing_below := apply nothing_below_check; vm_compute; reflexivity.

Lemma load_fst json_loads self w x :
  fst (load json_loads self w) = Ok x -> load json_loads self w = (Ok x, w).
Proof.
  destruct (load json_loads self w) as [r w'] eqn:E. cbn [fst]. intros ->.
  now rewrite (load_world _ _ _ _ _ E).
Qed.

Lemma init_fst a b c d w self :
  fst (init a b c d w) = Ok self -> init a b c d w = (Ok self, w).
Proof.
  unfold init.
  repeat match goal with |- context [if ?c then _ else _] => destruct c end;
    cbn [fst]; intros [= <-]; reflexivity.
Qed.

Lemma read_file_fst p w x :
  fst (read_file p w) = Ok x -> read_file p w = (Ok x, w).
Proof.
  destruct (read_file p w) as [r w'] eqn:E. cbn [fst]. intros ->.
  now rewrite (read_file_world _ _ _ _ E).
Qed.

Ltac not_below :=
  let rel := fresh "rel" in
  let E := fresh "E" in
  intros (rel & _ & E); discriminate E.

Ltac not_reserved :=
  let H := fresh "H" in
  intros H; repeat (apply elem_of_cons in H as [H|H]; [discriminate H |]); inversion H.

Ltac copy_is_ok :=
  split; [vm_compute; reflexivity|];
  split; [discriminate|];
  split; [repeat constructor; discriminate|];
  split; [not_reserved|];
  eexists; split; [vm_compute; reflexivity|];
  split; [vm_compute; reflexivity | not_below].

(** ** The archive *)

(** C3, as amended.  Take a run in a world prepared for its entries: the
    output directory is there and holds nothing, the metadata archive
    can be read, every source path names a regular file outside the
    output directory, the canonical paths are made of plain names, none
    begins with [meta.far], [package.manifest] or [package.tar], none is
    the beginning of another, and the depfile is outside the output
    directory.  Then the run succeeds; no two members of the archive
    have the same name; the members are [./meta.far] with the content of
    the metadata archive, [./package.manifest] with the text of the
    output manifest, and for each canonical path listed in the output
    manifest one member that holds what the last entry with that path
    holds (what its own entry holds when no two entries have the same
    canonical path), named by the path, after [./] when the path is a
    single name; the archive does not contain itself; afterwards the
    only regular file below the output directory is the archive, and the
    directories below it are those made for the copies. *)
Theorem C3_archive_of_prepared_run (json_loads : decoder) (self : t)
    (w : world) (R : loc) (plan : list copy) (far : data) (deps : string) :
  load json_loads self w = (Ok (loaded plan, deps), w) ->
  prepared self w R plan far ->
  exists w' ms,
    run json_loads self w = (Ok tt, w') /\
    archive_at w' (R ++ ["package.tar"]) = Some ms /\
    NoDup (map (fun m => member_name (fst m)) ms) /\
    (forall n d,
       (n, d) ∈ map member_view ms <->
       (n = "./meta.far" /\ d = far) \/
       (n = "./package.manifest" /\ d = Bytes (manifest_text (collected plan))) \/
       exists q, q ∈ plan /\ n = arcname (c_path q) /\
                 last_data plan (c_path q) = Some d) /\
    (forall q, q ∈ plan ->
       (c_key q, PyStr.join "/" (c_path q)) ∈ collected plan /\
       strip_dot_slash (arcname (c_path q)) = PyStr.join "/" (c_path q) /\
       arcname (c_path q)
       = (if PosixPath.has_slash (PyStr.join "/" (c_path q))
          then PyStr.join "/" (c_path q) else "./" +:+ PyStr.join "/" (c_path q))) /\
    (NoDup (map c_path plan) ->
     forall q, q ∈ plan -> last_data plan (c_path q) = Some (c_data q)) /\
    (forall m, m ∈ ms -> member_name (fst m) <> "./package.tar") /\
    (forall k, below R k -> is_file (files w') k -> k = R ++ ["package.tar"]) /\
    (forall rel, rel <> [] ->
       (files w' !! (R ++ rel) = Some Dir <->
        exists q, q ∈ plan /\ proper_prefix rel (c_path q))).
Proof.
  intros Hload Hprep.
  destruct (run_prepared _ _ _ _ _ _ _ Hload Hprep)
    as (w3 & w' & ms & _ & _ & _ & Hrun & _ & Hat & Hnd & Hms & Honly & Hdirs & _).
  destruct Hprep as (_ & _ & _ & _ & Hok & _).
  rewrite Forall_forall in Hok.
  assert (Hhead : forall m, m ∈ ms -> exists x, fst m = create_gnu_header x).
  { intros m Hm. apply Hms in Hm as [->|[->|(q & d & _ & _ & ->)]]; eexists; reflexivity. }
  assert (Hview : forall n d,
            (n, d) ∈ map member_view ms <->
            (n = "./meta.far" /\ d = far) \/
            (n = "./package.manifest" /\ d = Bytes (manifest_text (collected plan))) \/
            exists q, q ∈ plan /\ n = arcname (c_path q) /\
                      last_data plan (c_path q) = Some d).
  { intros n d. rewrite (member_view_header ms n d Hhead), Hms. split.
    - intros [E|[E|(q & d' & Hq & Hd & E)]].
      + left. apply (f_equal member_view) in E. unfold member_view in E.
        cbn [fst snd] in E. rewrite !member_name_header in E. now injection E.
      + right. left. apply (f_equal member_view) in E. unfold member_view in E.
        cbn [fst snd] in E. rewrite !member_name_header in E. now injection E.
      + right. right. apply (f_equal member_view) in E. unfold member_view in E.
        cbn [fst snd] in E. rewrite !member_name_header in E.
        injection E as -> ->. eauto.
    - intros [[-> ->]|[[-> ->]|(q & Hq & -> & Hd)]]; [now left | now right; left|].
      right. right. eauto. }
  exists w', ms. split; [exact Hrun|]. split; [exact Hat|]. split; [exact Hnd|].
  split; [exact Hview|]. split; [|split; [|split; [|split]]].
  - intros q Hq. destruct (Hok q Hq) as (_ & Hne & Hc & _).
    split; [apply (elem_of_map_2 (fun p => (c_key p, PyStr.join "/" (c_path p)))), Hq|].
    destruct (arcname_canonical (c_path q) Hne Hc). auto.
  - intros Hnp q Hq. now apply last_data_NoDup.
  - intros m Hm E. destruct (Hhead m Hm) as (x & Hx). destruct m as [h d].
    cbn [fst] in *. subst h. rewrite member_name_header in E. subst x.
    apply Hms in Hm as [Hm|[Hm|(q & d' & Hq & _ & Hm)]].
    + apply (f_equal (fun m => member_name (fst m))) in Hm. cbn [fst] in Hm.
      rewrite !member_name_header in Hm. discriminate.
    + apply (f_equal (fun m => member_name (fst m))) in Hm. cbn [fst] in Hm.
      rewrite !member_name_header in Hm. discriminate.
    + apply (f_equal (fun m => member_name (fst m))) in Hm. cbn [fst] in Hm.
      rewrite !member_name_header in Hm.
      destruct (Hok q Hq) as (_ & Hne & Hc & Hres & _).
      change "./package.tar" with (arcname ["package.tar"]) in Hm.
      apply arcname_inj in Hm; [|discriminate | apply clean_package_tar | exact Hne | exact Hc].
      apply Hres. rewrite <- Hm. do 2 apply list_elem_of_further. apply list_elem_of_here.
  - exact Honly.
  - exact Hdirs.
Qed.

Lemma C3_archive_of_prepared_run_witness :
  exists w' ms,
    run (fun _ => Ok Scenario.manifest_json) Scenario.self0 Scenario.start0 = (Ok tt, w') /\
    archive_at w' (Scenario.output_loc ++ ["package.tar"]) = Some ms /\
    (forall n d,
       (n, d) ∈ map member_view ms <->
       (n = "./meta.far" /\ d = Bytes "FAR") \/
       (n = "./package.manifest" /\
        d = Bytes (manifest_text (collected scenario_plan))) \/
       exists q, q ∈ scenario_plan /\ n = arcname (c_path q) /\
                 last_data scenario_plan (c_path q) = Some d).
Proof.
  destruct (C3_archive_of_prepared_run (fun _ => Ok Scenario.manifest_json)
              Scenario.self0 Scenario.start0 Scenario.output_loc scenario_plan
              (Bytes "FAR") "../../out/obj/app")
    as (w' & ms & Hrun & Hat & _ & Hms & _).
  - apply load_fst. vm_compute. reflexivity.
  - split; [vm_compute; reflexivity|]. split; [vm_compute; reflexivity|].
    split; [nothing_below|]. split; [apply read_file_fst; vm_compute; reflexivity|].
    split; [|split].
    + constructor; [copy_is_ok | constructor].
    + intros p q Hp Hq. apply list_elem_of_singleton in Hp, Hq. subst.
      apply proper_prefix_irrefl.
    + eexists. split; [vm_compute; reflexivity|].
      split; [vm_compute; discriminate | not_below].
  - exists w', ms. auto.
Defined.

(** C3, the claim as stated fails: in the scenario the output manifest
    lists [out/obj/app] alone, and the archive holds, besides that file
    and [meta.far], the manifest file [package.manifest]. *)
Lemma C3_counterexample :
  fst (main (fun _ => Ok Scenario.manifest_json) Scenario.argv Scenario.start0) = 0 /\
  text_at Scenario.after_collect "pkg/package.manifest"
  = Some (manifest_text [("bin/app", "out/obj/app")]) /\
  exists ms,
    archive_at
      (snd (main (fun _ => Ok Scenario.manifest_json) Scenario.argv Scenario.start0))
      Scenario.tar_loc = Some ms /\
    ~ (forall n, n ∈ map member_path ms <-> n ∈ ["out/obj/app"] \/ n = "meta.far").
Proof.
  split; [vm_compute; reflexivity|]. split; [vm_compute; reflexivity|].
  eexists. split; [vm_compute; reflexivity|].
  intros H. destruct (H "package.manifest") as [H1 _].
  destruct H1 as [H1|H1].
  - vm_compute.
    first [ apply list_elem_of_here
          | apply list_elem_of_further, list_elem_of_here
          | apply list_elem_of_further, list_elem_of_further, list_elem_of_here ].
  - apply list_elem_of_singleton in H1. discriminate.
  - discriminate.
Qed.
(** ** Names of more than 100 bytes *)

(** C8, as amended.  In a world prepared for the entries, the run
    succeeds whatever the lengths of the canonical paths: archiving
    never fails on account of a length.  The file of a canonical path
    [c] is archived under the member name [n], which is [c] when [c] has
    a slash and [./c] when it is a single name, two bytes longer; the
    archive has one member of that name.  When [n] has at most 100 bytes
    the header holds it in its name field and there is no long-name
    record; when [n] has more, the name field holds the first 100 bytes
    of [n] and a GNU long-name record holds [n] in full, so that a
    reader of the GNU format gets [n] back. *)
Theorem C8_member_names_of_copies (json_loads : decoder) (self : t)
    (w : world) (R : loc) (plan : list copy) (far : data) (deps : string) :
  load json_loads self w = (Ok (loaded plan, deps), w) ->
  prepared self w R plan far ->
  exists w' ms,
    run json_loads self w = (Ok tt, w') /\
    archive_at w' (R ++ ["package.tar"]) = Some ms /\
    forall q, q ∈ plan ->
      let c := PyStr.join "/" (c_path q) in
      let n := arcname (c_path q) in
      Re.match_group1 path_stripper (c_source q) = Some c /\
      n = (if PosixPath.has_slash c then c else "./" +:+ c) /\
      (exists d, last_data plan (c_path q) = Some d /\
                 forall m, m ∈ ms ->
                           (member_name (fst m) = n <-> m = (create_gnu_header n, d))) /\
      (exists d, (create_gnu_header n, d) ∈ ms) /\
      member_name (create_gnu_header n) = n /\
      (String.length n <= LENGTH_NAME -> create_gnu_header n = TarHeader n None) /\
      (LENGTH_NAME < String.length n ->
       create_gnu_header n = TarHeader (PyStr.take LENGTH_NAME n) (Some n)).
Proof.
  intros Hload Hprep.
  destruct (run_prepared _ _ _ _ _ _ _ Hload Hprep)
    as (w3 & w' & ms & _ & _ & HF3 & Hrun & _ & Hat & Hnd & Hms & _).
  destruct Hprep as (_ & _ & _ & _ & Hok & _).
  rewrite Forall_forall in Hok.
  exists w', ms. split; [exact Hrun|]. split; [exact Hat|].
  intros q Hq c n. destruct (Hok q Hq) as (Hg & Hne & Hc & Hres & _).
  split; [exact Hg|].
  split; [apply (arcname_canonical (c_path q) Hne Hc)|].
  assert (Hd : exists d, last_data plan (c_path q) = Some d).
  { destruct (last_data plan (c_path q)) as [d|] eqn:E; [eauto|].
    exfalso. apply (proj1 (last_data_None plan (c_path q)) E q Hq). reflexivity. }
  destruct Hd as (d & Hd).
  assert (Hin : (create_gnu_header n, d) ∈ ms).
  { apply Hms. right. right. exists q, d. auto. }
  split; [|split; [eauto|]].
  - exists d. split; [exact Hd|]. intros m Hm. split.
    + intros E.
      apply (NoDup_map_eq (fun m => member_name (fst m)) ms); auto.
      cbn [fst]. rewrite member_name_header. exact E.
    + intros ->. cbn [fst]. apply member_name_header.
  - split; [apply member_name_header|]. unfold create_gnu_header. split.
    + intros Hle. rewrite (take_all _ _ Hle).
      destruct (Nat.ltb_spec LENGTH_NAME (String.length n)); [lia | reflexivity].
    + intros Hlt. destruct (Nat.ltb_spec LENGTH_NAME (String.length n)); [reflexivity | lia].
Qed.

Lemma C8_member_names_of_copies_witness :
  (exists w' ms,
     run (fun _ => Ok Scenario.long_manifest_json) Scenario.self0 Scenario.long_initial
     = (Ok tt, w') /\
     archive_at w' (Scenario.output_loc ++ ["package.tar"]) = Some ms /\
     exists d,
       (TarHeader (PyStr.take LENGTH_NAME (arcname ["out"; "obj"; Scenario.long_leaf]))
          (Some (arcname ["out"; "obj"; Scenario.long_leaf])), d) ∈ ms) /\
  (exists w' ms,
     run (fun _ => Ok top_manifest_json) Scenario.self0 top_initial = (Ok tt, w') /\
     archive_at w' (Scenario.output_loc ++ ["package.tar"]) = Some ms /\
     exists d,
       (TarHeader (PyStr.take LENGTH_NAME (arcname [top_leaf]))
          (Some (arcname [top_leaf])), d) ∈ ms).
Proof.
  split.
  - destruct (C8_member_names_of_copies (fun _ => Ok Scenario.long_manifest_json)
                Scenario.self0 Scenario.long_initial Scenario.output_loc long_plan
                (Bytes "FAR") Scenario.long_source)
      as (w' & ms & Hrun & Hat & Hq).
    + apply load_fst. vm_compute. reflexivity.
    + split; [vm_compute; reflexivity|]. split; [vm_compute; reflexivity|].
      split; [nothing_below|]. split; [apply read_file_fst; vm_compute; reflexivity|].
      split; [|split].
      * constructor; [copy_is_ok | constructor].
      * intros p q Hp Hq. apply list_elem_of_singleton in Hp, Hq. subst.
        apply proper_prefix_irrefl.
      * eexists. split; [vm_compute; reflexivity|].
        split; [vm_compute; discriminate | not_below].
    + exists w', ms. split; [exact Hrun|]. split; [exact Hat|].
      destruct (Hq _ (list_elem_of_here _ _)) as (_ & _ & _ & (d & Hd) & _ & _ & Hlong).
      exists d. rewrite Hlong in Hd; [exact Hd|]. vm_compute. lia.
  - destruct (C8_member_names_of_copies (fun _ => Ok top_manifest_json)
                Scenario.self0 top_initial Scenario.output_loc top_plan
                (Bytes "FAR") top_source)
      as (w' & ms & Hrun & Hat & Hq).
    + apply load_fst. vm_compute. reflexivity.
    + split; [vm_compute; reflexivity|]. split; [vm_compute; reflexivity|].
      split; [nothing_below|]. split; [apply read_file_fst; vm_compute; reflexivity|].
      split; [|split].
      * constructor; [copy_is_ok | constructor].
      * intros p q Hp Hq. apply list_elem_of_singleton in Hp, Hq. subst.
        apply proper_prefix_irrefl.
      * eexists. split; [vm_compute; reflexivity|].
        split; [vm_compute; discriminate | not_below].
    + exists w', ms. split; [exact Hrun|]. split; [exact Hat|].
      destruct (Hq _ (list_elem_of_here _ _)) as (_ & _ & _ & (d & Hd) & _ & _ & Hlong).
      exists d. rewrite Hlong in Hd; [exact Hd|]. vm_compute. lia.
Defined.

(** C8, the claim as stated fails.  The canonical path of 108 bytes does
    not fit the name field, and the run neither fails nor keeps to the
    plain header: it exits with 0 and the archive holds the file under a
    long-name record, its header name cut to 100 bytes.  And the
    canonical path of 99 bytes fits the name field, yet it is archived
    after [./], with 101 bytes, under a long-name record as well. *)
Lemma C8_counterexample :
  (let r := main (fun _ => Ok Scenario.long_manifest_json) Scenario.argv
              Scenario.long_initial in
   fst r = 0 /\
   Re.match_group1 path_stripper Scenario.long_source = Some Scenario.long_canonical /\
   LENGTH_NAME < String.length Scenario.long_canonical /\
   exists ms h,
     archive_at (snd r) Scenario.tar_loc = Some ms /\
     (h, Bytes "LONG") ∈ ms /\
     th_gnu_longname h = Some Scenario.long_canonical /\
     th_name h <> Scenario.long_canonical /\
     String.length (th_name h) = LENGTH_NAME) /\
  (let r := main (fun _ => Ok top_manifest_json) Scenario.argv top_initial in
   fst r = 0 /\
   Re.match_group1 path_stripper top_source = Some top_leaf /\
   String.length top_leaf < LENGTH_NAME /\
   exists ms h,
     archive_at (snd r) Scenario.tar_loc = Some ms /\
     (h, Bytes "TOP") ∈ ms /\
     th_gnu_longname h = Some ("./" +:+ top_leaf) /\
     th_name h <> "./" +:+ top_leaf /\
     String.length (th_name h) = LENGTH_NAME).
Proof.
  split.
  - vm_compute. split; [reflexivity|]. split; [reflexivity|]. split; [lia|].
    eexists. eexists. split; [reflexivity|].
    split.
    { first [ apply list_elem_of_here
            | apply list_elem_of_further, list_elem_of_here
            | apply list_elem_of_further, list_elem_of_further, list_elem_of_here ]. }
    split; [reflexivity|]. split; [discriminate | reflexivity].
  - vm_compute. split; [reflexivity|]. split; [reflexivity|]. split; [lia|].
    eexists. eexists. split; [reflexivity|].
    split.
    { first [ apply list_elem_of_here
            | apply list_elem_of_further, list_elem_of_here
            | apply list_elem_of_further, list_elem_of_further, list_elem_of_here ]. }
    split; [reflexivity|]. split; [discriminate | reflexivity].
Qed.

(** ** Two source paths with one canonical path *)

(** C10.  Take a run in a world prepared for its entries, two of which,
    [p1] and later [p2], have source paths from which the path stripper
    selects the same canonical path, no entry after [p2] having that
    path.  Then nothing is raised: the collection succeeds and leaves at
    that path of the output directory what the source file of [p2]
    holds, the copy of [p1] being overwritten; the manifest file that
    [write_new_manifest] writes has a line for the key of [p1] and a
    line for the key of [p2], two different keys, with the same
    canonical path; and the whole run succeeds, with an archive that
    holds that manifest and, under the name of the canonical path, what
    [p2] holds and nothing else. *)
Theorem C10_collision_run_succeeds (json_loads : decoder) (self : t)
    (w : world) (R : loc) (plan : list copy) (far : data) (deps : string)
    (p1 p2 : copy) (pre mid post : list copy) :
  load json_loads self w = (Ok (loaded plan, deps), w) ->
  prepared self w R plan far ->
  plan = pre ++ p1 :: mid ++ p2 :: post ->
  c_path p1 = c_path p2 ->
  (forall q, q ∈ post -> c_path q <> c_path p2) ->
  let c := PyStr.join "/" (c_path p2) in
  Re.match_group1 path_stripper (c_source p1) = Some c /\
  Re.match_group1 path_stripper (c_source p2) = Some c /\
  c_key p1 <> c_key p2 /\
  exists w3 w' ms,
    collect self (loaded plan) w = (Ok (as_manifest (collected plan)), w3) /\
    files w3 !! (R ++ c_path p2) = Some (File (c_data p2)) /\
    text_at w3 (manifest_path_of self) = Some (manifest_text (collected plan)) /\
    manifest_text (collected plan)
    = fold_right String.append "" (map manifest_line (collected pre))
      +:+ manifest_line (c_key p1, c)
      +:+ fold_right String.append "" (map manifest_line (collected mid))
      +:+ manifest_line (c_key p2, c)
      +:+ manifest_text (collected post) /\
    run json_loads self w = (Ok tt, w') /\
    archive_at w' (R ++ ["package.tar"]) = Some ms /\
    ("./package.manifest", Bytes (manifest_text (collected plan))) ∈ map member_view ms /\
    (forall d, (arcname (c_path p2), d) ∈ map member_view ms <-> d = c_data p2) /\
    length (filter (fun m => member_name (fst m) = arcname (c_path p2)) ms) = 1.
Proof.
  intros Hload Hprep Hplan Hsame Hpost c.
  destruct (run_prepared _ _ _ _ _ _ _ Hload Hprep)
    as (w3 & w' & ms & Hcollect & Htext & HF3 & Hrun & _ & Hat & Hnd & Hms & _).
  destruct (load_ok _ _ _ _ _ _ Hload) as (_ & _ & f & jd & _ & _ & Hparse).
  pose proof (parse_blobs_NoDup _ _ Hparse) as Hkeys.
  destruct Hprep as (_ & _ & _ & _ & Hok & _).
  rewrite Forall_forall in Hok.
  assert (H1 : p1 ∈ plan).
  { rewrite Hplan. apply elem_of_app. right. apply list_elem_of_here. }
  assert (H2 : p2 ∈ plan).
  { rewrite Hplan. apply elem_of_app. right. apply list_elem_of_further.
    apply elem_of_app. right. apply list_elem_of_here. }
  assert (Hlast : last_data plan (c_path p2) = Some (c_data p2)).
  { rewrite Hplan. change (pre ++ p1 :: mid ++ p2 :: post)
      with (pre ++ (p1 :: mid) ++ p2 :: post).
    rewrite app_assoc. apply last_data_last, Hpost. }
  destruct (Hok p1 H1) as (Hg1 & _). destruct (Hok p2 H2) as (Hg2 & Hne & Hc & _).
  split; [unfold c; rewrite <- Hsame; exact Hg1|]. split; [exact Hg2|].
  split.
  { intros E. rewrite Hplan in Hkeys. unfold Dict.keys, loaded in Hkeys.
    rewrite map_map, map_app in Hkeys. cbn [map fst] in Hkeys.
    apply NoDup_app in Hkeys as (_ & _ & Hkeys).
    apply NoDup_cons in Hkeys as [Hfresh _]. apply Hfresh.
    rewrite map_app. apply elem_of_app. right. cbn [map fst]. rewrite E.
    apply list_elem_of_here. }
  assert (Hhead : forall m, m ∈ ms -> exists x, fst m = create_gnu_header x).
  { intros m Hm. apply Hms in Hm as [->|[->|(q & d & _ & _ & ->)]]; eexists; reflexivity. }
  assert (Hin : (create_gnu_header (arcname (c_path p2)), c_data p2) ∈ ms).
  { apply Hms. right. right. exists p2, (c_data p2). auto. }
  exists w3, w', ms. split; [exact Hcollect|]. split.
  { apply HF3; [exact Hne|]. right. right. exact Hlast. }
  split; [exact Htext|]. split.
  { rewrite Hplan. unfold collected at 1. rewrite map_app. cbn [map].
    rewrite map_app. cbn [map]. fold (collected pre) (collected mid) (collected post).
    rewrite lines_app.
    change ((c_key p1, PyStr.join "/" (c_path p1))
              :: collected mid ++ (c_key p2, PyStr.join "/" (c_path p2)) :: collected post)
      with ([(c_key p1, PyStr.join "/" (c_path p1))]
              ++ collected mid ++ [(c_key p2, PyStr.join "/" (c_path p2))] ++ collected post).
    rewrite !lines_app. cbn [map fold_right]. rewrite Hsame. fold c.
    rewrite ?append_nil_r. reflexivity. }
  split; [exact Hrun|]. split; [exact Hat|]. split.
  { apply (member_view_header ms _ _ Hhead), Hms. right. left. reflexivity. }
  split.
  { intros d. rewrite (member_view_header ms _ _ Hhead). split.
    - intros Hd.
      assert (E : (create_gnu_header (arcname (c_path p2)), d)
                  = (create_gnu_header (arcname (c_path p2)), c_data p2)).
      { apply (NoDup_map_eq (fun m => member_name (fst m)) ms); auto. }
      now injection E.
    - intros ->. exact Hin. }
  pose proof (one_member ms Hnd _ Hin) as Hone. cbn [fst] in Hone.
  rewrite member_name_header in Hone. exact Hone.
Qed.

Lemma C10_collision_run_succeeds_witness :
  exists w3 w' ms,
    collect Scenario.self0 (loaded collision_plan) Scenario.collision_initial
    = (Ok (as_manifest (collected collision_plan)), w3) /\
    files w3 !! (Scenario.output_loc ++ ["out"; "obj"; "app"])
    = Some (File (Bytes "OTHER")) /\
    run (fun _ => Ok Scenario.collision_manifest_json) Scenario.self0
      Scenario.collision_initial = (Ok tt, w') /\
    archive_at w' (Scenario.output_loc ++ ["package.tar"]) = Some ms /\
    (forall d, ("out/obj/app", d) ∈ map member_view ms <-> d = Bytes "OTHER").
Proof.
  destruct (C10_collision_run_succeeds (fun _ => Ok Scenario.collision_manifest_json)
              Scenario.self0 Scenario.collision_initial Scenario.output_loc
              collision_plan (Bytes "FAR") "../../out/obj/app out/obj/app"
              (Copy "bin/app" "../../out/obj/app" ["out"; "obj"; "app"] (Bytes "APP"))
              (Copy "bin/other" "out/obj/app" ["out"; "obj"; "app"] (Bytes "OTHER"))
              [] [] [])
    as (_ & _ & _ & w3 & w' & ms & Hc & Hf & _ & _ & Hrun & Hat & _ & Hd & _).
  - apply load_fst. vm_compute. reflexivity.
  - split; [vm_compute; reflexivity|]. split; [vm_compute; reflexivity|].
    split; [nothing_below|]. split; [apply read_file_fst; vm_compute; reflexivity|].
    split; [|split].
    + constructor; [copy_is_ok | constructor; [copy_is_ok | constructor]].
    + intros p q Hp Hq (rest & Hne & E).
      assert (Hlen : forall x, x ∈ collision_plan -> length (c_path x) = 3).
      { intros x Hx. apply elem_of_cons in Hx as [->|Hx]; [reflexivity|].
        apply list_elem_of_singleton in Hx. subst. reflexivity. }
      apply (f_equal (@length string)) in E. rewrite length_app in E.
      rewrite (Hlen p Hp), (Hlen q Hq) in E. destruct rest; [congruence|].
      cbn [length] in E. lia.
    + eexists. split; [vm_compute; reflexivity|].
      split; [vm_compute; discriminate | not_below].
  - reflexivity.
  - reflexivity.
  - intros q Hq. inversion Hq.
  - exists w3, w', ms. auto.
Defined.
(** ** The entries of the output manifest *)

Lemma dict_set_fresh {V : Type} k (v : V) d :
  k ∉ Dict.keys d -> Dict.set k v d = d ++ [(k, v)].
Proof.
  induction d as [|[k' v'] d IH]; intros Hk; [reflexivity|].
  cbn [Dict.set app]. unfold Dict.keys in Hk. cbn [map fst] in Hk.
  apply not_elem_of_cons in Hk as [Hne Hk].
  destruct (String.eqb_spec k' k) as [E|_]; [congruence|].
  f_equal. apply IH, Hk.
Qed.

Lemma retained_cons b blobs :
  retained (b :: blobs) = if is_meta b then retained blobs else b :: retained blobs.
Proof.
  unfold retained. rewrite filter_cons.
  destruct (is_meta b); destruct (decide _); congruence.
Qed.

(** When no virtual path outside [meta/] is read twice, the loaded
    mapping is the list of the retained entries. *)
Lemma loaded_retained blobs d :
  NoDup (Dict.keys d ++ map virtual_path (retained blobs)) ->
  fold_left keep blobs d
  = d ++ map (fun b => (virtual_path b, JString (source_path b))) (retained blobs).
Proof.
  revert d. induction blobs as [|b blobs IH]; intros d Hnd.
  - cbn. now rewrite app_nil_r.
  - cbn [fold_left]. rewrite retained_cons in *. unfold keep at 2.
    destruct (is_meta b); [apply IH, Hnd|].
    cbn [map] in *.
    assert (Hfresh : virtual_path b ∉ Dict.keys d).
    { apply NoDup_app in Hnd as (_ & Hd & _). intros Hin.
      apply (Hd _ Hin), list_elem_of_here. }
    rewrite (dict_set_fresh _ _ _ Hfresh). rewrite IH.
    + now rewrite <- app_assoc.
    + unfold Dict.keys. rewrite map_app. cbn [map fst]. rewrite <- app_assoc. exact Hnd.
Qed.

Lemma effective_in_retained blobs b : b ∈ effective blobs -> b ∈ retained blobs.
Proof.
  intros H. apply effective_elem in H as [Hb Hm].
  apply list_elem_of_filter. auto.
Qed.

Lemma str_join_strings sep srcs :
  Json.str_join sep (map JString srcs) = Ok (PyStr.join sep srcs).
Proof.
  induction srcs as [|x l IH]; [reflexivity|].
  destruct l as [|y l]; [reflexivity|].
  change (Json.str_join sep (map JString (x :: y :: l)))
    with (s ← Json.as_str (JString x);
          r ← Json.str_join sep (map JString (y :: l)); Ok (s +:+ sep +:+ r)).
  rewrite IH. reflexivity.
Qed.

Lemma parse_package_json_run json_loads self w f data r :
  read_file (package_json_path self) w = (Ok f, w) ->
  json_loads f = Ok data ->
  parse_blobs data = r ->
  parse_package_json json_loads self w = (r, w).
Proof.
  intros Hr Hj Hp. unfold parse_package_json.
  rewrite (io_bind_step _ _ _ _ _ Hr). unfold lift, json_load.
  rewrite io_bind_unfold, Hj. cbv beta iota. rewrite Hp. reflexivity.
Qed.

Lemma load_run json_loads self w d0 deps :
  parse_package_json json_loads self w = (Ok d0, w) ->
  Json.str_join " " (Dict.values d0) = Ok deps ->
  load json_loads self w = (Ok (d0, deps), w).
Proof.
  intros Hp Hj. unfold load. rewrite (io_bind_step _ _ _ _ _ Hp).
  unfold lift. rewrite io_bind_unfold, Hj. reflexivity.
Qed.

Lemma load_join_raise json_loads self w d0 e :
  parse_package_json json_loads self w = (Ok d0, w) ->
  Json.str_join " " (Dict.values d0) = Raise e ->
  load json_loads self w = (Raise e, w).
Proof.
  intros Hp Hj. unfold load. rewrite (io_bind_step _ _ _ _ _ Hp).
  unfold lift. rewrite io_bind_unfold, Hj. reflexivity.
Qed.

Lemma load_parse_raise json_loads self w e :
  parse_package_json json_loads self w = (Raise e, w) ->
  load json_loads self w = (Raise e, w).
Proof. intros Hp. unfold load. now rewrite io_bind_unfold, Hp. Qed.

Lemma all_strings (l : list (string * json)) :
  (forall kv, kv ∈ l -> exists s, snd kv = JString s) ->
  exists srcs, map snd l = map JString srcs.
Proof.
  induction l as [|kv l IH]; intros H; [exists []; reflexivity|].
  destruct (H kv (list_elem_of_here _ _)) as (s & Hs).
  destruct IH as (srcs & Hsrcs);
    [intros kv' Hkv'; apply H, list_elem_of_further, Hkv'|].
  exists (s :: srcs). cbn [map]. now rewrite Hs, Hsrcs.
Qed.

(** The manifest file after the collection. *)
Lemma collect_manifest self d0 w d1 w3 :
  NoDup (Dict.keys d0) ->
  collect self d0 w = (Ok d1, w3) ->
  exists kcs,
    d1 = as_manifest kcs /\ map fst kcs = Dict.keys d0 /\
    Forall2 stripped d0 kcs /\
    text_at w3 (manifest_path_of self) = Some (manifest_text kcs).
Proof.
  intros Hnd Hc. apply collect_ok in Hc as (w1 & w2 & _ & Hcopy & Hw).
  apply (copy_to_output_dir_ok _ _ _ _ _ Hnd) in Hcopy as (kcs & Hs & ->).
  exists kcs. split; [reflexivity|]. split; [apply stripped_keys, Hs|].
  split; [exact Hs|].
  destruct (open_write (manifest_path_of self) w2) as [[f|e] w2'] eqn:Ho.
  - rewrite (write_new_manifest_run _ _ _ _ _ Ho) in Hw. injection Hw as <-.
    apply open_write_ok in Ho as (Hn & Hd & ->).
    eapply text_at_written; [exact Hn | exact Hd | reflexivity|].
    simpl. apply insert_insert_eq.
  - unfold write_new_manifest in Hw. fold (manifest_path_of self) in Hw.
    rewrite io_bind_unfold, Ho in Hw. discriminate.
Qed.

(** C6, as amended.  For a valid manifest, [parse_package_json] returns
    a mapping whose keys are the virtual paths outside [meta/], each
    once, in the order in which they are first read: the virtual path of
    an entry is a key exactly when it is not under [meta/].  The value
    of a key is the source path of the last entry outside [meta/] with
    that virtual path, so that an entry outside [meta/] is in the
    mapping exactly when no later such entry has its virtual path; when
    no virtual path outside [meta/] is read twice, the mapping is the
    list of the entries outside [meta/], each once, in their order.  The
    loading succeeds with this mapping, and a collection that succeeds
    keeps the keys and writes to [package.manifest] one line for each
    key, with what the path stripper selects in its source path. *)
Theorem C6_entries_of_output_manifest (json_loads : decoder) (self : t)
    (w : world) (f : data) (jd : json) (blobs : list blob) :
  read_file (package_json_path self) w = (Ok f, w) ->
  json_loads f = Ok jd ->
  manifest_of jd blobs ->
  exists d0 deps,
    parse_package_json json_loads self w = (Ok d0, w) /\
    load json_loads self w = (Ok (d0, deps), w) /\
    NoDup (Dict.keys d0) /\
    Dict.keys d0 = first_occurrences [] (map virtual_path (retained blobs)) /\
    (forall b, b ∈ blobs -> (virtual_path b ∈ Dict.keys d0 <-> is_meta b = false)) /\
    (forall k v, (k, v) ∈ d0 <->
                 exists b, b ∈ effective blobs /\
                           k = virtual_path b /\ v = JString (source_path b)) /\
    (forall b, b ∈ effective blobs -> b ∈ retained blobs) /\
    (NoDup (map virtual_path (retained blobs)) ->
     d0 = map (fun b => (virtual_path b, JString (source_path b))) (retained blobs)) /\
    (forall d1 w3,
        collect self d0 w = (Ok d1, w3) ->
        exists kcs,
          d1 = as_manifest kcs /\ map fst kcs = Dict.keys d0 /\
          Forall2 stripped d0 kcs /\
          text_at w3 (manifest_path_of self) = Some (manifest_text kcs)).
Proof.
  intros Hr Hj Hv.
  pose proof (parse_blobs_valid _ _ Hv) as Hp.
  set (d0 := fold_left keep blobs []) in *.
  assert (Hnd : NoDup (Dict.keys d0)) by (apply loaded_keys_NoDup, NoDup_nil; exact I).
  pose proof (parse_package_json_run json_loads self w f jd _ Hr Hj Hp) as Hpp.
  pose proof (loaded_items_effective blobs) as Hperm. fold d0 in Hperm.
  assert (Hall : forall kv, kv ∈ d0 -> exists s, snd kv = JString s).
  { intros kv Hkv. rewrite Hperm in Hkv. apply elem_of_map in Hkv as (b & -> & _).
    eexists. reflexivity. }
  destruct (all_strings d0 Hall) as (srcs & Hsrcs).
  exists d0, (PyStr.join " " srcs). split; [exact Hpp|]. split.
  { apply load_run; [exact Hpp|]. unfold Dict.values. rewrite Hsrcs.
    apply str_join_strings. }
  split; [exact Hnd|]. split.
  { unfold d0. rewrite loaded_keys_order. reflexivity. }
  split.
  { intros b Hb. unfold d0. rewrite loaded_keys_elem. split.
    - intros [H|(b' & _ & Hm & Hk)]; [inversion H|].
      unfold is_meta in *. rewrite <- Hk. exact Hm.
    - intros Hm. right. exists b. auto. }
  split.
  { intros k v. rewrite Hperm, elem_of_map. split.
    - intros (b & [= -> ->] & Hb). eauto.
    - intros (b & Hb & -> & ->). eauto. }
  split; [apply effective_in_retained|]. split.
  { intros Hnp. unfold d0. rewrite loaded_retained; [reflexivity | exact Hnp]. }
  intros d1 w3 Hc. exact (collect_manifest self d0 w d1 w3 Hnd Hc).
Qed.

Lemma C6_entries_of_output_manifest_witness :
  exists d0 deps,
    parse_package_json (fun _ => Ok Scenario.manifest_json) Scenario.self0
      Scenario.start0 = (Ok d0, Scenario.start0) /\
    load (fun _ => Ok Scenario.manifest_json) Scenario.self0 Scenario.start0
    = (Ok (d0, deps), Scenario.start0) /\
    Dict.keys d0 = ["bin/app"].
Proof.
  destruct (C6_entries_of_output_manifest (fun _ => Ok Scenario.manifest_json)
              Scenario.self0 Scenario.start0 (Bytes "{}") Scenario.manifest_json
              [Blob "bin/app" "../../out/obj/app"; Blob "meta/contents" "ignored"])
    as (d0 & deps & Hp & Hl & _ & Hk & _).
  - apply read_file_fst. vm_compute. reflexivity.
  - reflexivity.
  - exists [("blobs",
             JArray
               [JObject [("path", JString "bin/app");
                         ("source_path", JString "../../out/obj/app")];
                JObject [("path", JString "meta/contents");
                         ("source_path", JString "ignored")]])].
    eexists. split; [reflexivity|]. split; [reflexivity|].
    repeat constructor; eexists; (split; [reflexivity|]); split; reflexivity.
  - exists d0, deps. split; [exact Hp|]. split; [exact Hl|].
    rewrite Hk. vm_compute. reflexivity.
Defined.

(** C6, the claim as stated fails: the manifest that reads the virtual
    path [bin/app] twice is valid and both its entries are outside
    [meta/], yet the loaded mapping has the second entry alone, the run
    succeeds, and the output manifest has one line for the two
    entries. *)
Lemma C6_counterexample :
  manifest_of twice_manifest_json twice_blobs /\
  retained twice_blobs = twice_blobs /\
  fst (parse_package_json (fun _ => Ok twice_manifest_json) Scenario.self0
         Scenario.start0)
  = Ok [("bin/app", JString "gen/meta.far")] /\
  fst (main (fun _ => Ok twice_manifest_json) Scenario.argv Scenario.start0) = 0 /\
  text_at (snd (collect Scenario.self0 [("bin/app", JString "gen/meta.far")]
                  Scenario.start0)) "pkg/package.manifest"
  = Some ("bin/app=gen/meta.far" +:+ nl +:+ "meta/package=meta.far" +:+ nl).
Proof.
  split; [|split; [|split; [|split]]]; try (vm_compute; reflexivity).
  eexists. eexists. split; [reflexivity|]. split; [reflexivity|].
  repeat constructor; eexists; (split; [reflexivity|]); split; reflexivity.
Qed.

(** ** The depfile *)

(** C4, as amended.  After a successful run the depfile holds
    [<archive path>: <source paths>] and a line end, the source paths
    separated by spaces.  The paths are the values of the mapping as it
    was loaded, before the collection rewrote them, in the order of the
    mapping.  For a valid manifest every listed path is the source path
    of an entry outside [meta/]; the listed paths are, up to their
    order, the source paths of the entries outside [meta/] that no later
    such entry with the same virtual path replaces; and when no virtual
    path outside [meta/] is read twice, they are the source paths of all
    the entries outside [meta/], in the order of the manifest. *)
Theorem C4_depfile_lists_loaded_sources (json_loads : decoder)
    (self : t) (w w' : world) :
  run json_loads self w = (Ok tt, w') ->
  exists d0 srcs,
    load json_loads self w = (Ok (d0, PyStr.join " " srcs), w) /\
    Dict.values d0 = map JString srcs /\
    text_at w' (depfile self)
    = Some (tar_path_of self +:+ ": " +:+ PyStr.join " " srcs +:+ nl) /\
    (forall f jd blobs,
        read_file (package_json_path self) w = (Ok f, w) ->
        json_loads f = Ok jd ->
        manifest_of jd blobs ->
        Permutation srcs (map source_path (effective blobs)) /\
        (forall s, s ∈ srcs -> s ∈ map source_path (retained blobs)) /\
        (NoDup (map virtual_path (retained blobs)) ->
         srcs = map source_path (retained blobs))).
Proof.
  intros H. apply run_ok in H as (d0 & deps & d1 & w3 & w4 & Hl & _ & _ & Hd).
  pose proof (load_ok _ _ _ _ _ _ Hl) as (_ & Hj & f & jd & Hr & Hjs & Hp).
  destruct (str_join_ok _ _ _ Hj) as (srcs & Hv & ->).
  exists d0, srcs. split; [exact Hl|]. split; [exact Hv|]. split.
  - apply write_depfile_ok in Hd. exact Hd.
  - intros f' jd' blobs Hr' Hj' Hvalid. rewrite Hr in Hr'. injection Hr' as <-.
    rewrite Hjs in Hj'. injection Hj' as <-.
    rewrite (parse_blobs_valid _ _ Hvalid) in Hp. injection Hp as <-.
    assert (Hperm : Permutation srcs (map source_path (effective blobs))).
    { pose proof (loaded_items_effective blobs) as Hperm.
      apply (Permutation_map snd) in Hperm. rewrite map_map in Hperm. simpl in Hperm.
      unfold Dict.values in Hv. rewrite Hv in Hperm.
      rewrite <- (map_map source_path JString) in Hperm.
      apply Permutation_map_inv in Hperm as (l3 & Heq & Hperm).
      symmetry in Hperm. apply map_JString_inj in Heq. subst l3. exact Hperm. }
    split; [exact Hperm|]. split.
    + intros s Hs. rewrite Hperm in Hs. apply elem_of_map in Hs as (b & -> & Hb).
      apply elem_of_map_2, effective_in_retained, Hb.
    + intros Hnp. apply map_JString_inj. rewrite <- Hv.
      rewrite (loaded_retained blobs []) by exact Hnp.
      unfold Dict.values. cbn [app]. now rewrite !map_map.
Qed.

Lemma C4_depfile_lists_loaded_sources_witness :
  exists d0 srcs,
    load (fun _ => Ok Scenario.manifest_json) Scenario.self0 Scenario.start0
    = (Ok (d0, PyStr.join " " srcs), Scenario.start0) /\
    Dict.values d0 = map JString srcs /\
    text_at (snd (run (fun _ => Ok Scenario.manifest_json) Scenario.self0
                    Scenario.start0)) "gen/pkg.d"
    = Some (Spec.tar_path_of Scenario.self0 +:+ ": " +:+ PyStr.join " " srcs +:+ nl).
Proof.
  destruct (C4_depfile_lists_loaded_sources (fun _ => Ok Scenario.manifest_json)
              Scenario.self0 Scenario.start0
              (snd (run (fun _ => Ok Scenario.manifest_json) Scenario.self0
                      Scenario.start0)))
    as (d0 & srcs & Hl & Hv & Ht & _).
  - apply io_result. vm_compute. reflexivity.
  - exists d0, srcs. auto.
Defined.

(** C4, the claim as stated fails: the manifest that reads the virtual
    path [bin/app] twice has two entries outside [meta/], with the
    source paths [../../out/obj/app] and [gen/meta.far]; the run
    succeeds and the depfile lists the second alone. *)
Lemma C4_counterexample :
  manifest_of twice_manifest_json twice_blobs /\
  map source_path (retained twice_blobs) = ["../../out/obj/app"; "gen/meta.far"] /\
  (let r := main (fun _ => Ok twice_manifest_json) Scenario.argv Scenario.start0 in
   fst r = 0 /\
   text_at (snd r) "gen/pkg.d" = Some ("pkg/package.tar: gen/meta.far" +:+ nl)) /\
  ~ Permutation ["gen/meta.far"] ["../../out/obj/app"; "gen/meta.far"].
Proof.
  split; [|split; [|split]].
  - eexists. eexists. split; [reflexivity|]. split; [reflexivity|].
    repeat constructor; eexists; (split; [reflexivity|]); split; reflexivity.
  - vm_compute. reflexivity.
  - vm_compute. split; reflexivity.
  - intros H. apply Permutation_length in H. discriminate.
Qed.

(** ** Failures while loading *)

Lemma parse_blob_outcome d j :
  match entry_error j with
  | Some e => parse_blob d j = Raise e
  | None => exists d', parse_blob d j = Ok d'
  end.
Proof.
  unfold entry_error, parse_blob.
  destruct j as [| | | |items|members]; try reflexivity.
  cbn [Json.getitem]. destruct (Json.assoc "path" members) as [p|]; [|reflexivity].
  cbn [mbind result_bind].
  destruct p as [| | |p| |]; try reflexivity.
  cbn [Json.startswith mbind result_bind].
  destruct (PyStr.startswith p "meta/"); [eexists; reflexivity|].
  destruct (Json.assoc "source_path" members) as [sp|]; [|reflexivity].
  cbn [mbind result_bind Json.as_str]. eexists. reflexivity.
Qed.

Lemma foldM_outcome items :
  forall d,
    match first_error items with
    | Some e => foldM parse_blob d items = Raise e
    | None => exists d', foldM parse_blob d items = Ok d'
    end.
Proof.
  induction items as [|j items IH]; intros d; cbn [first_error foldM].
  - eexists. reflexivity.
  - pose proof (parse_blob_outcome d j) as Hj.
    destruct (entry_error j) as [e|].
    + rewrite Hj. reflexivity.
    + destruct Hj as (d' & ->). cbn [mbind result_bind]. apply IH.
Qed.

Lemma parse_blobs_outcome jd :
  match manifest_error jd with
  | Some e => parse_blobs jd = Raise e
  | None => exists d0, parse_blobs jd = Ok d0
  end.
Proof.
  unfold manifest_error, parse_blobs.
  destruct jd as [| | | |items|members]; try reflexivity.
  cbn [Json.getitem]. destruct (Json.assoc "blobs" members) as [blobs|]; [|reflexivity].
  cbn [mbind result_bind].
  destruct blobs as [| | |s|items|ms]; try reflexivity.
  - destruct s as [|a s]; [eexists; reflexivity | reflexivity].
  - cbn [Json.iter mbind result_bind]. apply foldM_outcome.
  - destruct ms as [|kv ms]; [eexists; reflexivity | reflexivity].
Qed.

(** C5, as amended.  When the manifest path or the path of the metadata
    archive is empty or names nothing, the constructor raises
    [ValueError].  When the decoder raises on what the manifest file
    holds, the loading raises that exception.  When the decoded manifest
    has an exception of the loader ([manifest_error]: no object, no
    ["blobs"], a ["blobs"] that cannot be looped over, an entry that is
    no object, has no ["path"], has a path that is no string, or is
    outside [meta/] and has no ["source_path"]), the loading raises it,
    and it is a [KeyError], a [TypeError] or an [AttributeError];
    otherwise [parse_package_json] returns a mapping, and the loading
    succeeds when the values of the mapping are strings and raises
    [TypeError] when one is not.  Whenever the constructor raises, and
    whenever the loading raises, the run raises the same exception, the
    exit status is 1, the exception is printed, and the file system is
    as it was: nothing was copied, created or modified. *)
Theorem C5_failures_before_copying (json_loads : decoder) (a : args) (w : world) :
  (arg_package_json_path a = "" \/ path_exists w (arg_package_json_path a) = false \/
   arg_meta_far_path a = "" \/ path_exists w (arg_meta_far_path a) = false ->
   exists msg,
     start json_loads a w = (Raise (ValueError msg), w) /\
     main json_loads a w = (1, emit (EvPrint (ValueError msg)) w)) /\
  (forall self,
      init (arg_package_json_path a) (arg_meta_far_path a) (arg_output_dir a)
        (arg_depfile a) w = (Ok self, w) ->
      (forall e w',
          load json_loads self w = (Raise e, w') ->
          start json_loads a w = (Raise e, w) /\
          main json_loads a w = (1, emit (EvPrint e) w)) /\
      (forall f,
          read_file (package_json_path self) w = (Ok f, w) ->
          (forall e, json_loads f = Raise e ->
                     load json_loads self w = (Raise e, w)) /\
          (forall jd,
              json_loads f = Ok jd ->
              match manifest_error jd with
              | Some e =>
                  load json_loads self w = (Raise e, w) /\
                  (e = TypeError \/ e = AttributeError \/ exists k, e = KeyError k)
              | None =>
                  exists d0,
                    parse_blobs jd = Ok d0 /\
                    parse_package_json json_loads self w = (Ok d0, w) /\
                    ((forall v, v ∈ Dict.values d0 -> exists s, v = JString s) ->
                     exists deps, load json_loads self w = (Ok (d0, deps), w)) /\
                    ((exists v, v ∈ Dict.values d0 /\ forall s, v <> JString s) ->
                     load json_loads self w = (Raise TypeError, w))
              end))).
Proof.
  split.
  - intros H.
    assert (Hs : exists msg, start json_loads a w = (Raise (ValueError msg), w)).
    { unfold start, init. rewrite io_bind_unfold.
      destruct (String.eqb_spec (arg_package_json_path a) "") as [E1|N1]; simpl; [eauto|].
      destruct (path_exists w (arg_package_json_path a)) eqn:X1; [|eauto].
      destruct (String.eqb_spec (arg_meta_far_path a) "") as [E2|N2]; simpl; [eauto|].
      destruct (path_exists w (arg_meta_far_path a)) eqn:X2; [|eauto].
      exfalso. destruct H as [H|[H|[H|H]]]; congruence. }
    destruct Hs as (msg & Hs). exists msg. split; [exact Hs|].
    rewrite main_start, Hs. reflexivity.
  - intros self Hinit. split.
    + intros e w' Hl.
      rewrite main_start, (start_init _ _ _ _ Hinit), (run_load_raise _ _ _ _ _ Hl).
      split; reflexivity.
    + intros f Hr. split.
      * intros e Hj. apply load_parse_raise.
        unfold parse_package_json. rewrite (io_bind_step _ _ _ _ _ Hr).
        unfold lift, json_load. rewrite io_bind_unfold, Hj. reflexivity.
      * intros jd Hj. pose proof (parse_blobs_outcome jd) as Hp.
        destruct (manifest_error jd) as [e|].
        -- split; [|eapply parse_blobs_raise, Hp].
           apply load_parse_raise.
           exact (parse_package_json_run json_loads self w f jd _ Hr Hj Hp).
        -- destruct Hp as (d0 & Hp). exists d0.
           pose proof (parse_package_json_run json_loads self w f jd _ Hr Hj Hp) as Hpp.
           split; [exact Hp|]. split; [exact Hpp|]. split.
           ++ intros Hall.
              destruct (all_strings d0) as (srcs & Hsrcs).
              { intros kv Hkv. apply Hall, elem_of_map_2, Hkv. }
              exists (PyStr.join " " srcs). apply load_run; [exact Hpp|].
              unfold Dict.values. rewrite Hsrcs. apply str_join_strings.
           ++ intros (v & Hv & Hns).
              destruct (Json.str_join " " (Dict.values d0)) as [deps|e] eqn:E.
              ** exfalso. apply str_join_ok in E as (srcs & Hsrcs & _).
                 rewrite Hsrcs in Hv. apply elem_of_map in Hv as (s & -> & _).
                 now apply (Hns s).
              ** rewrite (str_join_raise _ _ _ E) in E.
                 now apply (load_join_raise json_loads self w d0).
Qed.

Lemma C5_failures_before_copying_witness :
  (exists msg,
      main (fun _ => Ok Scenario.manifest_json) Scenario.argv
        (Scenario.initial_without_far "{}" (Bytes "APP"))
      = (1, emit (EvPrint (ValueError msg))
              (Scenario.initial_without_far "{}" (Bytes "APP")))) /\
  main (fun _ => Raise UnicodeDecodeError) Scenario.argv Scenario.start0
  = (1, emit (EvPrint UnicodeDecodeError) Scenario.start0) /\
  main (fun _ => Ok no_source_json) Scenario.argv Scenario.start0
  = (1, emit (EvPrint (KeyError "source_path")) Scenario.start0) /\
  main (fun _ => Ok number_source_json) Scenario.argv Scenario.start0
  = (1, emit (EvPrint TypeError) Scenario.start0).
Proof.
  split; [|split; [|split]].
  - destruct (C5_failures_before_copying (fun _ => Ok Scenario.manifest_json)
                Scenario.argv (Scenario.initial_without_far "{}" (Bytes "APP")))
      as (H & _).
    destruct H as (msg & _ & Hm); [right; right; right; vm_compute; reflexivity|].
    exists msg. exact Hm.
  - destruct (C5_failures_before_copying (fun _ => Raise UnicodeDecodeError)
                Scenario.argv Scenario.start0) as (_ & H).
    destruct (H Scenario.self0) as (Hfail & Hread); [apply init_fst; vm_compute; reflexivity|].
    destruct (Hread (Bytes "{}")) as (Hdec & _);
      [apply read_file_fst; vm_compute; reflexivity|].
    exact (proj2 (Hfail _ _ (Hdec UnicodeDecodeError eq_refl))).
  - destruct (C5_failures_before_copying (fun _ => Ok no_source_json)
                Scenario.argv Scenario.start0) as (_ & H).
    destruct (H Scenario.self0) as (Hfail & Hread); [apply init_fst; vm_compute; reflexivity|].
    destruct (Hread (Bytes "{}")) as (_ & Hdec);
      [apply read_file_fst; vm_compute; reflexivity|].
    exact (proj2 (Hfail _ _ (proj1 (Hdec no_source_json eq_refl)))).
  - destruct (C5_failures_before_copying (fun _ => Ok number_source_json)
                Scenario.argv Scenario.start0) as (_ & H).
    destruct (H Scenario.self0) as (Hfail & Hread); [apply init_fst; vm_compute; reflexivity|].
    destruct (Hread (Bytes "{}")) as (_ & Hdec);
      [apply read_file_fst; vm_compute; reflexivity|].
    destruct (Hdec number_source_json eq_refl) as (d0 & Hpb & _ & _ & Hraise).
    vm_compute in Hpb. injection Hpb as <-.
    apply (fun H => proj2 (Hfail _ _ (Hraise H))).
    exists (JNumber "5"). split; [apply list_elem_of_here | discriminate].
Defined.

(** C5, the claim as stated fails: the manifest
    [{"blobs": [{"path": "meta/contents"}]}] is malformed, its entry has
    no source path, and the run succeeds; the manifest [{}] is malformed
    and the run fails with [KeyError], which is not a [ValueError]; and
    on bytes that the decoder refuses for their nesting the run fails
    with [RecursionError], which is not a [ValueError] either. *)
Lemma C5_counterexample :
  (~ exists blobs, manifest_of Scenario.meta_without_source_json blobs) /\
  fst (main (fun _ => Ok Scenario.meta_without_source_json) Scenario.argv
         Scenario.start0) = 0 /\
  (~ exists blobs, manifest_of Scenario.no_blobs_json blobs) /\
  (exists e,
      fst (start (fun _ => Ok Scenario.no_blobs_json) Scenario.argv Scenario.start0)
      = Raise e /\
      is_ValueError e = false) /\
  (exists e,
      fst (start (fun _ => Raise RecursionError) Scenario.argv Scenario.start0)
      = Raise e /\
      is_ValueError e = false).
Proof.
  split; [|split; [|split; [|split]]].
  - intros (blobs & members & items & Hd & Hb & Hitems).
    injection Hd as <-. simpl in Hb. injection Hb as <-.
    inversion Hitems as [|j b items' blobs' (ms & Hj & _ & Hs) _]; subst.
    injection Hj as <-. simpl in Hs. discriminate.
  - vm_compute. reflexivity.
  - intros (blobs & members & items & Hd & Hb & _).
    injection Hd as <-. simpl in Hb. discriminate.
  - eexists. split; [vm_compute; reflexivity | reflexivity].
  - eexists. split; [vm_compute; reflexivity | reflexivity].
Qed.

(** ** What a collection leaves behind *)



